(** * Policy scope, cascade and reconciliation (automation/models.py)

    A shallow embedding of the [Policy] model of
    [api/tacticalrmm/automation/models.py]: the scope resolver
    ([get_related]), the save hook ([save]), the task and check cascade
    resolvers ([cascade_policy_tasks], [cascade_policy_checks]) and the
    materialization drivers ([generate_policy_checks],
    [generate_policy_tasks]).

    Database tables are lists of rows; a foreign key is the primary key of
    the row it points to ([option nat] when the column is nullable); a
    queryset is the list of rows a filter keeps.  Code that writes to the
    database takes the table and returns the new table. *)

From Stdlib Require Import List String Bool Arith ZArith Lia Permutation.
Import ListNotations.
Local Open Scope string_scope.
Local Open Scope nat_scope.
Local Open Scope list_scope.

(** ** Python and SQL primitives *)

(** [x in l] on a list of integers. *)
Definition mem_nat (x : nat) (l : list nat) : bool := existsb (Nat.eqb x) l.

(** [x in l] on a list of strings. *)
Definition mem_str (x : string) (l : list string) : bool :=
  existsb (String.eqb x) l.

(** Equality of two nullable keys as SQL decides it: NULL equals nothing. *)
Definition fk_eqb (x y : option nat) : bool :=
  match x, y with
  | Some a, Some b => a =? b
  | _, _ => false
  end.

(** Python equality of two nullable keys: [None == None] holds. *)
Definition opt_eqb (x y : option nat) : bool :=
  match x, y with
  | Some a, Some b => a =? b
  | None, None => true
  | _, _ => false
  end.

(** [x in l] where [l] is a Python list of nullable keys. *)
Definition mem_opt (x : option nat) (l : list (option nat)) : bool :=
  existsb (opt_eqb x) l.

(** The lookup [column__in=l] on a nullable column: a NULL column matches
    nothing, and a [None] in [l] matches nothing. *)
Definition fk_in (x : option nat) (l : list (option nat)) : bool :=
  existsb (fk_eqb x) l.

(** ** Data model *)

(** The two monitoring-type classes; [f"{mon_type}_clients"] and
    [f"{mon_type}_sites"] exist for these two only. *)
Inductive MonType := server | workstation.

Definition MonType_eqb (x y : MonType) : bool :=
  match x, y with
  | server, server | workstation, workstation => true
  | _, _ => false
  end.

Lemma MonType_eqb_eq x y : MonType_eqb x y = true <-> x = y.
Proof. destruct x, y; simpl; split; congruence. Qed.

(** Modelled from the spec: the [Client], [Site] and [Agent] models live in
    [clients.models] and [agents.models]; only the columns the policy code
    reads are kept (spec section 3). *)
Module Client.
Record t := mk {
  pk : nat;
  server_policy : option nat;
  workstation_policy : option nat
}.
End Client.

Module Site.
Record t := mk {
  pk : nat;
  client : nat;
  block_policy_inheritance : bool;
  server_policy : option nat;
  workstation_policy : option nat
}.
End Site.

Module Agent.
Record t := mk {
  pk : nat;
  plat : string;
  monitoring_type : MonType;
  block_policy_inheritance : bool;
  site : nat;
  policy : option nat
}.
End Agent.

(** The tables the scope resolver queries. *)
Record Tables := {
  agents : list Agent.t;
  sites : list Site.t;
  clients : list Client.t
}.

(** ** Rows and writes

    A table is the list of its rows; [pk] gives a row's primary key.
    [instance.delete()] removes the row with the instance's primary key;
    [instance.save()] overwrites the row with that primary key by the
    instance, and inserts the instance when no row has it. *)
Section RowStore.

Variable Row : Type.
Variable pk : Row -> nat.

Definition delete_row (p : nat) (table : list Row) : list Row :=
  filter (fun r => negb (pk r =? p)) table.

Definition save_row (instance : Row) (table : list Row) : list Row :=
  if existsb (fun r => pk r =? pk instance) table
  then map (fun r => if pk r =? pk instance then instance else r) table
  else table ++ [instance].

(** The primary key an insert gives to a new row. *)
Definition fresh_pk (table : list Row) : nat :=
  S (fold_right (fun r m => Nat.max (pk r) m) 0 table).

(** Keep the rows [f] maps to [Some], replaced by what it maps them to. *)
Fixpoint filter_map (f : Row -> option Row) (table : list Row) : list Row :=
  match table with
  | [] => []
  | r :: table' =>
      match f r with
      | Some r' => r' :: filter_map f table'
      | None => filter_map f table'
      end
  end.

(** One write for an instance of a queryset: [f] gives the instance to
    save, or [None] to delete it. *)
Definition write_row (f : Row -> option Row) (table : list Row)
  (instance : Row) : list Row :=
  match f instance with
  | Some instance' => save_row instance' table
  | None => delete_row (pk instance) table
  end.

(** What becomes of a row of the table when [write_row f] has run over a
    queryset. *)
Definition row_fate (f : Row -> option Row) (queryset : list Row) (r : Row)
  : option Row :=
  if mem_nat (pk r) (map pk queryset) then f r else Some r.

End RowStore.

Arguments write_row {Row} pk f table instance.
Arguments row_fate {Row} pk f queryset r.
Arguments delete_row {Row} pk p table.
Arguments save_row {Row} pk instance table.
Arguments fresh_pk {Row} pk table.
Arguments filter_map {Row} f table.

(** Modelled from the spec: [Script], [AutomatedTask] and [Check] live in
    [scripts.models], [autotasks.models] and [checks.models]; the columns
    are those of spec section 3.  A check or task row belongs either to an
    agent ([agent]) or to a policy ([policy], the template rows); the
    type-specific columns of a check are read only for a check of that
    type, and a script check or a task carries its script. *)
Module Script.
Record t := mk {
  id : nat;
  shell : string
}.
End Script.

Module AutomatedTask.
Record t := mk {
  pk : nat;
  agent : option nat;
  policy : option nat;
  managed_by_policy : bool;
  parent_task : option nat;
  sync_status : string;
  script : Script.t
}.

Definition set_sync_status (task : t) (s : string) : t :=
  mk (pk task) (agent task) (policy task) (managed_by_policy task)
     (parent_task task) s (script task).
End AutomatedTask.

Module Check.
Record t := mk {
  pk : nat;
  agent : option nat;
  policy : option nat;
  check_type : string;
  managed_by_policy : bool;
  parent_check : option nat;
  overriden_by_policy : bool;
  sync_status : string;
  disk : string;
  ip : string;
  svc_name : string;
  script : Script.t;
  log_name : string;
  event_id : Z
}.

Definition set_overriden_by_policy (check : t) (b : bool) : t :=
  mk (pk check) (agent check) (policy check) (check_type check)
     (managed_by_policy check) (parent_check check) b (sync_status check)
     (disk check) (ip check) (svc_name check) (script check)
     (log_name check) (event_id check).

(** Truth value of [check.agent]. *)
Definition has_agent (check : t) : bool :=
  match agent check with
  | Some _ => true
  | None => false
  end.
End Check.

(** [[log_name, event_id] in l]. *)
Definition mem_event (x : string * Z) (l : list (string * Z)) : bool :=
  existsb (fun y => String.eqb (fst x) (fst y) && Z.eqb (snd x) (snd y)) l.

(** Primary keys are unique in each table. *)
Definition unique_pks (db : Tables) : Prop :=
  NoDup (map Agent.pk (agents db))
  /\ NoDup (map Site.pk (sites db))
  /\ NoDup (map Client.pk (clients db)).

(** A background job put on the queue with [.delay(...)]. *)
Inductive Job :=
| generate_agent_checks_task
    (policy : option nat) (agents : option (list nat)) (create_tasks : bool)
| cache_agents_alert_template.

(** What a call that may raise returns. *)
Inductive outcome (A : Type) :=
| Ok (a : A)
| DoesNotExist.
Arguments Ok {A} a.
Arguments DoesNotExist {A}.

Module Policy.

(** The columns of [Policy]; a many-to-many exclusion set is the list of
    the primary keys it links to.  [pk] is [None] until the row is
    saved. *)
Record t := mk {
  pk : option nat;
  name : string;
  desc : option string;
  active : bool;
  enforced : bool;
  alert_template : option nat;
  excluded_sites : list nat;
  excluded_clients : list nat;
  excluded_agents : list nat
}.

Definition set_pk (self : t) (p : option nat) : t :=
  mk p (name self) (desc self) (active self) (enforced self)
     (alert_template self) (excluded_sites self) (excluded_clients self)
     (excluded_agents self).

(** *** Scope resolution *)

(** The join [agent.site]: the row of the agent's site. *)
Definition site_of (db : Tables) (agent : Agent.t) : option Site.t :=
  find (fun s => Site.pk s =? Agent.site agent) (sites db).

(** The join [agent.site.client] (also the property [agent.client]), as
    the client's primary key. *)
Definition client_of (db : Tables) (agent : Agent.t) : option nat :=
  option_map Site.client (site_of db agent).

(** [is_agent_excluded]. *)
Definition is_agent_excluded (db : Tables) (self : t) (agent : Agent.t)
  : bool :=
  mem_nat (Agent.pk agent) (excluded_agents self)
  || mem_nat (Agent.site agent) (excluded_sites self)
  || match client_of db agent with
     | Some c => mem_nat c (excluded_clients self)
     | None => false
     end.

(** The reverse relation [self.agents]. *)
Definition policy_agents (db : Tables) (self : t) : list Agent.t :=
  filter (fun a => fk_eqb (Agent.policy a) (pk self)) (agents db).

(** The reverse relations [self.server_clients] and
    [self.workstation_clients]. *)
Definition mon_type_clients (db : Tables) (self : t) (mon_type : MonType)
  : list Client.t :=
  filter (fun c =>
            fk_eqb match mon_type with
                   | server => Client.server_policy c
                   | workstation => Client.workstation_policy c
                   end (pk self))
         (clients db).

(** The reverse relations [self.server_sites] and
    [self.workstation_sites]. *)
Definition mon_type_sites (db : Tables) (self : t) (mon_type : MonType)
  : list Site.t :=
  filter (fun s =>
            fk_eqb match mon_type with
                   | server => Site.server_policy s
                   | workstation => Site.workstation_policy s
                   end (pk self))
         (sites db).

Definition explicit_agents (db : Tables) (self : t) (mon_type : MonType)
  : list Agent.t :=
  filter (fun a =>
            negb match client_of db a with
                 | Some c => mem_nat c (excluded_clients self)
                 | None => false
                 end)
    (filter (fun a => negb (mem_nat (Agent.site a) (excluded_sites self)))
       (filter (fun a => negb (mem_nat (Agent.pk a) (excluded_agents self)))
          (filter (fun a => MonType_eqb (Agent.monitoring_type a) mon_type)
             (policy_agents db self)))).

Definition explicit_clients (db : Tables) (self : t) (mon_type : MonType)
  : list Client.t :=
  filter (fun c => negb (mem_nat (Client.pk c) (excluded_clients self)))
         (mon_type_clients db self mon_type).

Definition explicit_sites (db : Tables) (self : t) (mon_type : MonType)
  : list Site.t :=
  filter (fun s => negb (mem_nat (Site.pk s) (excluded_sites self)))
         (mon_type_sites db self mon_type).

(** The first [filtered_agents_pks |= ...]: agents reached through a
    site that is assigned the policy. *)
Definition site_inherited_pks (db : Tables) (self : t) (mon_type : MonType)
  : list nat :=
  let site_list :=
    filter (fun s =>
              negb (mem_nat (Site.client s)
                      (map Client.pk (explicit_clients db self mon_type)))
              && negb (mem_nat (Site.client s) (excluded_clients self)))
           (explicit_sites db self mon_type) in
  map Agent.pk
    (filter (fun a =>
               mem_nat (Agent.site a) (map Site.pk site_list)
               && MonType_eqb (Agent.monitoring_type a) mon_type)
       (filter (fun a => negb (Agent.block_policy_inheritance a))
          (agents db))).

(** The second [filtered_agents_pks |= ...]: agents reached through a
    client that is assigned the policy. *)
Definition client_inherited_pks (db : Tables) (self : t)
  (mon_type : MonType) : list nat :=
  map Agent.pk
    (filter (fun a =>
               match client_of db a with
               | Some c =>
                   mem_nat c
                     (map Client.pk (explicit_clients db self mon_type))
               | None => false
               end
               && MonType_eqb (Agent.monitoring_type a) mon_type)
       (filter (fun a =>
                  negb match site_of db a with
                       | Some s => Site.block_policy_inheritance s
                       | None => false
                       end)
          (filter (fun a => negb (Agent.block_policy_inheritance a))
             (agents db)))).

(** [get_related], for a policy that is stored: the many-to-many
    managers raise [ValueError] on an instance that has no primary key
    yet, and the statements below that give a result for every policy of
    a given shape ask for [pk self <> None]. *)
Definition get_related (db : Tables) (self : t) (mon_type : MonType)
  : list Agent.t :=
  let filtered_agents_pks :=
    site_inherited_pks db self mon_type
    ++ client_inherited_pks db self mon_type in
  filter (fun a =>
            mem_nat (Agent.pk a) filtered_agents_pks
            || mem_nat (Agent.pk a)
                 (map Agent.pk (explicit_agents db self mon_type)))
         (agents db).


(** *** Saving *)

(** Truth value of [self.pk]: [None] and [0] are false. *)
Definition pk_truthy (p : option nat) : bool :=
  match p with
  | Some (S _) => true
  | _ => false
  end.

(** [type(self).objects.get(pk=...)]. *)
Definition objects_get (table : list t) (p : option nat) : option t :=
  find (fun q => fk_eqb (pk q) p) table.

Definition next_pk (table : list t) : nat :=
  S (fold_right (fun q m =>
                   Nat.max match pk q with Some p => p | None => 0 end m)
       0 table).

(** Modelled from the spec: [BaseAuditModel.save] is in [logs.models],
    outside the source at hand; the spec lists persistence of domain
    objects as an external collaborator.  A row without a primary key is
    inserted under a fresh one, a row with a primary key replaces the row
    that has it (or is inserted when there is none); the instance comes
    back with its primary key set.  This is the save of a row the
    database accepts: the errors the database raises on a row it refuses
    (a [name] that another row has, line 9) are not modelled. *)
Definition super_save (table : list t) (self : t) (old_model : option t)
  : list t * t :=
  match pk self with
  | None =>
      let self' := set_pk self (Some (next_pk table)) in
      (table ++ [self'], self')
  | Some p =>
      if existsb (fun q => fk_eqb (pk q) (Some p)) table
      then (map (fun q => if fk_eqb (pk q) (Some p) then self else q) table,
            self)
      else (table ++ [self], self)
  end.

(** [save]: the new policy table, the instance after the save and the
    jobs put on the queue, in order. *)
Definition save (table : list t) (self : t)
  : outcome (list t * t * list Job) :=
  let old_lookup :=
    if pk_truthy (pk self)
    then match objects_get table (pk self) with
         | Some old => Ok (Some old)
         | None => DoesNotExist
         end
    else Ok None in
  match old_lookup with
  | DoesNotExist => DoesNotExist
  | Ok old_policy =>
      let '(table', self') := super_save table self old_policy in
      let jobs :=
        match old_policy with
        | Some old =>
            (if negb (Bool.eqb (active old) (active self'))
                || negb (Bool.eqb (enforced old) (enforced self'))
             then [generate_agent_checks_task (pk self') None true]
             else [])
            ++ (if negb (opt_eqb (alert_template old) (alert_template self'))
                then [cache_agents_alert_template]
                else [])
        | None => []
        end in
      Ok (table', self', jobs)
  end.

(** *** Cascade resolution *)

(** What [agent.get_agent_policies()] returns: the policy found at each of
    the four levels, if any.  The locator is in [agents.models]; its
    result is an input here. *)
Record AgentPolicies := {
  agent_policy : option t;
  site_policy : option t;
  client_policy : option t;
  default_policy : option t
}.

Section Cascade.

(** [agent.is_supported_script(shell)], defined in [agents.models]. *)
Variable is_supported_script : Agent.t -> string -> bool.

(** The reverse relations [agent.autotasks] and [policy.autotasks]. *)
Definition agent_autotasks (table : list AutomatedTask.t) (agent : Agent.t)
  : list AutomatedTask.t :=
  filter (fun task => fk_eqb (AutomatedTask.agent task) (Some (Agent.pk agent)))
         table.

Definition policy_autotasks (table : list AutomatedTask.t) (policy : t)
  : list AutomatedTask.t :=
  filter (fun task => fk_eqb (AutomatedTask.policy task) (pk policy)) table.

(** One [if policies[...] and policies[...].active: for task in ...] block
    of [cascade_policy_tasks]. *)
Definition add_policy_tasks (table : list AutomatedTask.t)
  (policy : option t) (tasks : list AutomatedTask.t)
  : list AutomatedTask.t :=
  match policy with
  | Some pol =>
      if active pol
      then fold_left
             (fun tasks task =>
                if negb (mem_nat (AutomatedTask.pk task)
                           (map AutomatedTask.pk tasks))
                then tasks ++ [task]
                else tasks)
             (policy_autotasks table pol) tasks
      else tasks
  | None => tasks
  end.

(** [agent_tasks_parent_pks]. *)
Definition agent_tasks_parent_pks (table : list AutomatedTask.t)
  (agent : Agent.t) : list (option nat) :=
  map AutomatedTask.parent_task
    (filter AutomatedTask.managed_by_policy (agent_autotasks table agent)).

(** The list [tasks] after the script filter: the accepted templates. *)
Definition accepted_tasks (table : list AutomatedTask.t) (agent : Agent.t)
  (policies : AgentPolicies) : list AutomatedTask.t :=
  let tasks := [] in
  let tasks := add_policy_tasks table (agent_policy policies) tasks in
  let tasks := add_policy_tasks table (site_policy policies) tasks in
  let tasks := add_policy_tasks table (client_policy policies) tasks in
  let tasks := add_policy_tasks table (default_policy policies) tasks in
  filter (fun task =>
            is_supported_script agent
              (Script.shell (AutomatedTask.script task)))
         tasks.

(** The parent keys of managed tasks that are no longer accepted. *)
Definition stale_task_pks (parent_pks : list (option nat))
  (tasks : list AutomatedTask.t) : list (option nat) :=
  filter (fun taskpk =>
            negb (mem_opt taskpk
                    (map (fun task => Some (AutomatedTask.pk task)) tasks)))
         parent_pks.

(** The body of the loop that retires a task. *)
Definition retire_task (table : list AutomatedTask.t)
  (task : AutomatedTask.t) : list AutomatedTask.t :=
  if String.eqb (AutomatedTask.sync_status task) "initial"
  then delete_row AutomatedTask.pk (AutomatedTask.pk task) table
  else save_row AutomatedTask.pk
         (AutomatedTask.set_sync_status task "pendingdeletion") table.

(** What the loop that retires does with one task of its queryset:
    [None] for [task.delete()], the instance saved otherwise. *)
Definition retired_task (task : AutomatedTask.t) : option AutomatedTask.t :=
  if String.eqb (AutomatedTask.sync_status task) "initial"
  then None
  else Some (AutomatedTask.set_sync_status task "pendingdeletion").

(** The [update(sync_status="notsynced")] on the pending-deletion tasks of
    the agent whose parent is accepted, on one row. *)
Definition revive_task (agent : Agent.t) (tasks : list AutomatedTask.t)
  (row : AutomatedTask.t) : AutomatedTask.t :=
  if fk_eqb (AutomatedTask.agent row) (Some (Agent.pk agent))
     && String.eqb (AutomatedTask.sync_status row) "pendingdeletion"
     && fk_in (AutomatedTask.parent_task row)
          (map (fun task => Some (AutomatedTask.pk task)) tasks)
  then AutomatedTask.set_sync_status row "notsynced"
  else row.

Definition revive_tasks (agent : Agent.t) (tasks : list AutomatedTask.t)
  (table : list AutomatedTask.t) : list AutomatedTask.t :=
  map (revive_task agent tasks) table.

(** The queryset of the retiring loop, as a test on a row of the table. *)
Definition in_retire_queryset (parent_pks : list (option nat))
  (agent : Agent.t) (tasks : list AutomatedTask.t) (row : AutomatedTask.t)
  : bool :=
  fk_eqb (AutomatedTask.agent row) (Some (Agent.pk agent))
  && fk_in (AutomatedTask.parent_task row) (stale_task_pks parent_pks tasks).

(** [cascade_policy_tasks]: the task table after the call and the list it
    returns. *)
Definition cascade_policy_tasks (table : list AutomatedTask.t)
  (agent : Agent.t) (policies : AgentPolicies)
  : list AutomatedTask.t * list AutomatedTask.t :=
  let parent_pks := agent_tasks_parent_pks table agent in
  let tasks := accepted_tasks table agent policies in
  let queryset :=
    filter (fun task =>
              fk_in (AutomatedTask.parent_task task)
                (stale_task_pks parent_pks tasks))
           (agent_autotasks table agent) in
  let table := fold_left retire_task queryset table in
  let table := revive_tasks agent tasks table in
  (table,
   filter (fun task => negb (mem_opt (Some (AutomatedTask.pk task)) parent_pks))
          tasks).

(** The reverse relations [agent.agentchecks] and [policy.policychecks]. *)
Definition agentchecks (table : list Check.t) (agent : Agent.t)
  : list Check.t :=
  filter (fun check => fk_eqb (Check.agent check) (Some (Agent.pk agent)))
         table.

Definition policychecks (table : list Check.t) (policy : t) : list Check.t :=
  filter (fun check => fk_eqb (Check.policy check) (pk policy)) table.

(** [agent_checks]: the checks added to the agent directly. *)
Definition agent_checks (table : list Check.t) (agent : Agent.t)
  : list Check.t :=
  filter (fun check => negb (Check.managed_by_policy check))
         (agentchecks table agent).

(** [agent_checks_parent_pks]. *)
Definition agent_checks_parent_pks (table : list Check.t) (agent : Agent.t)
  : list (option nat) :=
  map Check.parent_check
    (filter Check.managed_by_policy (agentchecks table agent)).

(** One [if policies[...] and policies[...].active:] block of
    [cascade_policy_checks], on the pair
    [(enforced_checks, policy_checks)]. *)
Definition collect_policy_checks (table : list Check.t) (policy : option t)
  (lists : list Check.t * list Check.t) : list Check.t * list Check.t :=
  let '(enforced_checks, policy_checks) := lists in
  match policy with
  | Some pol =>
      if active pol
      then if enforced pol
           then (enforced_checks ++ policychecks table pol, policy_checks)
           else (enforced_checks, policy_checks ++ policychecks table pol)
      else lists
  | None => lists
  end.

(** [(enforced_checks, policy_checks)] after the four blocks. *)
Definition collected_checks (table : list Check.t) (policies : AgentPolicies)
  : list Check.t * list Check.t :=
  let lists := ([], []) in
  let lists := collect_policy_checks table (agent_policy policies) lists in
  let lists := collect_policy_checks table (site_policy policies) lists in
  let lists := collect_policy_checks table (client_policy policies) lists in
  collect_policy_checks table (default_policy policies) lists.

(** The local lists of the main loop and the check table. *)
Record LoopState := {
  added_diskspace_checks : list string;
  added_ping_checks : list string;
  added_winsvc_checks : list string;
  added_script_checks : list nat;
  added_eventlog_checks : list (string * Z);
  added_cpuload_checks : list Check.t;
  added_memory_checks : list Check.t;
  diskspace_checks : list Check.t;
  ping_checks : list Check.t;
  winsvc_checks : list Check.t;
  script_checks : list Check.t;
  eventlog_checks : list Check.t;
  cpuload_checks : list Check.t;
  memory_checks : list Check.t;
  checks_table : list Check.t
}.

Definition initial_state (table : list Check.t) : LoopState :=
  Build_LoopState [] [] [] [] [] [] [] [] [] [] [] [] [] [] table.

(** [check.overriden_by_policy = True; check.save()]. *)
Definition save_overriden (check : Check.t) (st : LoopState) : LoopState :=
  let (a1, a2, a3, a4, a5, a6, a7, b1, b2, b3, b4, b5, b6, b7, table) := st in
  Build_LoopState a1 a2 a3 a4 a5 a6 a7 b1 b2 b3 b4 b5 b6 b7
    (save_row Check.pk (Check.set_overriden_by_policy check true) table).

Definition diskspace_block (agent : Agent.t) (check : Check.t)
  (st : LoopState) : LoopState :=
  if String.eqb (Check.check_type check) "diskspace"
     && String.eqb (Agent.plat agent) "windows"
  then
    if negb (mem_str (Check.disk check) (added_diskspace_checks st))
    then
      let (a1, a2, a3, a4, a5, a6, a7, b1, b2, b3, b4, b5, b6, b7, t) := st in
      Build_LoopState (a1 ++ [Check.disk check]) a2 a3 a4 a5 a6 a7
        (if negb (Check.has_agent check) then b1 ++ [check] else b1)
        b2 b3 b4 b5 b6 b7 t
    else if Check.has_agent check then save_overriden check st else st
  else st.

Definition ping_block (check : Check.t) (st : LoopState) : LoopState :=
  if String.eqb (Check.check_type check) "ping"
  then
    if negb (mem_str (Check.ip check) (added_ping_checks st))
    then
      let (a1, a2, a3, a4, a5, a6, a7, b1, b2, b3, b4, b5, b6, b7, t) := st in
      Build_LoopState a1 (a2 ++ [Check.ip check]) a3 a4 a5 a6 a7
        b1 (if negb (Check.has_agent check) then b2 ++ [check] else b2)
        b3 b4 b5 b6 b7 t
    else if Check.has_agent check then save_overriden check st else st
  else st.

Definition cpuload_block (agent : Agent.t) (check : Check.t)
  (st : LoopState) : LoopState :=
  if String.eqb (Check.check_type check) "cpuload"
     && String.eqb (Agent.plat agent) "windows"
  then
    if match added_cpuload_checks st with [] => true | _ => false end
    then
      let (a1, a2, a3, a4, a5, a6, a7, b1, b2, b3, b4, b5, b6, b7, t) := st in
      Build_LoopState a1 a2 a3 a4 a5 (a6 ++ [check]) a7
        b1 b2 b3 b4 b5
        (if negb (Check.has_agent check) then b6 ++ [check] else b6) b7 t
    else if Check.has_agent check then save_overriden check st else st
  else st.

Definition memory_block (agent : Agent.t) (check : Check.t)
  (st : LoopState) : LoopState :=
  if String.eqb (Check.check_type check) "memory"
     && String.eqb (Agent.plat agent) "windows"
  then
    if match added_memory_checks st with [] => true | _ => false end
    then
      let (a1, a2, a3, a4, a5, a6, a7, b1, b2, b3, b4, b5, b6, b7, t) := st in
      Build_LoopState a1 a2 a3 a4 a5 a6 (a7 ++ [check])
        b1 b2 b3 b4 b5 b6
        (if negb (Check.has_agent check) then b7 ++ [check] else b7) t
    else if Check.has_agent check then save_overriden check st else st
  else st.

Definition winsvc_block (agent : Agent.t) (check : Check.t)
  (st : LoopState) : LoopState :=
  if String.eqb (Check.check_type check) "winsvc"
     && String.eqb (Agent.plat agent) "windows"
  then
    if negb (mem_str (Check.svc_name check) (added_winsvc_checks st))
    then
      let (a1, a2, a3, a4, a5, a6, a7, b1, b2, b3, b4, b5, b6, b7, t) := st in
      Build_LoopState a1 a2 (a3 ++ [Check.svc_name check]) a4 a5 a6 a7
        b1 b2 (if negb (Check.has_agent check) then b3 ++ [check] else b3)
        b4 b5 b6 b7 t
    else if Check.has_agent check then save_overriden check st else st
  else st.

Definition script_block (agent : Agent.t) (check : Check.t)
  (st : LoopState) : LoopState :=
  if String.eqb (Check.check_type check) "script"
     && is_supported_script agent (Script.shell (Check.script check))
  then
    if negb (mem_nat (Script.id (Check.script check))
               (added_script_checks st))
    then
      let (a1, a2, a3, a4, a5, a6, a7, b1, b2, b3, b4, b5, b6, b7, t) := st in
      Build_LoopState a1 a2 a3 (a4 ++ [Script.id (Check.script check)])
        a5 a6 a7
        b1 b2 b3 (if negb (Check.has_agent check) then b4 ++ [check] else b4)
        b5 b6 b7 t
    else if Check.has_agent check then save_overriden check st else st
  else st.

Definition eventlog_block (agent : Agent.t) (check : Check.t)
  (st : LoopState) : LoopState :=
  if String.eqb (Check.check_type check) "eventlog"
     && String.eqb (Agent.plat agent) "windows"
  then
    if negb (mem_event (Check.log_name check, Check.event_id check)
               (added_eventlog_checks st))
    then
      let (a1, a2, a3, a4, a5, a6, a7, b1, b2, b3, b4, b5, b6, b7, t) := st in
      Build_LoopState a1 a2 a3 a4
        (a5 ++ [(Check.log_name check, Check.event_id check)]) a6 a7
        b1 b2 b3 b4
        (if negb (Check.has_agent check) then b5 ++ [check] else b5)
        b6 b7 t
    else if Check.has_agent check then save_overriden check st else st
  else st.

(** The body of [for check in enforced_checks + agent_checks +
    policy_checks]: the seven [if] statements in their order. *)
Definition loop_body (agent : Agent.t) (st : LoopState) (check : Check.t)
  : LoopState :=
  let st := diskspace_block agent check st in
  let st := ping_block check st in
  let st := cpuload_block agent check st in
  let st := memory_block agent check st in
  let st := winsvc_block agent check st in
  let st := script_block agent check st in
  eventlog_block agent check st.

(** The sequence the loop runs over. *)
Definition candidates (table : list Check.t) (agent : Agent.t)
  (policies : AgentPolicies) : list Check.t :=
  let '(enforced_checks, policy_checks) := collected_checks table policies in
  enforced_checks ++ agent_checks table agent ++ policy_checks.

(** The state when the loop ends. *)
Definition loop_result (table : list Check.t) (agent : Agent.t)
  (policies : AgentPolicies) : LoopState :=
  fold_left (loop_body agent) (candidates table agent policies)
    (initial_state table).

Definition final_list_of (st : LoopState) : list Check.t :=
  diskspace_checks st
  ++ ping_checks st
  ++ cpuload_checks st
  ++ memory_checks st
  ++ winsvc_checks st
  ++ script_checks st
  ++ eventlog_checks st.

(** [final_list]: the accepted templates. *)
Definition final_list (table : list Check.t) (agent : Agent.t)
  (policies : AgentPolicies) : list Check.t :=
  final_list_of (loop_result table agent policies).

(** The parent keys of managed checks that are no longer accepted. *)
Definition stale_check_pks (parent_pks : list (option nat))
  (final : list Check.t) : list (option nat) :=
  filter (fun checkpk =>
            negb (mem_opt checkpk
                    (map (fun check => Some (Check.pk check)) final)))
         parent_pks.

(** The [.delete()] of the agent's managed checks whose parent is stale. *)
Definition delete_stale_checks (agent : Agent.t)
  (stale : list (option nat)) (table : list Check.t) : list Check.t :=
  filter (fun row =>
            negb (fk_eqb (Check.agent row) (Some (Agent.pk agent))
                  && Check.managed_by_policy row
                  && fk_in (Check.parent_check row) stale))
         table.

(** [cascade_policy_checks]: the check table after the call and the list
    it returns. *)
Definition cascade_policy_checks (table : list Check.t) (agent : Agent.t)
  (policies : AgentPolicies) : list Check.t * list Check.t :=
  let parent_pks := agent_checks_parent_pks table agent in
  let st := loop_result table agent policies in
  let final := final_list_of st in
  let table :=
    delete_stale_checks agent (stale_check_pks parent_pks final)
      (checks_table st) in
  (table,
   filter (fun check => negb (mem_opt (Some (Check.pk check)) parent_pks))
          final).

(** Modelled from the spec: [Check.create_policy_check] is in
    [checks.models]; by spec sections 4.4 and 6 it instantiates a managed
    check on the agent from the template and links [parent_check] to the
    template.  The new row has never been synced. *)
Definition create_policy_check (template : Check.t) (agent : Agent.t)
  (table : list Check.t) : list Check.t :=
  table
  ++ [Check.mk (fresh_pk Check.pk table) (Some (Agent.pk agent)) None
        (Check.check_type template) true (Some (Check.pk template)) false
        "initial" (Check.disk template) (Check.ip template)
        (Check.svc_name template) (Check.script template)
        (Check.log_name template) (Check.event_id template)].

(** Modelled from the spec: [AutomatedTask.create_policy_task] is in
    [autotasks.models]; the managed task it creates on the agent is linked
    to the template by [parent_task] and has never been synced. *)
Definition create_policy_task (template : AutomatedTask.t) (agent : Agent.t)
  (table : list AutomatedTask.t) : list AutomatedTask.t :=
  table
  ++ [AutomatedTask.mk (fresh_pk AutomatedTask.pk table)
        (Some (Agent.pk agent)) None true
        (Some (AutomatedTask.pk template)) "initial"
        (AutomatedTask.script template)].

(** [generate_policy_checks]: the check table after the call. *)
Definition generate_policy_checks (table : list Check.t) (agent : Agent.t)
  (policies : AgentPolicies) : list Check.t :=
  let '(table, checks) := cascade_policy_checks table agent policies in
  fold_left (fun table check => create_policy_check check agent table)
    checks table.

(** [generate_policy_tasks]: the task table after the call. *)
Definition generate_policy_tasks (table : list AutomatedTask.t)
  (agent : Agent.t) (policies : AgentPolicies) : list AutomatedTask.t :=
  let '(table, tasks) := cascade_policy_tasks table agent policies in
  fold_left (fun table task => create_policy_task task agent table)
    tasks table.

(** *** The loop, by deduplication key

    The seven blocks of the loop are one rule applied at seven types: a
    check that applies to the agent has a key; the first check with a key
    is kept (in its type's list when it is a template), a later one is
    saved as overridden when it is the agent's. *)

Inductive Key :=
| diskspace_key (disk : string)
| ping_key (ip : string)
| cpuload_key
| memory_key
| winsvc_key (svc_name : string)
| script_key (id : nat)
| eventlog_key (log_name : string) (event_id : Z).

Definition Key_eqb (x y : Key) : bool :=
  match x, y with
  | diskspace_key a, diskspace_key b => String.eqb a b
  | ping_key a, ping_key b => String.eqb a b
  | cpuload_key, cpuload_key => true
  | memory_key, memory_key => true
  | winsvc_key a, winsvc_key b => String.eqb a b
  | script_key a, script_key b => a =? b
  | eventlog_key a e, eventlog_key b e' => String.eqb a b && Z.eqb e e'
  | _, _ => false
  end.

Definition mem_key (k : Key) (seen : list Key) : bool :=
  existsb (Key_eqb k) seen.

(** The key of a check on this agent; [None] when no block of the loop
    takes the check. *)
Definition check_key (agent : Agent.t) (check : Check.t) : option Key :=
  let windows := String.eqb (Agent.plat agent) "windows" in
  if String.eqb (Check.check_type check) "diskspace"
  then if windows then Some (diskspace_key (Check.disk check)) else None
  else if String.eqb (Check.check_type check) "ping"
  then Some (ping_key (Check.ip check))
  else if String.eqb (Check.check_type check) "cpuload"
  then if windows then Some cpuload_key else None
  else if String.eqb (Check.check_type check) "memory"
  then if windows then Some memory_key else None
  else if String.eqb (Check.check_type check) "winsvc"
  then if windows then Some (winsvc_key (Check.svc_name check)) else None
  else if String.eqb (Check.check_type check) "script"
  then if is_supported_script agent (Script.shell (Check.script check))
       then Some (script_key (Script.id (Check.script check)))
       else None
  else if String.eqb (Check.check_type check) "eventlog"
  then if windows
       then Some (eventlog_key (Check.log_name check) (Check.event_id check))
       else None
  else None.

(** Whether the [added_*] lists of the state hold the key. *)
Definition seen_key (st : LoopState) (k : Key) : bool :=
  match k with
  | diskspace_key d => mem_str d (added_diskspace_checks st)
  | ping_key i => mem_str i (added_ping_checks st)
  | cpuload_key =>
      match added_cpuload_checks st with [] => false | _ => true end
  | memory_key =>
      match added_memory_checks st with [] => false | _ => true end
  | winsvc_key n => mem_str n (added_winsvc_checks st)
  | script_key i => mem_nat i (added_script_checks st)
  | eventlog_key l e => mem_event (l, e) (added_eventlog_checks st)
  end.

(** The types in the order of [final_list]. *)
Definition check_types : list string :=
  ["diskspace"; "ping"; "cpuload"; "memory"; "winsvc"; "script"; "eventlog"]
  %string.

Definition of_type (ty : string) (l : list Check.t) : list Check.t :=
  filter (fun check => String.eqb (Check.check_type check) ty) l.

Definition split_by_type (l : list Check.t) : list (list Check.t) :=
  map (fun ty => of_type ty l) check_types.

(** The seven result lists of the state, in the order of [final_list]. *)
Definition buckets (st : LoopState) : list (list Check.t) :=
  [diskspace_checks st; ping_checks st; cpuload_checks st; memory_checks st;
   winsvc_checks st; script_checks st; eventlog_checks st].

Definition append_buckets (b1 b2 : list (list Check.t))
  : list (list Check.t) :=
  map (fun p => fst p ++ snd p) (combine b1 b2).

(** The templates the rule keeps from a sequence, in the order of the
    sequence: those that come first with their key. *)
Fixpoint first_templates (agent : Agent.t) (seen : list Key)
  (l : list Check.t) : list Check.t :=
  match l with
  | [] => []
  | check :: l' =>
      match check_key agent check with
      | None => first_templates agent seen l'
      | Some k =>
          if mem_key k seen
          then first_templates agent seen l'
          else (if Check.has_agent check then [] else [check])
               ++ first_templates agent (k :: seen) l'
      end
  end.

(** The checks the rule saves as overridden, in the order of the
    sequence: the agent's checks that come after a check with their
    key. *)
Fixpoint overridden_checks (agent : Agent.t) (seen : list Key)
  (l : list Check.t) : list Check.t :=
  match l with
  | [] => []
  | check :: l' =>
      match check_key agent check with
      | None => overridden_checks agent seen l'
      | Some k =>
          if mem_key k seen
          then (if Check.has_agent check then [check] else [])
               ++ overridden_checks agent seen l'
          else overridden_checks agent (k :: seen) l'
      end
  end.

(** The four levels in the order the blocks visit them. *)
Definition policy_levels (policies : AgentPolicies) : list (option t) :=
  [agent_policy policies; site_policy policies; client_policy policies;
   default_policy policies].

(** The checks of the policy at a level when the policy is there and
    [sel] holds of it. *)
Definition checks_where (sel : t -> bool) (table : list Check.t)
  (policy : option t) : list Check.t :=
  match policy with
  | Some pol => if sel pol then policychecks table pol else []
  | None => []
  end.

(** The test of the [.delete()] at the end of [cascade_policy_checks]. *)
Definition is_stale_check (agent : Agent.t) (stale : list (option nat))
  (row : Check.t) : bool :=
  fk_eqb (Check.agent row) (Some (Agent.pk agent))
  && Check.managed_by_policy row
  && fk_in (Check.parent_check row) stale.

(** Primary keys are unique, and a template row (a row of a policy) has no
    agent. *)
Definition check_rows_ok (table : list Check.t) : Prop :=
  NoDup (map Check.pk table)
  /\ forall row, In row table -> Check.policy row <> None ->
                 Check.agent row = None.

Definition task_rows_ok (table : list AutomatedTask.t) : Prop :=
  NoDup (map AutomatedTask.pk table)
  /\ forall row, In row table -> AutomatedTask.policy row <> None ->
                 AutomatedTask.agent row = None.

(** What [cascade_policy_checks] makes of a row of the table: the loop
    saves it as overridden when it is in [overridden], then it is deleted
    when it is stale. *)
Definition cascaded_check (overridden : list Check.t) (agent : Agent.t)
  (stale : list (option nat)) (row : Check.t) : option Check.t :=
  let row' :=
    if mem_nat (Check.pk row) (map Check.pk overridden)
    then Check.set_overriden_by_policy row true
    else row in
  if is_stale_check agent stale row' then None else Some row'.

(** What [cascade_policy_tasks] makes of a row of the table: retired when
    it is in the queryset of the retiring loop, then revived. *)
Definition cascaded_task (parent_pks : list (option nat)) (agent : Agent.t)
  (tasks : list AutomatedTask.t) (row : AutomatedTask.t)
  : option AutomatedTask.t :=
  option_map (revive_task agent tasks)
    (if in_retire_queryset parent_pks agent tasks row
     then retired_task row
     else Some row).

(** The instance [check.save()] writes for an overridden check. *)
Definition overriden_instance (check : Check.t) : option Check.t :=
  Some (Check.set_overriden_by_policy check true).

End Cascade.
End Policy.

(** ** Sample data *)

Module Sample.

(** A policy that excludes agent 10 and is assigned to site 5, the site of
    agent 10. *)
Definition policy_excluding_agent : Policy.t :=
  Policy.mk (Some 1) "P" None true false None [] [] [10].

Definition agent10 : Agent.t := Agent.mk 10 "windows" server false 5 None.

Definition db_site_assigned : Tables :=
  {| agents := [agent10];
     sites := [Site.mk 5 7 false (Some 1) None];
     clients := [Client.mk 7 None None] |}.

(** A policy that excludes site 5 and is assigned to client 7, the client
    of site 5. *)
Definition policy_excluding_site : Policy.t :=
  Policy.mk (Some 1) "P" None true false None [5] [] [].

Definition db_client_assigned : Tables :=
  {| agents := [agent10];
     sites := [Site.mk 5 7 false None None];
     clients := [Client.mk 7 (Some 1) None] |}.

(** Site 5 blocks inheritance and is itself assigned policy 1. *)
Definition policy_plain : Policy.t :=
  Policy.mk (Some 1) "P" None true false None [] [] [].


(** Agent 11 blocks inheritance and is assigned policy 1 itself. *)
Definition agent11 : Agent.t :=
  Agent.mk 11 "windows" server true 5 (Some 1).

Definition db_blocking_agent : Tables :=
  {| agents := [agent11];
     sites := [Site.mk 5 7 true None None];
     clients := [Client.mk 7 (Some 1) None] |}.

(** A stored policy saved again with [active] flipped. *)
Definition policy_row : Policy.t :=
  Policy.mk (Some 1) "P" None false false None [] [] [].

Definition policy_row_activated : Policy.t :=
  Policy.mk (Some 1) "P" None true false None [] [] [].

(** An agent method that supports every shell, and one that supports
    none. *)
Definition supports_all (agent : Agent.t) (shell : string) : bool := true.
Definition supports_none (agent : Agent.t) (shell : string) : bool := false.

Definition powershell : Script.t := Script.mk 1 "powershell".

Definition no_policies : Policy.AgentPolicies :=
  {| Policy.agent_policy := None;
     Policy.site_policy := None;
     Policy.client_policy := None;
     Policy.default_policy := None |}.

(** Policy 1 at the site level. *)
Definition site_level_policy : Policy.AgentPolicies :=
  {| Policy.agent_policy := None;
     Policy.site_policy := Some policy_plain;
     Policy.client_policy := None;
     Policy.default_policy := None |}.

Definition policy_two : Policy.t :=
  Policy.mk (Some 2) "Q" None true false None [] [] [].

(** Policy 1 at the site level and policy 2 at the client level, neither
    enforced. *)
Definition two_policies : Policy.AgentPolicies :=
  {| Policy.agent_policy := None;
     Policy.site_policy := Some policy_plain;
     Policy.client_policy := Some policy_two;
     Policy.default_policy := None |}.

(** Policy 1 enforced at the site level, policy 2 at the client level. *)
Definition policy_enforced : Policy.t :=
  Policy.mk (Some 1) "P" None true true None [] [] [].

Definition enforced_and_plain : Policy.AgentPolicies :=
  {| Policy.agent_policy := None;
     Policy.site_policy := Some policy_enforced;
     Policy.client_policy := Some policy_two;
     Policy.default_policy := None |}.

Definition ping_check (pk : nat) (agent policy : option nat)
  (managed : bool) (parent : option nat) (sync : string) (ip : string)
  : Check.t :=
  Check.mk pk agent policy "ping" managed parent false sync "" ip ""
    powershell "" 0%Z.

Definition disk_check (pk : nat) (agent policy : option nat)
  (managed : bool) (parent : option nat) (disk : string) : Check.t :=
  Check.mk pk agent policy "diskspace" managed parent false "initial" disk
    "" "" powershell "" 0%Z.

(** A managed check of agent 10 that was synced; its template 9 is gone. *)
Definition synced_check : Check.t :=
  ping_check 1 (Some 10) None true (Some 9) "synced" "8.8.8.8".

(** A template of policy 1 and the managed check made from it, pending
    deletion. *)
Definition ping_template : Check.t :=
  ping_check 9 None (Some 1) false None "initial" "8.8.8.8".

Definition pending_check : Check.t :=
  ping_check 1 (Some 10) None true (Some 9) "pendingdeletion" "8.8.8.8".

(** A direct check of agent 10 for drive C: and a template for drive C: in
    each of the policies 1 and 2. *)
Definition direct_disk : Check.t := disk_check 1 (Some 10) None false None "C:".
Definition disk_template_one : Check.t :=
  disk_check 2 None (Some 1) false None "C:".
Definition disk_template_two : Check.t :=
  disk_check 3 None (Some 2) false None "C:".

Definition disk_table : list Check.t :=
  [direct_disk; disk_template_one; disk_template_two].

(** Two managed tasks of agent 10 whose templates are gone: one synced,
    one never synced. *)
Definition synced_task : AutomatedTask.t :=
  AutomatedTask.mk 1 (Some 10) None true (Some 9) "synced" powershell.

Definition initial_task : AutomatedTask.t :=
  AutomatedTask.mk 2 (Some 10) None true (Some 8) "initial" powershell.

(** A task template of policy 1 and the managed task made from it,
    pending deletion. *)
Definition task_template : AutomatedTask.t :=
  AutomatedTask.mk 9 None (Some 1) false None "initial" powershell.

Definition pending_task : AutomatedTask.t :=
  AutomatedTask.mk 1 (Some 10) None true (Some 9) "pendingdeletion"
    powershell.

(** A linux agent. *)
Definition linux_agent : Agent.t := Agent.mk 12 "linux" server false 5 None.

(** A policy that excludes client 7, and a policy that nothing is
    assigned. *)
Definition policy_excluding_client : Policy.t :=
  Policy.mk (Some 1) "P" None true false None [] [7] [].

Definition policy_unassigned : Policy.t :=
  Policy.mk (Some 3) "R" None true false None [] [] [].

(** Site 5 blocks inheritance; the site and its client 7 are both
    assigned policy 1. *)
Definition db_site_and_client : Tables :=
  {| agents := [agent10; agent11];
     sites := [Site.mk 5 7 true (Some 1) None];
     clients := [Client.mk 7 (Some 1) None] |}.


(** A pending-deletion task of agent 10 that points at template 9 and is
    not managed by policy. *)
Definition unmanaged_pending_task : AutomatedTask.t :=
  AutomatedTask.mk 1 (Some 10) None false (Some 9) "pendingdeletion"
    powershell.

(** Two ping templates of policy 1, the managed check of agent 10 made
    from the first one, and a direct ping check of agent 10. *)
Definition gateway_template : Check.t :=
  ping_check 8 None (Some 1) false None "initial" "10.0.0.1".

Definition direct_ping : Check.t :=
  ping_check 2 (Some 10) None false None "synced" "1.1.1.1".

Definition materialized_table : list Check.t :=
  [ping_template; gateway_template; synced_check; direct_ping].

End Sample.

(** * Properties *)

(** ** Membership tests *)

Lemma mem_nat_In x l : mem_nat x l = true <-> In x l.
Proof.
  unfold mem_nat. rewrite existsb_exists. split.
  - intros [y [Hy E]]. apply Nat.eqb_eq in E. now subst.
  - intros H. exists x. split; [assumption | apply Nat.eqb_refl].
Qed.

Lemma mem_nat_false x l : mem_nat x l = false <-> ~ In x l.
Proof.
  rewrite <- mem_nat_In. destruct (mem_nat x l); split; congruence.
Qed.

Lemma mem_str_In x l : mem_str x l = true <-> In x l.
Proof.
  unfold mem_str. rewrite existsb_exists. split.
  - intros [y [Hy E]]. apply String.eqb_eq in E. now subst.
  - intros H. exists x. split; [assumption | apply String.eqb_refl].
Qed.

Lemma opt_eqb_eq x y : opt_eqb x y = true <-> x = y.
Proof.
  destruct x as [a|], y as [b|]; simpl; try (split; congruence).
  rewrite Nat.eqb_eq. split; congruence.
Qed.

Lemma mem_opt_In x l : mem_opt x l = true <-> In x l.
Proof.
  unfold mem_opt. rewrite existsb_exists. split.
  - intros [y [Hy E]]. apply opt_eqb_eq in E. now subst.
  - intros H. exists x. split; [assumption | now apply opt_eqb_eq].
Qed.

Lemma fk_eqb_Some x p : fk_eqb x (Some p) = true <-> x = Some p.
Proof.
  destruct x as [a|]; simpl; [|split; congruence].
  rewrite Nat.eqb_eq. split; congruence.
Qed.

Lemma fk_in_Some p l : fk_in (Some p) l = true <-> In (Some p) l.
Proof.
  unfold fk_in. rewrite existsb_exists. split.
  - intros [y [Hy E]]. destruct y as [b|]; simpl in E; [|discriminate].
    apply Nat.eqb_eq in E. now subst.
  - intros H. exists (Some p). split; [assumption | apply Nat.eqb_refl].
Qed.

Lemma fk_in_None l : fk_in None l = false.
Proof. unfold fk_in. induction l; simpl; auto. Qed.


Lemma In_map_pk {A} (f : A -> nat) (x : A) (l : list A) :
  In x l -> mem_nat (f x) (map f l) = true.
Proof. intros H. apply mem_nat_In. now apply in_map. Qed.

(** ** Scope resolution *)

Lemma site_of_Some db a s :
  Policy.site_of db a = Some s -> In s (sites db) /\ Site.pk s = Agent.site a.
Proof.
  unfold Policy.site_of. intros H. apply find_some in H.
  destruct H as [Hin E]. apply Nat.eqb_eq in E. now split.
Qed.


Lemma NoDup_map_inj {A B} (f : A -> B) (l : list A) (x y : A) :
  NoDup (map f l) -> In x l -> In y l -> f x = f y -> x = y.
Proof.
  induction l as [|z l IH]; simpl; [tauto|].
  intros Hnd Hx Hy E. inversion Hnd as [|? ? Hnotin Hnd']; subst.
  destruct Hx as [->|Hx], Hy as [->|Hy]; auto.
  - exfalso. apply Hnotin. rewrite E. now apply in_map.
  - exfalso. apply Hnotin. rewrite <- E. now apply in_map.
Qed.

Lemma site_of_unique db a s s' :
  NoDup (map Site.pk (sites db)) ->
  Policy.site_of db a = Some s ->
  In s' (sites db) -> Site.pk s' = Agent.site a -> s' = s.
Proof.
  intros Hnd Hs Hin E. apply site_of_Some in Hs. destruct Hs as [Hs Es].
  apply (NoDup_map_inj Site.pk (sites db)); auto. congruence.
Qed.




Lemma get_related_inv db P mt a :
  In a (Policy.get_related db P mt) ->
  In a (agents db)
  /\ (In (Agent.pk a) (Policy.site_inherited_pks db P mt)
      \/ In (Agent.pk a) (Policy.client_inherited_pks db P mt)
      \/ In (Agent.pk a) (map Agent.pk (Policy.explicit_agents db P mt))).
Proof.
  unfold Policy.get_related. rewrite filter_In. intros [Ha H].
  split; [assumption|]. apply orb_true_iff in H.
  destruct H as [H|H]; apply mem_nat_In in H.
  - apply in_app_or in H. tauto.
  - tauto.
Qed.

Lemma explicit_agents_by_pk db P mt a :
  NoDup (map Agent.pk (agents db)) ->
  In a (agents db) ->
  In (Agent.pk a) (map Agent.pk (Policy.explicit_agents db P mt)) ->
  In a (Policy.explicit_agents db P mt).
Proof.
  intros Hnd Ha Hin. apply in_map_iff in Hin. destruct Hin as [b [E Hb]].
  assert (In b (agents db)).
  { unfold Policy.explicit_agents, Policy.policy_agents in Hb.
    rewrite !filter_In in Hb. tauto. }
  assert (b = a) by (apply (NoDup_map_inj Agent.pk (agents db)); auto).
  now subst b.
Qed.




(** X3. With unique keys, an agent whose client the policy excludes is
    not in the scope, on any of the three paths. *)
Lemma excluded_client_out_of_scope (db : Tables) (P : Policy.t)
  (mt : MonType) (A : Agent.t) (c : nat) :
  unique_pks db ->
  Policy.client_of db A = Some c ->
  In c (Policy.excluded_clients P) ->
  ~ In A (Policy.get_related db P mt).
Proof.
  intros [Hna [Hns _]] Hc Hex Hin. apply get_related_inv in Hin.
  destruct Hin as [Ha H].
  unfold Policy.client_of in Hc.
  destruct (Policy.site_of db A) as [s|] eqn:Hs; [|discriminate].
  simpl in Hc. injection Hc as <-.
  destruct H as [H|[H|H]].
  - unfold Policy.site_inherited_pks in H.
    apply in_map_iff in H. destruct H as [b [E H]].
    rewrite !filter_In in H. destruct H as [[Hb _] H].
    assert (b = A) by (apply (NoDup_map_inj Agent.pk (agents db)); auto).
    subst b. apply andb_true_iff in H. destruct H as [H _].
    apply mem_nat_In, in_map_iff in H. destruct H as [s' [Es H]].
    apply filter_In in H. destruct H as [Hs' H].
    assert (s' = s).
    { apply (site_of_unique db A); auto.
      unfold Policy.explicit_sites, Policy.mon_type_sites in Hs'.
      rewrite !filter_In in Hs'. tauto. }
    subst s'. apply andb_true_iff in H. destruct H as [_ H].
    apply negb_true_iff, mem_nat_false in H. contradiction.
  - unfold Policy.client_inherited_pks in H.
    apply in_map_iff in H. destruct H as [b [E H]].
    rewrite !filter_In in H. destruct H as [[[Hb _] _] H].
    assert (b = A) by (apply (NoDup_map_inj Agent.pk (agents db)); auto).
    subst b. unfold Policy.client_of in H. rewrite Hs in H. simpl in H.
    apply andb_true_iff in H. destruct H as [H _].
    apply mem_nat_In, in_map_iff in H. destruct H as [cl [Ec H]].
    unfold Policy.explicit_clients in H. apply filter_In in H.
    destruct H as [_ H]. apply negb_true_iff, mem_nat_false in H.
    rewrite Ec in H. contradiction.
  - apply explicit_agents_by_pk in H; auto.
    unfold Policy.explicit_agents in H. rewrite !filter_In in H.
    destruct H as [_ H]. unfold Policy.client_of in H. rewrite Hs in H.
    simpl in H. apply negb_true_iff, mem_nat_false in H. contradiction.
Qed.

(** Exclusion wins on the path of direct assignment. *)
Lemma excluded_not_explicit (db : Tables) (P : Policy.t) (mt : MonType)
  (A : Agent.t) :
  Policy.is_agent_excluded db P A = true ->
  ~ In A (Policy.explicit_agents db P mt).
Proof.
  unfold Policy.is_agent_excluded, Policy.explicit_agents.
  rewrite !filter_In. intros Hex [[[_ H1] H2] H3].
  apply negb_true_iff in H1, H2, H3. rewrite H1, H2, H3 in Hex.
  discriminate.
Qed.

(** C1. The exclusion sets do not win on the inherited paths of
    [get_related]: agent 10 is excluded by the policy and still in its
    scope, through the site the policy is assigned to; and agent 10,
    whose site is excluded, is in the scope through the client the policy
    is assigned to. *)
Theorem C1_excluded_agent_in_scope :
  (Policy.is_agent_excluded Sample.db_site_assigned
     Sample.policy_excluding_agent Sample.agent10 = true
   /\ In Sample.agent10
        (Policy.get_related Sample.db_site_assigned
           Sample.policy_excluding_agent server))
  /\ (Policy.is_agent_excluded Sample.db_client_assigned
        Sample.policy_excluding_site Sample.agent10 = true
      /\ In Sample.agent10
           (Policy.get_related Sample.db_client_assigned
              Sample.policy_excluding_site server)).
Proof. repeat split; simpl; auto. Qed.

(** ** Saving a policy *)

Lemma super_save_keeps_columns table self old table' self' :
  Policy.super_save table self old = (table', self') ->
  Policy.active self' = Policy.active self
  /\ Policy.enforced self' = Policy.enforced self
  /\ Policy.alert_template self' = Policy.alert_template self.
Proof.
  unfold Policy.super_save. destruct (Policy.pk self) as [p|].
  - destruct (existsb _ table); intros [= <- <-]; auto.
  - intros [= <- <-]. simpl. auto.
Qed.

Lemma eqb_false_neq (a b : bool) : negb (Bool.eqb a b) = true -> a <> b.
Proof. destruct a, b; simpl; congruence. Qed.

(** C10. Saving a policy that has no primary key succeeds and puts no job
    on the queue, whatever its columns are.  When a save does put
    [generate_agent_checks_task] on the queue, the policy was stored
    before and its [active] or [enforced] column differs from the stored
    one; when it puts [cache_agents_alert_template] on the queue, the
    policy was stored before and its [alert_template] differs from the
    stored one. *)
Theorem C10_new_policy_enqueues_nothing (table : list Policy.t)
  (self : Policy.t) :
  (Policy.pk self = None ->
   exists table' self', Policy.save table self = Ok (table', self', []))
  /\ (forall table' self' jobs,
        Policy.save table self = Ok (table', self', jobs) ->
        (forall p a c,
           In (generate_agent_checks_task p a c) jobs ->
           exists old,
             Policy.objects_get table (Policy.pk self) = Some old
             /\ (Policy.active old <> Policy.active self
                 \/ Policy.enforced old <> Policy.enforced self))
        /\ (In cache_agents_alert_template jobs ->
            exists old,
              Policy.objects_get table (Policy.pk self) = Some old
              /\ Policy.alert_template old <> Policy.alert_template self)).
Proof.
  split.
  - intros Hpk. unfold Policy.save. rewrite Hpk. simpl.
    destruct (Policy.super_save table self None) as [table' self'].
    now exists table', self'.
  - intros table' self' jobs. unfold Policy.save.
    destruct (Policy.pk_truthy (Policy.pk self)).
    + destruct (Policy.objects_get table (Policy.pk self)) as [old|];
        [|discriminate].
      destruct (Policy.super_save table self (Some old)) as [t1 s1] eqn:Hs.
      apply super_save_keeps_columns in Hs. destruct Hs as [Ea [Ee Et]].
      intros [= <- <- <-]. rewrite Ea, Ee, Et. split.
      * intros p a c Hin. exists old. split; [reflexivity|].
        apply in_app_or in Hin. destruct Hin as [Hin|Hin].
        -- destruct (negb (Bool.eqb (Policy.active old) (Policy.active self)))
             eqn:H1.
           ++ left. now apply eqb_false_neq.
           ++ destruct (negb (Bool.eqb (Policy.enforced old)
                                (Policy.enforced self))) eqn:H2.
              ** right. now apply eqb_false_neq.
              ** simpl in Hin. contradiction.
        -- destruct (negb (opt_eqb _ _)); simpl in Hin;
             [destruct Hin as [Hin|[]]; discriminate | contradiction].
      * intros Hin. exists old. split; [reflexivity|].
        apply in_app_or in Hin. destruct Hin as [Hin|Hin].
        -- destruct (_ || _); simpl in Hin;
             [destruct Hin as [Hin|[]]; discriminate | contradiction].
        -- destruct (opt_eqb (Policy.alert_template old)
                       (Policy.alert_template self)) eqn:H1;
             simpl in Hin; [contradiction|].
           intros E. apply opt_eqb_eq in E. congruence.
    + destruct (Policy.super_save table self None) as [t1 s1].
      intros [= <- <- <-]. split; [intros p a c []| intros []].
Qed.

(** C10 at a policy without a primary key saved into an empty table, and
    at a stored policy saved again with [active] flipped. *)
Lemma C10_witness :
  (exists table' self',
     Policy.save [] (Policy.set_pk Sample.policy_row_activated None)
     = Ok (table', self', []))
  /\ exists old,
       Policy.objects_get [Sample.policy_row]
         (Policy.pk Sample.policy_row_activated) = Some old
       /\ (Policy.active old <> Policy.active Sample.policy_row_activated
           \/ Policy.enforced old
              <> Policy.enforced Sample.policy_row_activated).
Proof.
  split.
  - apply (proj1 (C10_new_policy_enqueues_nothing []
                    (Policy.set_pk Sample.policy_row_activated None))).
    reflexivity.
  - apply (proj1 (proj2 (C10_new_policy_enqueues_nothing [Sample.policy_row]
                           Sample.policy_row_activated)
                    [Sample.policy_row_activated] Sample.policy_row_activated
                    [generate_agent_checks_task (Some 1) None true]
                    eq_refl) (Some 1) None true).
    simpl. auto.
Defined.

(** ** Writes to a table with unique primary keys *)

Section FilterMapFacts.

Context {Row : Type}.

Lemma filter_map_ext_in (f g : Row -> option Row) (l : list Row) :
  (forall r, In r l -> f r = g r) -> filter_map f l = filter_map g l.
Proof.
  induction l as [|r l IH]; simpl; intros H; [reflexivity|].
  rewrite <- (H r) by auto. rewrite IH by auto. reflexivity.
Qed.

Lemma filter_map_Some (l : list Row) : filter_map Some l = l.
Proof. induction l; simpl; congruence. Qed.

Lemma in_filter_map (f : Row -> option Row) (l : list Row) (r' : Row) :
  In r' (filter_map f l) <-> exists r, In r l /\ f r = Some r'.
Proof.
  induction l as [|x l IH]; simpl.
  - split; [tauto | intros [r [[] _]]].
  - destruct (f x) as [x'|] eqn:E; simpl; rewrite IH; split.
    + intros [<-|[r [H1 H2]]]; [exists x | exists r]; auto.
    + intros [r [[<-|H1] H2]]; [left; congruence | right; exists r; auto].
    + intros [r [H1 H2]]. exists r; auto.
    + intros [r [[<-|H1] H2]]; [congruence | exists r; auto].
Qed.

Lemma filter_filter_map (p : Row -> bool) (f : Row -> option Row) l :
  filter p (filter_map f l)
  = filter_map (fun r => match f r with
                         | Some r' => if p r' then Some r' else None
                         | None => None
                         end) l.
Proof.
  induction l as [|x l IH]; simpl; [reflexivity|].
  destruct (f x) as [x'|]; simpl; [|assumption].
  destruct (p x'); simpl; congruence.
Qed.

Lemma map_filter_map (m : Row -> Row) (f : Row -> option Row) l :
  map m (filter_map f l) = filter_map (fun r => option_map m (f r)) l.
Proof.
  induction l as [|x l IH]; simpl; [reflexivity|].
  destruct (f x) as [x'|]; simpl; congruence.
Qed.

Lemma filter_filter_map_keep (p : Row -> bool) (g : Row -> option Row)
  (table : list Row) :
  (forall r, In r table -> p r = true -> g r = Some r) ->
  (forall r r', In r table -> g r = Some r' -> p r' = p r) ->
  filter p (filter_map g table) = filter p table.
Proof.
  induction table as [|x l IH]; simpl; intros H1 H2; [reflexivity|].
  destruct (p x) eqn:Ep.
  - rewrite (H1 x) by auto. simpl. rewrite Ep. rewrite IH; auto.
  - destruct (g x) as [x'|] eqn:Eg; simpl.
    + rewrite (H2 x x') by auto. rewrite Ep. apply IH; auto.
    + apply IH; auto.
Qed.

End FilterMapFacts.

Section RowStoreFacts.

Context {Row : Type}.
Variable pk : Row -> nat.

Lemma existsb_pk (p : nat) (l : list Row) :
  existsb (fun r => pk r =? p) l = true <-> In p (map pk l).
Proof.
  rewrite existsb_exists, in_map_iff. split.
  - intros [r [H E]]. apply Nat.eqb_eq in E. now exists r.
  - intros [r [E H]]. exists r. split; [assumption | now apply Nat.eqb_eq].
Qed.

(** A write per row of a queryset: [f] gives the row to save, or [None]
    to delete. *)
Variable f : Row -> option Row.
Hypothesis f_pk : forall r r', f r = Some r' -> pk r' = pk r.

Local Abbreviation write := (write_row pk f).
Local Abbreviation fate := (row_fate pk f).

Lemma fate_snoc queryset c r :
  fate (queryset ++ [c]) r
  = if pk r =? pk c then f r else fate queryset r.
Proof.
  unfold row_fate. rewrite map_app. unfold mem_nat. rewrite existsb_app.
  simpl. rewrite orb_false_r.
  destruct (pk r =? pk c); [now rewrite orb_true_r | now rewrite orb_false_r].
Qed.

Lemma fate_pk queryset r r' : fate queryset r = Some r' -> pk r' = pk r.
Proof.
  unfold row_fate. destruct (mem_nat _ _); [apply f_pk | congruence].
Qed.

(** Running the writes over a queryset taken from the table leaves each
    row of the table to its fate. *)
Lemma fold_writes (table : list Row) :
  NoDup (map pk table) ->
  forall queryset,
    incl queryset table ->
    fold_left write queryset table = filter_map (fate queryset) table.
Proof.
  intros Hnd queryset. induction queryset as [|c queryset IH] using rev_ind.
  - intros _. simpl. unfold row_fate. simpl. symmetry. apply filter_map_Some.
  - intros Hincl. rewrite fold_left_app. simpl.
    assert (Hc : In c table) by (apply Hincl, in_or_app; simpl; auto).
    rewrite IH by (intros x Hx; apply Hincl, in_or_app; auto).
    unfold write_row. destruct (f c) as [c'|] eqn:Hfc.
    + assert (Epk : pk c' = pk c) by now apply f_pk.
      unfold save_row.
      assert (Hex : existsb (fun r => pk r =? pk c')
                      (filter_map (fate queryset) table) = true).
      { apply existsb_pk.
        destruct (fate queryset c) as [c0|] eqn:Hf0.
        - apply in_map_iff. exists c0. split.
          + apply fate_pk in Hf0. congruence.
          + apply in_filter_map. now exists c.
        - unfold row_fate in Hf0. destruct (mem_nat _ _); congruence. }
      rewrite Hex, map_filter_map. apply filter_map_ext_in.
      intros r Hr. rewrite fate_snoc.
      destruct (fate queryset r) as [r0|] eqn:Hf0; simpl.
      * rewrite (fate_pk _ _ _ Hf0), Epk.
        destruct (pk r =? pk c) eqn:E; [|reflexivity].
        apply Nat.eqb_eq in E.
        assert (r = c) by (apply (NoDup_map_inj pk table); auto).
        subst r. now rewrite Hfc.
      * destruct (pk r =? pk c) eqn:E; [|reflexivity].
        apply Nat.eqb_eq in E.
        assert (r = c) by (apply (NoDup_map_inj pk table); auto).
        subst r. unfold row_fate in Hf0.
        destruct (mem_nat _ _); congruence.
    + unfold delete_row. rewrite filter_filter_map.
      apply filter_map_ext_in. intros r Hr. rewrite fate_snoc.
      destruct (fate queryset r) as [r0|] eqn:Hf0; simpl.
      * rewrite (fate_pk _ _ _ Hf0).
        destruct (pk r =? pk c) eqn:E; simpl; [|reflexivity].
        apply Nat.eqb_eq in E.
        assert (r = c) by (apply (NoDup_map_inj pk table); auto).
        subst r. now rewrite Hfc.
      * destruct (pk r =? pk c) eqn:E; [|reflexivity].
        apply Nat.eqb_eq in E.
        assert (r = c) by (apply (NoDup_map_inj pk table); auto).
        subst r. now rewrite Hfc.
Qed.

Lemma mem_queryset (c : Row -> bool) (table : list Row) (r : Row) :
  NoDup (map pk table) -> In r table ->
  mem_nat (pk r) (map pk (filter c table)) = c r.
Proof.
  intros Hnd Hr. destruct (c r) eqn:E.
  - apply mem_nat_In, in_map, filter_In. now split.
  - apply mem_nat_false. intros H. apply in_map_iff in H.
    destruct H as [q [Epk Hq]]. apply filter_In in Hq.
    destruct Hq as [Hq Hc].
    assert (q = r) by (apply (NoDup_map_inj pk table); auto).
    subst q. congruence.
Qed.

Lemma NoDup_filter_map (g : Row -> option Row) (table : list Row) :
  (forall r r', In r table -> g r = Some r' -> pk r' = pk r) ->
  NoDup (map pk table) -> NoDup (map pk (filter_map g table)).
Proof.
  induction table as [|x l IH]; simpl; intros Hg Hnd; [constructor|].
  inversion Hnd as [|? ? Hx Hl]; subst.
  destruct (g x) as [x'|] eqn:E; simpl; [|apply IH; auto].
  constructor; [|apply IH; auto].
  intros H. apply in_map_iff in H. destruct H as [y' [Ey Hy]].
  apply in_filter_map in Hy. destruct Hy as [y [Hy Egy]].
  apply Hx. apply in_map_iff. exists y. split; [|assumption].
  rewrite <- (Hg y y') by auto. rewrite Ey. apply Hg with (r := x); auto.
Qed.

Lemma fresh_pk_above (table : list Row) (r : Row) :
  In r table -> pk r < fresh_pk pk table.
Proof.
  unfold fresh_pk. induction table as [|x l IH]; simpl; [tauto|].
  intros [->|H]; [lia|]. specialize (IH H). lia.
Qed.

Lemma fresh_pk_new (table : list Row) : ~ In (fresh_pk pk table) (map pk table).
Proof.
  intros H. apply in_map_iff in H. destruct H as [r [E H]].
  apply fresh_pk_above in H. lia.
Qed.

End RowStoreFacts.

(** ** Lists *)

Lemma fold_left_ext {A B} (f g : A -> B -> A) :
  (forall a b, f a b = g a b) ->
  forall l a, fold_left f l a = fold_left g l a.
Proof.
  intros H l. induction l as [|b l IH]; simpl; intros a; [reflexivity|].
  now rewrite H, IH.
Qed.

Lemma filter_filter {A} (p q : A -> bool) (l : list A) :
  filter p (filter q l) = filter (fun x => q x && p x) l.
Proof.
  induction l as [|x l IH]; simpl; [reflexivity|].
  destruct (q x); simpl; [destruct (p x)|]; now rewrite IH.
Qed.

(** ** The task cascade *)

Section TaskCascade.

Variable is_supported_script : Agent.t -> string -> bool.

Local Abbreviation accepted := (Policy.accepted_tasks is_supported_script).
Local Abbreviation cascade := (Policy.cascade_policy_tasks is_supported_script).

Lemma retire_task_write table task :
  Policy.retire_task table task
  = write_row AutomatedTask.pk Policy.retired_task table task.
Proof.
  unfold Policy.retire_task, write_row, Policy.retired_task.
  now destruct (String.eqb _ _).
Qed.

Lemma retired_task_pk r r' :
  Policy.retired_task r = Some r' -> AutomatedTask.pk r' = AutomatedTask.pk r.
Proof.
  unfold Policy.retired_task. destruct (String.eqb _ _); [discriminate|].
  now intros [= <-].
Qed.

(** The task table after [cascade_policy_tasks], row by row. *)
Lemma cascade_policy_tasks_table table agent policies :
  NoDup (map AutomatedTask.pk table) ->
  fst (cascade table agent policies)
  = filter_map
      (fun row =>
         option_map (Policy.revive_task agent (accepted table agent policies))
           (if Policy.in_retire_queryset
                 (Policy.agent_tasks_parent_pks table agent) agent
                 (accepted table agent policies) row
            then Policy.retired_task row
            else Some row))
      table.
Proof.
  intros Hnd. unfold Policy.cascade_policy_tasks. simpl.
  unfold Policy.revive_tasks.
  rewrite (fold_left_ext _ _ retire_task_write).
  rewrite (fold_writes _ _ retired_task_pk) by
    (auto; intros x Hx; apply filter_In in Hx; destruct Hx as [Hx _];
     unfold Policy.agent_autotasks in Hx; apply filter_In in Hx; tauto).
  rewrite map_filter_map. apply filter_map_ext_in. intros r Hr.
  f_equal. unfold row_fate, Policy.agent_autotasks.
  rewrite filter_filter.
  rewrite mem_queryset by assumption. reflexivity.
Qed.

Lemma In_Some_pk (p : nat) (tasks : list AutomatedTask.t) :
  In (Some p) (map (fun task => Some (AutomatedTask.pk task)) tasks)
  <-> In p (map AutomatedTask.pk tasks).
Proof.
  rewrite !in_map_iff. split; intros [t [E H]]; exists t; split; congruence.
Qed.

Lemma stale_task_pks_In parent_pks tasks p :
  In (Some p) (Policy.stale_task_pks parent_pks tasks)
  <-> In (Some p) parent_pks /\ ~ In p (map AutomatedTask.pk tasks).
Proof.
  unfold Policy.stale_task_pks. rewrite filter_In, negb_true_iff.
  rewrite <- In_Some_pk.
  rewrite <- (mem_opt_In (Some p) (map _ tasks)).
  destruct (mem_opt (Some p) (map _ tasks));
    split; intros [H1 H2]; split; congruence.
Qed.

Lemma in_retire_queryset_stale table agent policies task p :
  In task (Policy.agent_autotasks table agent) ->
  AutomatedTask.managed_by_policy task = true ->
  AutomatedTask.parent_task task = Some p ->
  ~ In p (map AutomatedTask.pk (accepted table agent policies)) ->
  Policy.in_retire_queryset (Policy.agent_tasks_parent_pks table agent)
    agent (accepted table agent policies) task = true.
Proof.
  intros Hin Hm Hp Hna. unfold Policy.in_retire_queryset.
  pose proof Hin as Hin'. apply filter_In in Hin'. destruct Hin' as [_ Ha].
  rewrite Ha, Hp. simpl. apply fk_in_Some, stale_task_pks_In.
  split; [|assumption]. unfold Policy.agent_tasks_parent_pks.
  rewrite <- Hp. apply in_map, filter_In. now split.
Qed.

Lemma in_retire_queryset_accepted parent_pks agent tasks task p :
  AutomatedTask.parent_task task = Some p ->
  In p (map AutomatedTask.pk tasks) ->
  Policy.in_retire_queryset parent_pks agent tasks task = false.
Proof.
  clear is_supported_script.
  intros Hp Hin. unfold Policy.in_retire_queryset. rewrite Hp.
  apply andb_false_iff. right.
  destruct (fk_in _ _) eqn:E; [|reflexivity].
  apply fk_in_Some, stale_task_pks_In in E. tauto.
Qed.

Lemma revive_task_pk agent tasks row :
  AutomatedTask.pk (Policy.revive_task agent tasks row)
  = AutomatedTask.pk row.
Proof. unfold Policy.revive_task. now destruct (_ && _). Qed.

(** A managed task whose parent is not accepted and that was never synced
    is deleted: no row of the new table has its primary key. *)
Lemma task_retired_deleted table agent policies task p :
  NoDup (map AutomatedTask.pk table) ->
  In task (Policy.agent_autotasks table agent) ->
  AutomatedTask.managed_by_policy task = true ->
  AutomatedTask.parent_task task = Some p ->
  ~ In p (map AutomatedTask.pk (accepted table agent policies)) ->
  AutomatedTask.sync_status task = "initial" ->
  forall row, In row (fst (cascade table agent policies)) ->
              AutomatedTask.pk row <> AutomatedTask.pk task.
Proof.
  intros Hnd Hin Hm Hp Hna Hs row Hrow E.
  rewrite cascade_policy_tasks_table in Hrow by assumption.
  apply in_filter_map in Hrow. destruct Hrow as [r [Hr Hf]].
  assert (Hpk : AutomatedTask.pk r = AutomatedTask.pk row).
  { destruct (Policy.in_retire_queryset _ _ _ r).
    - destruct (Policy.retired_task r) as [r'|] eqn:Er; [|discriminate].
      simpl in Hf. injection Hf as <-. rewrite revive_task_pk.
      symmetry. now apply retired_task_pk.
    - simpl in Hf. injection Hf as <-. now rewrite revive_task_pk. }
  assert (r = task).
  { apply (NoDup_map_inj AutomatedTask.pk table); auto; [|congruence].
    apply filter_In in Hin. tauto. }
  subst r.
  rewrite (in_retire_queryset_stale _ _ _ _ p) in Hf by assumption.
  unfold Policy.retired_task in Hf. rewrite Hs in Hf. discriminate.
Qed.

(** A managed task whose parent is not accepted and that was synced stays
    in the table, in the pending-deletion state. *)
Lemma task_retired_pending table agent policies task p :
  NoDup (map AutomatedTask.pk table) ->
  In task (Policy.agent_autotasks table agent) ->
  AutomatedTask.managed_by_policy task = true ->
  AutomatedTask.parent_task task = Some p ->
  ~ In p (map AutomatedTask.pk (accepted table agent policies)) ->
  AutomatedTask.sync_status task <> "initial" ->
  In (AutomatedTask.set_sync_status task "pendingdeletion")
     (fst (cascade table agent policies)).
Proof.
  intros Hnd Hin Hm Hp Hna Hs.
  rewrite cascade_policy_tasks_table by assumption.
  apply in_filter_map. exists task. split.
  { apply filter_In in Hin. tauto. }
  rewrite (in_retire_queryset_stale _ _ _ _ p) by assumption.
  unfold Policy.retired_task.
  destruct (String.eqb_spec (AutomatedTask.sync_status task) "initial");
    [contradiction|].
  simpl. f_equal. unfold Policy.revive_task. simpl. rewrite Hp.
  destruct (fk_in (Some p) _) eqn:E.
  - apply fk_in_Some, In_Some_pk in E. contradiction.
  - now rewrite andb_false_r.
Qed.

(** A pending-deletion task of the agent whose parent is accepted is set
    to [notsynced], in place. *)
Lemma task_revived table agent policies task p :
  NoDup (map AutomatedTask.pk table) ->
  In task (Policy.agent_autotasks table agent) ->
  AutomatedTask.sync_status task = "pendingdeletion" ->
  AutomatedTask.parent_task task = Some p ->
  In p (map AutomatedTask.pk (accepted table agent policies)) ->
  In (AutomatedTask.set_sync_status task "notsynced")
     (fst (cascade table agent policies)).
Proof.
  intros Hnd Hin Hs Hp Hacc.
  rewrite cascade_policy_tasks_table by assumption.
  apply in_filter_map. exists task.
  apply filter_In in Hin. destruct Hin as [Hin Ha]. split; [assumption|].
  rewrite (in_retire_queryset_accepted _ _ _ _ p) by assumption.
  simpl. f_equal. unfold Policy.revive_task. rewrite Ha, Hs, Hp. simpl.
  assert (E : fk_in (Some p)
                (map (fun t => Some (AutomatedTask.pk t))
                   (accepted table agent policies)) = true)
    by now apply fk_in_Some, In_Some_pk.
  now rewrite E.
Qed.

(** The row of the new table that has the primary key of a row of the old
    table is what the two steps make of that row. *)
Lemma cascade_tasks_row_of table agent policies task row :
  NoDup (map AutomatedTask.pk table) ->
  In task table ->
  In row (fst (cascade table agent policies)) ->
  AutomatedTask.pk row = AutomatedTask.pk task ->
  option_map (Policy.revive_task agent (accepted table agent policies))
    (if Policy.in_retire_queryset
          (Policy.agent_tasks_parent_pks table agent) agent
          (accepted table agent policies) task
     then Policy.retired_task task
     else Some task)
  = Some row.
Proof.
  intros Hnd Hin Hrow E.
  rewrite cascade_policy_tasks_table in Hrow by assumption.
  apply in_filter_map in Hrow. destruct Hrow as [r [Hr Hf]].
  assert (Hpk : AutomatedTask.pk r = AutomatedTask.pk row).
  { destruct (Policy.in_retire_queryset _ _ _ r).
    - destruct (Policy.retired_task r) as [r'|] eqn:Er; [|discriminate].
      simpl in Hf. injection Hf as <-. rewrite revive_task_pk.
      symmetry. now apply retired_task_pk.
    - simpl in Hf. injection Hf as <-. now rewrite revive_task_pk. }
  assert (r = task)
    by (apply (NoDup_map_inj AutomatedTask.pk table); auto; congruence).
  now subst r.
Qed.

(** Every row that has the primary key of a retired, synced task is that
    task with sync status [pendingdeletion]. *)
Lemma task_retired_pending_row table agent policies task p row :
  NoDup (map AutomatedTask.pk table) ->
  In task (Policy.agent_autotasks table agent) ->
  AutomatedTask.managed_by_policy task = true ->
  AutomatedTask.parent_task task = Some p ->
  ~ In p (map AutomatedTask.pk (accepted table agent policies)) ->
  AutomatedTask.sync_status task <> "initial" ->
  In row (fst (cascade table agent policies)) ->
  AutomatedTask.pk row = AutomatedTask.pk task ->
  row = AutomatedTask.set_sync_status task "pendingdeletion".
Proof.
  intros Hnd Hin Hm Hp Hna Hs Hrow E.
  assert (Ht : In task table) by (apply filter_In in Hin; tauto).
  pose proof (cascade_tasks_row_of _ _ _ _ _ Hnd Ht Hrow E) as Hf.
  rewrite (in_retire_queryset_stale _ _ _ _ p) in Hf by assumption.
  unfold Policy.retired_task in Hf.
  destruct (String.eqb_spec (AutomatedTask.sync_status task) "initial");
    [contradiction|].
  simpl in Hf. injection Hf as <-.
  unfold Policy.revive_task. simpl. rewrite Hp.
  destruct (fk_in (Some p) _) eqn:E'.
  - apply fk_in_Some, In_Some_pk in E'. contradiction.
  - now rewrite andb_false_r.
Qed.

(** Every row that has the primary key of a revived task is that task
    with sync status [notsynced]. *)
Lemma task_revived_row table agent policies task p row :
  NoDup (map AutomatedTask.pk table) ->
  In task (Policy.agent_autotasks table agent) ->
  AutomatedTask.sync_status task = "pendingdeletion" ->
  AutomatedTask.parent_task task = Some p ->
  In p (map AutomatedTask.pk (accepted table agent policies)) ->
  In row (fst (cascade table agent policies)) ->
  AutomatedTask.pk row = AutomatedTask.pk task ->
  row = AutomatedTask.set_sync_status task "notsynced".
Proof.
  intros Hnd Hin Hs Hp Hacc Hrow E.
  apply filter_In in Hin. destruct Hin as [Hin Ha].
  pose proof (cascade_tasks_row_of _ _ _ _ _ Hnd Hin Hrow E) as Hf.
  rewrite (in_retire_queryset_accepted _ _ _ _ p) in Hf by assumption.
  simpl in Hf. injection Hf as <-.
  unfold Policy.revive_task. rewrite Ha, Hs, Hp. simpl.
  assert (E' : fk_in (Some p)
                 (map (fun t => Some (AutomatedTask.pk t))
                    (accepted table agent policies)) = true)
    by now apply fk_in_Some, In_Some_pk.
  now rewrite E'.
Qed.

(** The template of a managed task is not returned as new. *)
Lemma task_template_not_new table agent policies task p template :
  In task (Policy.agent_autotasks table agent) ->
  AutomatedTask.managed_by_policy task = true ->
  AutomatedTask.parent_task task = Some p ->
  In template (snd (cascade table agent policies)) ->
  AutomatedTask.pk template <> p.
Proof.
  intros Hin Hm Hp Ht E. unfold Policy.cascade_policy_tasks in Ht.
  simpl in Ht. apply filter_In in Ht. destruct Ht as [_ Ht].
  apply negb_true_iff in Ht.
  assert (H : mem_opt (Some (AutomatedTask.pk template))
                (Policy.agent_tasks_parent_pks table agent) = true).
  { apply mem_opt_In. rewrite E, <- Hp.
    unfold Policy.agent_tasks_parent_pks. apply in_map, filter_In.
    now split. }
  congruence.
Qed.

(** Every accepted task, and so every returned task, has a script the
    agent supports. *)
Lemma accepted_tasks_supported table agent policies task :
  In task (accepted table agent policies) ->
  is_supported_script agent (Script.shell (AutomatedTask.script task)) = true.
Proof.
  unfold Policy.accepted_tasks. rewrite filter_In. tauto.
Qed.

Lemma returned_tasks_accepted table agent policies task :
  In task (snd (cascade table agent policies)) ->
  In task (accepted table agent policies).
Proof.
  unfold Policy.cascade_policy_tasks. simpl. rewrite filter_In. tauto.
Qed.

End TaskCascade.

(** ** The check cascade *)

Section CheckCascade.
Variable is_supported_script : Agent.t -> string -> bool.
Local Abbreviation check_key := (Policy.check_key is_supported_script).
Local Abbreviation loop_body := (Policy.loop_body is_supported_script).

Lemma mem_str_snoc x l y : mem_str x (l ++ [y]) = String.eqb x y || mem_str x l.
Proof. unfold mem_str. rewrite existsb_app. simpl. rewrite orb_false_r. apply orb_comm. Qed.
Lemma mem_nat_snoc x l y : mem_nat x (l ++ [y]) = (x =? y) || mem_nat x l.
Proof. unfold mem_nat. rewrite existsb_app. simpl. rewrite orb_false_r. apply orb_comm. Qed.
Lemma mem_event_snoc x l y :
  mem_event x (l ++ [y])
  = (String.eqb (fst x) (fst y) && Z.eqb (snd x) (snd y)) || mem_event x l.
Proof. unfold mem_event. rewrite existsb_app. simpl. rewrite orb_false_r. apply orb_comm. Qed.

Ltac seen_after_append :=
  let k' := fresh "k" in
  intros k'; destruct k'; simpl;
  rewrite ?mem_str_snoc, ?mem_nat_snoc, ?mem_event_snoc; simpl;
  try reflexivity.

Ltac buckets_after_append E :=
  unfold Policy.buckets, Policy.append_buckets, Policy.split_by_type,
    Policy.of_type; simpl; rewrite ?E; simpl; rewrite ?app_nil_r;
  reflexivity.

Ltac fresh_key E :=
  simpl; destruct (Check.has_agent _); simpl;
  (split; [seen_after_append
          | split; [buckets_after_append E | reflexivity]]).

Lemma diskspace_block_skip agent c st :
  Check.check_type c <> "diskspace"%string ->
  Policy.diskspace_block agent c st = st.
Proof.
  intros H. apply String.eqb_neq in H. unfold Policy.diskspace_block.
  now rewrite H.
Qed.

Lemma ping_block_skip c st :
  Check.check_type c <> "ping"%string -> Policy.ping_block c st = st.
Proof.
  intros H. apply String.eqb_neq in H. unfold Policy.ping_block.
  now rewrite H.
Qed.

Lemma cpuload_block_skip agent c st :
  Check.check_type c <> "cpuload"%string ->
  Policy.cpuload_block agent c st = st.
Proof.
  intros H. apply String.eqb_neq in H. unfold Policy.cpuload_block.
  now rewrite H.
Qed.

Lemma memory_block_skip agent c st :
  Check.check_type c <> "memory"%string ->
  Policy.memory_block agent c st = st.
Proof.
  intros H. apply String.eqb_neq in H. unfold Policy.memory_block.
  now rewrite H.
Qed.

Lemma winsvc_block_skip agent c st :
  Check.check_type c <> "winsvc"%string ->
  Policy.winsvc_block agent c st = st.
Proof.
  intros H. apply String.eqb_neq in H. unfold Policy.winsvc_block.
  now rewrite H.
Qed.

Lemma script_block_skip agent c st :
  Check.check_type c <> "script"%string ->
  Policy.script_block is_supported_script agent c st = st.
Proof.
  intros H. apply String.eqb_neq in H. unfold Policy.script_block.
  now rewrite H.
Qed.

Lemma eventlog_block_skip agent c st :
  Check.check_type c <> "eventlog"%string ->
  Policy.eventlog_block agent c st = st.
Proof.
  intros H. apply String.eqb_neq in H. unfold Policy.eventlog_block.
  now rewrite H.
Qed.

(** With the blocks of the other types skipped. *)
Ltac skip_other_blocks :=
  rewrite ?diskspace_block_skip, ?ping_block_skip, ?cpuload_block_skip,
    ?memory_block_skip, ?winsvc_block_skip, ?script_block_skip,
    ?eventlog_block_skip by congruence.

Lemma loop_body_key agent st c :
  match check_key agent c with
  | None => loop_body agent st c = st
  | Some k =>
      if Policy.seen_key st k
      then loop_body agent st c
           = if Check.has_agent c then Policy.save_overriden c st else st
      else (forall k', Policy.seen_key (loop_body agent st c) k'
                       = Policy.Key_eqb k' k || Policy.seen_key st k')
           /\ Policy.buckets (loop_body agent st c)
              = Policy.append_buckets (Policy.buckets st)
                  (Policy.split_by_type
                     (if Check.has_agent c then [] else [c]))
           /\ Policy.checks_table (loop_body agent st c)
              = Policy.checks_table st
  end.
Proof.
  unfold Policy.loop_body, Policy.check_key.
  destruct (String.eqb_spec (Check.check_type c) "diskspace") as [E|N1].
  { skip_other_blocks. unfold Policy.diskspace_block. rewrite E. simpl.
    destruct st as [a1 a2 a3 a4 a5 a6 a7 b1 b2 b3 b4 b5 b6 b7 t].
    destruct (String.eqb (Agent.plat agent) "windows"); [|reflexivity].
    simpl. destruct (mem_str (Check.disk c) a1); simpl;
      [reflexivity | fresh_key E]. }
  destruct (String.eqb_spec (Check.check_type c) "ping") as [E|N2].
  { skip_other_blocks. unfold Policy.ping_block. rewrite E. simpl.
    destruct st as [a1 a2 a3 a4 a5 a6 a7 b1 b2 b3 b4 b5 b6 b7 t].
    simpl. destruct (mem_str (Check.ip c) a2); simpl;
      [reflexivity | fresh_key E]. }
  destruct (String.eqb_spec (Check.check_type c) "cpuload") as [E|N3].
  { skip_other_blocks. unfold Policy.cpuload_block. rewrite E. simpl.
    destruct st as [a1 a2 a3 a4 a5 a6 a7 b1 b2 b3 b4 b5 b6 b7 t].
    destruct (String.eqb (Agent.plat agent) "windows"); [|reflexivity].
    simpl. destruct a6; simpl; [fresh_key E | reflexivity]. }
  destruct (String.eqb_spec (Check.check_type c) "memory") as [E|N4].
  { skip_other_blocks. unfold Policy.memory_block. rewrite E. simpl.
    destruct st as [a1 a2 a3 a4 a5 a6 a7 b1 b2 b3 b4 b5 b6 b7 t].
    destruct (String.eqb (Agent.plat agent) "windows"); [|reflexivity].
    simpl. destruct a7; simpl; [fresh_key E | reflexivity]. }
  destruct (String.eqb_spec (Check.check_type c) "winsvc") as [E|N5].
  { skip_other_blocks. unfold Policy.winsvc_block. rewrite E. simpl.
    destruct st as [a1 a2 a3 a4 a5 a6 a7 b1 b2 b3 b4 b5 b6 b7 t].
    destruct (String.eqb (Agent.plat agent) "windows"); [|reflexivity].
    simpl. destruct (mem_str (Check.svc_name c) a3); simpl;
      [reflexivity | fresh_key E]. }
  destruct (String.eqb_spec (Check.check_type c) "script") as [E|N6].
  { skip_other_blocks. unfold Policy.script_block. rewrite E. simpl.
    destruct st as [a1 a2 a3 a4 a5 a6 a7 b1 b2 b3 b4 b5 b6 b7 t].
    destruct (is_supported_script agent _); [|reflexivity].
    simpl. destruct (mem_nat (Script.id (Check.script c)) a4); simpl;
      [reflexivity | fresh_key E]. }
  destruct (String.eqb_spec (Check.check_type c) "eventlog") as [E|N7].
  { skip_other_blocks. unfold Policy.eventlog_block. rewrite E. simpl.
    destruct st as [a1 a2 a3 a4 a5 a6 a7 b1 b2 b3 b4 b5 b6 b7 t].
    destruct (String.eqb (Agent.plat agent) "windows"); [|reflexivity].
    simpl. destruct (mem_event (Check.log_name c, Check.event_id c) a5);
      simpl; [reflexivity | fresh_key E]. }
  skip_other_blocks. reflexivity.
Qed.

Local Abbreviation first_templates := (Policy.first_templates is_supported_script).
Local Abbreviation overridden_checks :=
  (Policy.overridden_checks is_supported_script).

Lemma append_split_app st X Y :
  Policy.append_buckets
    (Policy.append_buckets (Policy.buckets st) (Policy.split_by_type X))
    (Policy.split_by_type Y)
  = Policy.append_buckets (Policy.buckets st) (Policy.split_by_type (X ++ Y)).
Proof.
  unfold Policy.append_buckets, Policy.split_by_type, Policy.buckets,
    Policy.of_type.
  simpl. rewrite !filter_app, <- !app_assoc. reflexivity.
Qed.

Lemma append_split_nil st :
  Policy.append_buckets (Policy.buckets st) (Policy.split_by_type [])
  = Policy.buckets st.
Proof.
  unfold Policy.append_buckets, Policy.split_by_type, Policy.buckets. simpl.
  rewrite !app_nil_r. reflexivity.
Qed.

Lemma save_overriden_view c st :
  (forall k, Policy.seen_key (Policy.save_overriden c st) k
             = Policy.seen_key st k)
  /\ Policy.buckets (Policy.save_overriden c st) = Policy.buckets st
  /\ Policy.checks_table (Policy.save_overriden c st)
     = write_row Check.pk Policy.overriden_instance (Policy.checks_table st) c.
Proof.
  destruct st. simpl.
  split; [intros k; now destruct k | split; reflexivity].
Qed.

(** The loop keeps the first templates and saves the overridden checks. *)
Lemma loop_refines agent l :
  forall st seen,
    (forall k, Policy.seen_key st k = Policy.mem_key k seen) ->
    Policy.buckets (fold_left (loop_body agent) l st)
    = Policy.append_buckets (Policy.buckets st)
        (Policy.split_by_type (first_templates agent seen l))
    /\ Policy.checks_table (fold_left (loop_body agent) l st)
       = fold_left (write_row Check.pk Policy.overriden_instance)
           (overridden_checks agent seen l) (Policy.checks_table st).
Proof.
  induction l as [|c l IH]; intros st seen Hseen; simpl.
  - split; [now rewrite append_split_nil | reflexivity].
  - pose proof (loop_body_key agent st c) as Hstep.
    destruct (check_key agent c) as [k|]; [|rewrite Hstep; now apply IH].
    rewrite <- Hseen. destruct (Policy.seen_key st k) eqn:Hk.
    + rewrite Hstep. destruct (Check.has_agent c).
      * destruct (save_overriden_view c st) as [H1 [H2 H3]].
        destruct (IH (Policy.save_overriden c st) seen) as [IH1 IH2].
        { intros k'. now rewrite H1. }
        rewrite IH1, IH2, H2, H3. split; reflexivity.
      * now apply IH.
    + destruct Hstep as [H1 [H2 H3]].
      destruct (IH (loop_body agent st c) (k :: seen)) as [IH1 IH2].
      { intros k'. rewrite H1, Hseen. reflexivity. }
      rewrite IH1, IH2, H2, H3, append_split_app. split; reflexivity.
Qed.

Lemma final_list_of_buckets st :
  Policy.final_list_of st = List.concat (Policy.buckets st).
Proof.
  unfold Policy.final_list_of, Policy.buckets. simpl.
  now rewrite app_nil_r.
Qed.

(** [final_list] is the first templates of the candidates, type by type. *)
Lemma final_list_first_templates table agent policies :
  Policy.final_list is_supported_script table agent policies
  = List.concat (Policy.split_by_type
              (first_templates agent []
                 (Policy.candidates table agent policies))).
Proof.
  unfold Policy.final_list, Policy.loop_result.
  rewrite final_list_of_buckets.
  destruct (loop_refines agent (Policy.candidates table agent policies)
              (Policy.initial_state table) []) as [H _].
  { intros k. now destruct k. }
  rewrite H. reflexivity.
Qed.

Lemma loop_result_table table agent policies :
  Policy.checks_table (Policy.loop_result is_supported_script table agent policies)
  = fold_left (write_row Check.pk Policy.overriden_instance)
      (overridden_checks agent [] (Policy.candidates table agent policies))
      table.
Proof.
  unfold Policy.loop_result.
  destruct (loop_refines agent (Policy.candidates table agent policies)
              (Policy.initial_state table) []) as [_ H].
  { intros k. now destruct k. }
  rewrite H. reflexivity.
Qed.

Lemma Key_eqb_eq x y : Policy.Key_eqb x y = true <-> x = y.
Proof.
  destruct x, y; simpl; try (split; congruence);
    rewrite ?andb_true_iff, ?String.eqb_eq, ?Nat.eqb_eq, ?Z.eqb_eq;
    split; try intros [? ?]; try intros [= ]; subst; auto; congruence.
Qed.

Lemma mem_key_In k seen : Policy.mem_key k seen = true <-> In k seen.
Proof.
  unfold Policy.mem_key. rewrite existsb_exists. split.
  - intros [y [Hy E]]. apply Key_eqb_eq in E. now subst.
  - intros H. exists k. split; [assumption | now apply Key_eqb_eq].
Qed.

Lemma mem_key_cons k k' seen :
  Policy.mem_key k (k' :: seen) = false <->
  k <> k' /\ Policy.mem_key k seen = false.
Proof.
  unfold Policy.mem_key. simpl. rewrite orb_false_iff.
  split; intros [H1 H2]; split; auto.
  - intros E. apply Key_eqb_eq in E. congruence.
  - destruct (Policy.Key_eqb k k') eqn:E; [|reflexivity].
    apply Key_eqb_eq in E. contradiction.
Qed.

(** A kept template is a template of the sequence whose key was not seen
    before the sequence. *)
Lemma first_templates_inv agent l :
  forall seen c,
    In c (first_templates agent seen l) ->
    In c l /\ Check.has_agent c = false
    /\ exists k, check_key agent c = Some k
                 /\ Policy.mem_key k seen = false.
Proof.
  induction l as [|x l IH]; simpl; intros seen c Hin; [contradiction|].
  destruct (check_key agent x) as [k|] eqn:Ek.
  - destruct (Policy.mem_key k seen) eqn:Hk.
    + destruct (IH _ _ Hin) as [H1 H2]. auto.
    + apply in_app_or in Hin. destruct Hin as [Hin|Hin].
      * destruct (Check.has_agent x) eqn:Ha; simpl in Hin; [contradiction|].
        destruct Hin as [<-|[]]. repeat split; auto. now exists k.
      * destruct (IH _ _ Hin) as [H1 [H2 [k' [H3 H4]]]].
        apply mem_key_cons in H4. repeat split; auto.
        exists k'. tauto.
  - destruct (IH _ _ Hin) as [H1 H2]. auto.
Qed.

(** No two kept templates have the same key. *)
Lemma first_templates_NoDup agent l :
  forall seen, NoDup (map (check_key agent) (first_templates agent seen l)).
Proof.
  induction l as [|x l IH]; simpl; intros seen; [constructor|].
  destruct (check_key agent x) as [k|] eqn:Ek; [|apply IH].
  destruct (Policy.mem_key k seen); [apply IH|].
  destruct (Check.has_agent x); simpl; [apply IH|].
  constructor; [|apply IH]. rewrite Ek. intros H.
  apply in_map_iff in H. destruct H as [c [Ec Hc]].
  apply first_templates_inv in Hc.
  destruct Hc as [_ [_ [k' [H1 H2]]]].
  apply mem_key_cons in H2. destruct H2 as [H2 _]. congruence.
Qed.

(** The first template with a key that was not seen is kept. *)
Lemma first_templates_first agent l1 c l2 k :
  forall seen,
    check_key agent c = Some k ->
    Policy.mem_key k seen = false ->
    (forall c', In c' l1 -> check_key agent c' <> Some k) ->
    Check.has_agent c = false ->
    In c (first_templates agent seen (l1 ++ c :: l2)).
Proof.
  induction l1 as [|x l1 IH]; simpl; intros seen Hk Hseen Hl1 Ha.
  - rewrite Hk, Hseen, Ha. simpl. auto.
  - destruct (check_key agent x) as [k'|] eqn:Ek; [|apply IH; auto].
    destruct (Policy.mem_key k' seen); [apply IH; auto|].
    apply in_or_app. right. apply IH; auto.
    apply mem_key_cons. split; [|assumption].
    intros ->. apply (Hl1 x); auto.
Qed.

(** A kept template comes first with its key in the sequence. *)
Lemma first_templates_is_first agent l :
  forall seen c,
    In c (first_templates agent seen l) ->
    exists l1 l2 k,
      l = l1 ++ c :: l2
      /\ check_key agent c = Some k
      /\ forall c', In c' l1 -> check_key agent c' <> Some k.
Proof.
  induction l as [|x l IH]; simpl; intros seen c Hin; [contradiction|].
  assert (Hrec : forall seen',
            In c (first_templates agent seen' l) ->
            (forall k, check_key agent c = Some k ->
                       check_key agent x <> Some k) ->
            exists l1 l2 k,
              x :: l = l1 ++ c :: l2
              /\ check_key agent c = Some k
              /\ forall c', In c' l1 -> check_key agent c' <> Some k).
  { intros seen' H Hx. destruct (IH _ _ H) as [l1 [l2 [k [E [Hk Hl1]]]]].
    exists (x :: l1), l2, k. subst l. repeat split; auto.
    intros c' [<-|Hc']; auto. }
  destruct (check_key agent x) as [k|] eqn:Ek.
  - destruct (Policy.mem_key k seen) eqn:Hk.
    + apply (Hrec seen Hin). intros k' Hk' [= ->].
      apply first_templates_inv in Hin.
      destruct Hin as [_ [_ [k'' [H1 H2]]]]. congruence.
    + apply in_app_or in Hin. destruct Hin as [Hin|Hin].
      * destruct (Check.has_agent x); simpl in Hin; [contradiction|].
        destruct Hin as [<-|[]]. exists [], l, k. repeat split; auto.
      * apply (Hrec (k :: seen) Hin). intros k' Hk' [= ->].
        apply first_templates_inv in Hin.
        destruct Hin as [_ [_ [k'' [H1 H2]]]].
        apply mem_key_cons in H2. destruct H2 as [H2 _]. congruence.
  - apply (Hrec seen Hin). intros k' _. discriminate.
Qed.

Lemma overridden_checks_seen agent l :
  forall seen c k,
    In c l -> check_key agent c = Some k -> Policy.mem_key k seen = true ->
    Check.has_agent c = true ->
    In c (overridden_checks agent seen l).
Proof.
  induction l as [|x l IH]; simpl; intros seen c k Hin Hk Hseen Ha;
    [contradiction|].
  destruct Hin as [->|Hin].
  - rewrite Hk, Hseen, Ha. simpl. auto.
  - destruct (check_key agent x) as [k'|] eqn:Ek; [|now apply (IH _ _ k)].
    destruct (Policy.mem_key k' seen).
    + apply in_or_app. right. now apply (IH _ _ k).
    + apply (IH _ _ k); auto. unfold Policy.mem_key. simpl.
      fold (Policy.mem_key k seen). rewrite Hseen. apply orb_true_r.
Qed.

(** A check of the agent that comes after a check with its key is saved
    as overridden. *)
Lemma overridden_checks_later agent l1 c l2 k :
  forall seen,
    check_key agent c = Some k ->
    (exists c', In c' l1 /\ check_key agent c' = Some k) ->
    Check.has_agent c = true ->
    In c (overridden_checks agent seen (l1 ++ c :: l2)).
Proof.
  induction l1 as [|x l1 IH]; simpl; intros seen Hk [c' [Hc' Hk']] Ha;
    [contradiction|].
  destruct (Policy.mem_key k seen) eqn:Hseen.
  - apply (overridden_checks_seen agent (x :: l1 ++ c :: l2) seen c k); auto.
    right. apply in_or_app. simpl. auto.
  - destruct Hc' as [->|Hc'].
    + rewrite Hk', Hseen.
      apply (overridden_checks_seen agent _ _ c k); auto.
      * apply in_or_app. simpl. auto.
      * apply mem_key_In. simpl. auto.
    + destruct (check_key agent x) as [kx|] eqn:Ex.
      * destruct (Policy.mem_key kx seen).
        -- apply in_or_app. right. apply IH; auto. now exists c'.
        -- apply IH; auto. now exists c'.
      * apply IH; auto. now exists c'.
Qed.

Lemma overridden_checks_inv agent l :
  forall seen c,
    In c (overridden_checks agent seen l) ->
    In c l /\ Check.has_agent c = true.
Proof.
  induction l as [|x l IH]; simpl; intros seen c Hin; [contradiction|].
  destruct (check_key agent x) as [k|] eqn:Ek.
  - destruct (Policy.mem_key k seen).
    + apply in_app_or in Hin. destruct Hin as [Hin|Hin].
      * destruct (Check.has_agent x) eqn:Ha; simpl in Hin; [|contradiction].
        destruct Hin as [<-|[]]. auto.
      * destruct (IH _ _ Hin). auto.
    + destruct (IH _ _ Hin). auto.
  - destruct (IH _ _ Hin). auto.
Qed.

Lemma check_key_type agent c k :
  check_key agent c = Some k -> In (Check.check_type c) Policy.check_types.
Proof.
  unfold Policy.check_key, Policy.check_types.
  repeat match goal with
         | |- context [String.eqb (Check.check_type c) ?s] =>
             destruct (String.eqb_spec (Check.check_type c) s) as [->|_];
             [intros _; simpl; tauto|]
         end.
  discriminate.
Qed.

(** On an agent that is not a windows agent only ping and script checks
    have a key. *)
Lemma check_key_not_windows agent c k :
  check_key agent c = Some k ->
  Agent.plat agent <> "windows"%string ->
  Check.check_type c = "ping"%string \/ Check.check_type c = "script"%string.
Proof.
  unfold Policy.check_key. intros H Hw. apply String.eqb_neq in Hw.
  rewrite Hw in H.
  repeat match type of H with
         | context [String.eqb (Check.check_type c) ?s] =>
             destruct (String.eqb_spec (Check.check_type c) s);
             try discriminate; auto
         end.
Qed.

(** A script check has a key only when the agent supports its shell. *)
Lemma check_key_script agent c k :
  check_key agent c = Some k ->
  Check.check_type c = "script"%string ->
  is_supported_script agent (Script.shell (Check.script c)) = true.
Proof.
  unfold Policy.check_key. intros H E. rewrite E in H. simpl in H.
  now destruct (is_supported_script agent _).
Qed.

(** The key of a diskspace check on a windows agent is its drive. *)
Lemma check_key_diskspace agent c :
  Check.check_type c = "diskspace"%string ->
  Agent.plat agent = "windows"%string ->
  check_key agent c = Some (Policy.diskspace_key (Check.disk c)).
Proof.
  unfold Policy.check_key. intros E W. now rewrite E, W.
Qed.

Lemma of_type_cons ty x l :
  Policy.of_type ty (x :: l)
  = if String.eqb (Check.check_type x) ty
    then x :: Policy.of_type ty l
    else Policy.of_type ty l.
Proof. reflexivity. Qed.

Lemma split_cons_perm tys x l :
  NoDup tys -> In (Check.check_type x) tys ->
  Permutation (List.concat (map (fun ty => Policy.of_type ty (x :: l)) tys))
              (x :: List.concat (map (fun ty => Policy.of_type ty l) tys)).
Proof.
  induction tys as [|ty tys IH]; intros Hnd Hin; [destruct Hin|].
  inversion Hnd as [|? ? Hnotin Hnd']; subst.
  cbn [map List.concat]. rewrite of_type_cons.
  destruct (String.eqb_spec (Check.check_type x) ty) as [E|NE].
  - cbn [app]. constructor. apply Permutation_app_head.
    assert (Hsame : map (fun ty0 => Policy.of_type ty0 (x :: l)) tys
                    = map (fun ty0 => Policy.of_type ty0 l) tys).
    { apply map_ext_in. intros ty' Hty'. rewrite of_type_cons.
      destruct (String.eqb_spec (Check.check_type x) ty'); [|reflexivity].
      exfalso. apply Hnotin. congruence. }
    now rewrite Hsame.
  - destruct Hin as [Hin|Hin]; [congruence|].
    etransitivity; [apply Permutation_app_head, IH; assumption|].
    symmetry. apply Permutation_middle.
Qed.

(** Splitting by type and concatenating permutes a list of checks of the
    seven types. *)
Lemma split_by_type_perm l :
  (forall x, In x l -> In (Check.check_type x) Policy.check_types) ->
  Permutation (List.concat (Policy.split_by_type l)) l.
Proof.
  unfold Policy.split_by_type.
  induction l as [|x l IH]; intros H.
  - simpl. constructor.
  - etransitivity.
    + apply split_cons_perm; [|apply H; simpl; auto].
      unfold Policy.check_types.
      repeat constructor; simpl; intuition discriminate.
    + constructor. apply IH. intros y Hy. apply H. simpl. auto.
Qed.

Lemma final_list_perm table agent policies :
  Permutation (Policy.final_list is_supported_script table agent policies)
    (first_templates agent [] (Policy.candidates table agent policies)).
Proof.
  rewrite final_list_first_templates. apply split_by_type_perm.
  intros x Hx. apply first_templates_inv in Hx.
  destruct Hx as [_ [_ [k [Hk _]]]]. now apply check_key_type in Hk.
Qed.

Lemma final_list_In table agent policies c :
  In c (Policy.final_list is_supported_script table agent policies)
  <-> In c (first_templates agent [] (Policy.candidates table agent policies)).
Proof.
  split; apply Permutation_in;
    [|symmetry]; apply final_list_perm.
Qed.

(** No two accepted checks have the same key. *)
Lemma final_list_NoDup table agent policies :
  NoDup (map (check_key agent)
           (Policy.final_list is_supported_script table agent policies)).
Proof.
  eapply Permutation_NoDup.
  - symmetry. apply Permutation_map. apply final_list_perm.
  - apply first_templates_NoDup.
Qed.

Lemma collect_policy_checks_app table p E P :
  Policy.collect_policy_checks table p (E, P)
  = (E ++ Policy.checks_where
            (fun pol => Policy.active pol && Policy.enforced pol) table p,
     P ++ Policy.checks_where
            (fun pol => Policy.active pol && negb (Policy.enforced pol))
            table p).
Proof.
  unfold Policy.collect_policy_checks, Policy.checks_where.
  destruct p as [pol|]; [|now rewrite !app_nil_r].
  destruct (Policy.active pol), (Policy.enforced pol); simpl;
    now rewrite ?app_nil_r.
Qed.

(** The two lists the blocks build, level by level. *)
Lemma collected_checks_levels table policies :
  Policy.collected_checks table policies
  = (flat_map (Policy.checks_where
                 (fun pol => Policy.active pol && Policy.enforced pol) table)
       (Policy.policy_levels policies),
     flat_map (Policy.checks_where
                 (fun pol => Policy.active pol && negb (Policy.enforced pol))
                 table)
       (Policy.policy_levels policies)).
Proof.
  unfold Policy.collected_checks, Policy.policy_levels.
  rewrite !collect_policy_checks_app. simpl.
  now rewrite !app_nil_r, <- !app_assoc.
Qed.

Lemma checks_where_in_table sel table p c :
  In c (Policy.checks_where sel table p) ->
  In c table /\ Check.policy c <> None.
Proof.
  unfold Policy.checks_where. destruct p as [pol|]; [|intros []].
  destruct (sel pol); [|intros []].
  unfold Policy.policychecks. rewrite filter_In. intros [H E].
  split; [assumption|]. destruct (Check.policy c); [discriminate|].
  discriminate.
Qed.

Lemma agent_checks_inv table agent c :
  In c (Policy.agent_checks table agent) <->
  In c table /\ Check.agent c = Some (Agent.pk agent)
  /\ Check.managed_by_policy c = false.
Proof.
  clear is_supported_script.
  unfold Policy.agent_checks, Policy.agentchecks.
  rewrite !filter_In, fk_eqb_Some, negb_true_iff. tauto.
Qed.

(** A candidate is a row of the table: a row of a policy or a direct check
    of the agent. *)
Lemma candidates_inv table agent policies c :
  In c (Policy.candidates table agent policies) ->
  In c table
  /\ (Check.policy c <> None \/ In c (Policy.agent_checks table agent)).
Proof.
  clear is_supported_script.
  unfold Policy.candidates. rewrite collected_checks_levels.
  intros H. apply in_app_or in H. destruct H as [H|H].
  - apply in_flat_map in H. destruct H as [p [_ H]].
    apply checks_where_in_table in H. tauto.
  - apply in_app_or in H. destruct H as [H|H].
    + split; [|now right]. apply agent_checks_inv in H. tauto.
    + apply in_flat_map in H. destruct H as [p [_ H]].
      apply checks_where_in_table in H. tauto.
Qed.

Lemma overriden_instance_pk r r' :
  Policy.overriden_instance r = Some r' -> Check.pk r' = Check.pk r.
Proof. unfold Policy.overriden_instance. now intros [= <-]. Qed.

(** The check table when the loop ends, row by row. *)
Lemma loop_result_rows table agent policies :
  NoDup (map Check.pk table) ->
  Policy.checks_table
    (Policy.loop_result is_supported_script table agent policies)
  = filter_map
      (row_fate Check.pk Policy.overriden_instance
         (overridden_checks agent []
            (Policy.candidates table agent policies)))
      table.
Proof.
  intros Hnd. rewrite loop_result_table.
  apply (fold_writes _ _ overriden_instance_pk); [assumption|].
  intros c Hc. apply overridden_checks_inv in Hc. destruct Hc as [Hc _].
  now apply candidates_inv in Hc.
Qed.

(** The check table after [cascade_policy_checks], row by row: a row is
    saved as overridden or left alone by the loop, then deleted when it
    is a managed check of the agent with a stale parent. *)
Lemma cascade_policy_checks_table table agent policies :
  NoDup (map Check.pk table) ->
  fst (Policy.cascade_policy_checks is_supported_script table agent policies)
  = filter
      (fun row =>
         negb (Policy.is_stale_check agent
                 (Policy.stale_check_pks
                    (Policy.agent_checks_parent_pks table agent)
                    (Policy.final_list is_supported_script table agent
                       policies))
                 row))
      (filter_map
         (row_fate Check.pk Policy.overriden_instance
            (overridden_checks agent []
               (Policy.candidates table agent policies)))
         table).
Proof.
  intros Hnd. unfold Policy.cascade_policy_checks. simpl.
  rewrite loop_result_rows by assumption. reflexivity.
Qed.

(** What the loop does to a row keeps every column but
    [overriden_by_policy]. *)
Lemma row_fate_overriden ov r r' :
  row_fate Check.pk Policy.overriden_instance ov r = Some r' ->
  r' = r \/ r' = Check.set_overriden_by_policy r true.
Proof.
  unfold row_fate, Policy.overriden_instance.
  destruct (mem_nat _ _); intros [= <-]; auto.
Qed.

Lemma row_fate_columns ov r r' :
  row_fate Check.pk Policy.overriden_instance ov r = Some r' ->
  Check.pk r' = Check.pk r
  /\ Check.agent r' = Check.agent r
  /\ Check.policy r' = Check.policy r
  /\ Check.managed_by_policy r' = Check.managed_by_policy r
  /\ Check.parent_check r' = Check.parent_check r
  /\ Check.sync_status r' = Check.sync_status r.
Proof.
  intros H. apply row_fate_overriden in H. destruct H as [->| ->];
    simpl; auto 10.
Qed.

Lemma row_fate_total ov r :
  exists r', row_fate Check.pk Policy.overriden_instance ov r = Some r'.
Proof.
  unfold row_fate, Policy.overriden_instance.
  destruct (mem_nat _ _); eauto.
Qed.

Lemma In_Some_check_pk (p : nat) (l : list Check.t) :
  In (Some p) (map (fun check => Some (Check.pk check)) l)
  <-> In p (map Check.pk l).
Proof.
  rewrite !in_map_iff. split; intros [t [E H]]; exists t; split; congruence.
Qed.

Lemma stale_check_pks_In parent_pks final p :
  In (Some p) (Policy.stale_check_pks parent_pks final)
  <-> In (Some p) parent_pks /\ ~ In p (map Check.pk final).
Proof.
  unfold Policy.stale_check_pks. rewrite filter_In, negb_true_iff.
  rewrite <- In_Some_check_pk.
  rewrite <- (mem_opt_In (Some p) (map _ final)).
  destruct (mem_opt (Some p) (map _ final));
    split; intros [H1 H2]; split; congruence.
Qed.

(** A managed check of the agent whose parent is not accepted is deleted,
    whatever its sync status is. *)
Lemma check_retired_deleted table agent policies check p :
  NoDup (map Check.pk table) ->
  In check (Policy.agentchecks table agent) ->
  Check.managed_by_policy check = true ->
  Check.parent_check check = Some p ->
  ~ In p (map Check.pk
            (Policy.final_list is_supported_script table agent policies)) ->
  forall row,
    In row (fst (Policy.cascade_policy_checks is_supported_script table
                   agent policies)) ->
    Check.pk row <> Check.pk check.
Proof.
  intros Hnd Hin Hm Hp Hna row Hrow E.
  rewrite cascade_policy_checks_table in Hrow by assumption.
  apply filter_In in Hrow. destruct Hrow as [Hrow Hkeep].
  apply in_filter_map in Hrow. destruct Hrow as [r [Hr Hf]].
  apply row_fate_columns in Hf.
  destruct Hf as [Epk [Ea [_ [Em [Ep _]]]]].
  apply filter_In in Hin. destruct Hin as [Hin Hag].
  assert (r = check)
    by (apply (NoDup_map_inj Check.pk table); auto; congruence).
  subst r. apply negb_true_iff in Hkeep.
  unfold Policy.is_stale_check in Hkeep. rewrite Ea, Em, Ep, Hag, Hm in Hkeep.
  simpl in Hkeep. rewrite Hp in Hkeep.
  assert (Hs : fk_in (Some p)
                 (Policy.stale_check_pks
                    (Policy.agent_checks_parent_pks table agent)
                    (Policy.final_list is_supported_script table agent
                       policies)) = true).
  { apply fk_in_Some, stale_check_pks_In. split; [|assumption].
    unfold Policy.agent_checks_parent_pks. rewrite <- Hp.
    apply in_map, filter_In. split; [|assumption].
    apply filter_In. now split. }
  congruence.
Qed.

(** A managed check of the agent whose parent is accepted stays in the
    table with the sync status it had. *)
Lemma check_kept_status table agent policies check p :
  NoDup (map Check.pk table) ->
  In check table ->
  Check.parent_check check = Some p ->
  In p (map Check.pk
          (Policy.final_list is_supported_script table agent policies)) ->
  exists row,
    In row (fst (Policy.cascade_policy_checks is_supported_script table
                   agent policies))
    /\ Check.pk row = Check.pk check
    /\ Check.sync_status row = Check.sync_status check.
Proof.
  intros Hnd Hin Hp Hacc.
  rewrite cascade_policy_checks_table by assumption.
  destruct (row_fate_total
              (overridden_checks agent []
                 (Policy.candidates table agent policies)) check)
    as [row Hf].
  exists row. pose proof (row_fate_columns _ _ _ Hf) as Hc.
  destruct Hc as [Epk [Ea [_ [Em [Ep Es]]]]].
  repeat split; auto.
  apply filter_In. split.
  - apply in_filter_map. now exists check.
  - apply negb_true_iff. unfold Policy.is_stale_check.
    rewrite Ep, Hp.
    destruct (fk_in (Some p) _) eqn:E; [|now rewrite andb_false_r].
    apply fk_in_Some, stale_check_pks_In in E. tauto.
Qed.

(** [cascade_policy_checks] writes no sync status: every row of the new
    table has the sync status of the row of the old table with its
    primary key. *)
Lemma cascade_checks_keeps_status table agent policies row :
  NoDup (map Check.pk table) ->
  In row (fst (Policy.cascade_policy_checks is_supported_script table
                 agent policies)) ->
  exists r, In r table /\ Check.pk r = Check.pk row
            /\ Check.sync_status r = Check.sync_status row.
Proof.
  intros Hnd Hrow.
  rewrite cascade_policy_checks_table in Hrow by assumption.
  apply filter_In in Hrow. destruct Hrow as [Hrow _].
  apply in_filter_map in Hrow. destruct Hrow as [r [Hr Hf]].
  apply row_fate_columns in Hf. exists r. intuition congruence.
Qed.

Lemma of_type_of_type ty ty' l :
  Policy.of_type ty (Policy.of_type ty' l)
  = if String.eqb ty' ty then Policy.of_type ty l else [].
Proof.
  unfold Policy.of_type. rewrite filter_filter.
  destruct (String.eqb_spec ty' ty) as [->|NE].
  - apply filter_ext. intros x. now destruct (String.eqb _ _).
  - induction l as [|x l IH]; simpl; [reflexivity|].
    destruct (String.eqb_spec (Check.check_type x) ty');
      destruct (String.eqb_spec (Check.check_type x) ty); simpl;
      congruence.
Qed.

Lemma of_type_app ty l l' :
  Policy.of_type ty (l ++ l') = Policy.of_type ty l ++ Policy.of_type ty l'.
Proof. apply filter_app. Qed.

(** A list split by type is grouped by type in the fixed order: splitting
    it again gives the same list. *)
Lemma split_by_type_grouped l :
  List.concat (Policy.split_by_type (List.concat (Policy.split_by_type l)))
  = List.concat (Policy.split_by_type l).
Proof.
  unfold Policy.split_by_type, Policy.check_types.
  cbn [map List.concat].
  rewrite !of_type_app, !of_type_of_type. simpl.
  now rewrite !app_nil_r.
Qed.

Lemma of_type_filter ty p l :
  Policy.of_type ty (filter p l) = filter p (Policy.of_type ty l).
Proof.
  unfold Policy.of_type. rewrite !filter_filter. apply filter_ext.
  intros x. apply andb_comm.
Qed.

Lemma split_by_type_filter p l :
  List.concat (Policy.split_by_type (filter p l))
  = filter p (List.concat (Policy.split_by_type l)).
Proof.
  unfold Policy.split_by_type, Policy.check_types.
  cbn [map List.concat]. rewrite !filter_app, !of_type_filter.
  reflexivity.
Qed.

Lemma NoDup_map_filter {A B} (key : A -> B) (keep : A -> bool) :
  forall rows : list A,
    NoDup (map key rows) -> NoDup (map key (filter keep rows)).
Proof.
  intros rows. induction rows as [|x rows IH]; simpl; intros H;
    [constructor|].
  inversion H as [|? ? Hx Hrows]; subst.
  destruct (keep x); simpl; [|now apply IH].
  constructor; [|now apply IH].
  intros Hin. apply Hx. apply in_map_iff in Hin.
  destruct Hin as [y [E Hy]]. apply filter_In in Hy.
  apply in_map_iff. exists y. tauto.
Qed.

Lemma filter_singleton {A B} (f : A -> B) (p : A -> bool) (l : list A)
  (c : A) :
  NoDup (map f l) -> In c l -> p c = true ->
  (forall x, In x l -> p x = true -> f x = f c) ->
  filter p l = [c].
Proof.
  induction l as [|x l IH]; simpl; intros Hnd Hin Hp Hsame; [contradiction|].
  inversion Hnd as [|? ? Hx Hl]; subst.
  assert (Hnone : forall l',
            (forall y, In y l' -> f y <> f c) ->
            (forall y, In y l' -> p y = true -> f y = f c) ->
            filter p l' = []).
  { induction l' as [|y l' IH']; simpl; intros H1 H2; [reflexivity|].
    destruct (p y) eqn:Ey.
    - exfalso. apply (H1 y); auto.
    - apply IH'; auto. }
  destruct Hin as [->|Hin].
  - rewrite Hp. f_equal. apply Hnone; auto.
    intros y Hy E. apply Hx. rewrite <- E. now apply in_map.
  - destruct (p x) eqn:Ex.
    + exfalso. apply Hx. rewrite (Hsame x) by auto. now apply in_map.
    + apply IH; auto.
Qed.

(** An overridden check of the agent is in the table after the call, with
    [overriden_by_policy] set. *)
Lemma overridden_check_saved table agent policies c :
  NoDup (map Check.pk table) ->
  In c (overridden_checks agent [] (Policy.candidates table agent policies)) ->
  Check.managed_by_policy c = false ->
  In (Check.set_overriden_by_policy c true)
     (fst (Policy.cascade_policy_checks is_supported_script table agent
             policies)).
Proof.
  intros Hnd Hov Hm.
  rewrite cascade_policy_checks_table by assumption.
  apply filter_In. split.
  - apply in_filter_map. exists c. split.
    + apply overridden_checks_inv in Hov. destruct Hov as [Hov _].
      now apply candidates_inv in Hov.
    + unfold row_fate. rewrite (In_map_pk Check.pk c) by assumption.
      reflexivity.
  - apply negb_true_iff. unfold Policy.is_stale_check. simpl.
    rewrite Hm. now rewrite andb_false_r.
Qed.

(** Every row that has the primary key of an overridden check of the
    agent is that check with [overriden_by_policy] set. *)
Lemma overridden_check_row table agent policies c row :
  NoDup (map Check.pk table) ->
  In c (overridden_checks agent [] (Policy.candidates table agent policies)) ->
  In row (fst (Policy.cascade_policy_checks is_supported_script table agent
                 policies)) ->
  Check.pk row = Check.pk c ->
  row = Check.set_overriden_by_policy c true.
Proof.
  intros Hnd Hov Hrow E.
  rewrite cascade_policy_checks_table in Hrow by assumption.
  apply filter_In in Hrow. destruct Hrow as [Hrow _].
  apply in_filter_map in Hrow. destruct Hrow as [r [Hr Hf]].
  pose proof (row_fate_columns _ _ _ Hf) as [Epk _].
  assert (Hc : In c table).
  { apply overridden_checks_inv in Hov. destruct Hov as [Hov _].
    now apply candidates_inv in Hov. }
  assert (r = c)
    by (apply (NoDup_map_inj Check.pk table); auto; congruence).
  subst r. unfold row_fate in Hf.
  rewrite (In_map_pk Check.pk c) in Hf by assumption.
  unfold Policy.overriden_instance in Hf. now injection Hf as <-.
Qed.

End CheckCascade.

(** ** The claims on the cascade *)

Section Claims.

Variable is_supported_script : Agent.t -> string -> bool.

Local Abbreviation check_key := (Policy.check_key is_supported_script).
Local Abbreviation final_list := (Policy.final_list is_supported_script).
Local Abbreviation cascade_policy_checks :=
  (Policy.cascade_policy_checks is_supported_script).
Local Abbreviation cascade_policy_tasks :=
  (Policy.cascade_policy_tasks is_supported_script).
Local Abbreviation accepted_tasks :=
  (Policy.accepted_tasks is_supported_script).

Lemma has_agent_false c : Check.has_agent c = false <-> Check.agent c = None.
Proof.
  unfold Check.has_agent. destruct (Check.agent c); split; congruence.
Qed.

Lemma checks_where_inv sel table levels c :
  In c (flat_map (Policy.checks_where sel table) levels) ->
  exists pol, In (Some pol) levels /\ sel pol = true
              /\ In c (Policy.policychecks table pol).
Proof.
  intros H. apply in_flat_map in H. destruct H as [p [Hp H]].
  unfold Policy.checks_where in H. destruct p as [pol|]; [|destruct H].
  destruct (sel pol) eqn:E; [|destruct H]. now exists pol.
Qed.

(** C2, as the code has it.  A managed task of the agent whose parent is
    not among the accepted tasks is deleted when its sync status is
    [initial] (no row keeps its primary key); otherwise its row stays,
    and the row with its primary key has sync status [pendingdeletion]
    and the other columns of the task.  A managed check of the agent
    whose parent is not among the accepted checks is deleted whatever
    its sync status is. *)
Theorem C2_retirement (tasks : list AutomatedTask.t) (checks : list Check.t)
  (agent : Agent.t) (policies : Policy.AgentPolicies) :
  NoDup (map AutomatedTask.pk tasks) ->
  NoDup (map Check.pk checks) ->
  (forall task p,
     In task (Policy.agent_autotasks tasks agent) ->
     AutomatedTask.managed_by_policy task = true ->
     AutomatedTask.parent_task task = Some p ->
     ~ In p (map AutomatedTask.pk (accepted_tasks tasks agent policies)) ->
     (AutomatedTask.sync_status task = "initial"%string ->
      forall row, In row (fst (cascade_policy_tasks tasks agent policies)) ->
                  AutomatedTask.pk row <> AutomatedTask.pk task)
     /\ (AutomatedTask.sync_status task <> "initial"%string ->
         (exists row,
            In row (fst (cascade_policy_tasks tasks agent policies))
            /\ AutomatedTask.pk row = AutomatedTask.pk task)
         /\ forall row,
              In row (fst (cascade_policy_tasks tasks agent policies)) ->
              AutomatedTask.pk row = AutomatedTask.pk task ->
              AutomatedTask.sync_status row = "pendingdeletion"%string
              /\ AutomatedTask.agent row = AutomatedTask.agent task
              /\ AutomatedTask.policy row = AutomatedTask.policy task
              /\ AutomatedTask.managed_by_policy row = true
              /\ AutomatedTask.parent_task row = Some p
              /\ AutomatedTask.script row = AutomatedTask.script task))
  /\ (forall check p,
        In check (Policy.agentchecks checks agent) ->
        Check.managed_by_policy check = true ->
        Check.parent_check check = Some p ->
        ~ In p (map Check.pk (final_list checks agent policies)) ->
        forall row, In row (fst (cascade_policy_checks checks agent policies)) ->
                    Check.pk row <> Check.pk check).
Proof.
  intros Ht Hc. split.
  - intros task p Hin Hm Hp Hna. split; intros Hs.
    + now apply (task_retired_deleted is_supported_script) with (p := p).
    + split.
      * exists (AutomatedTask.set_sync_status task "pendingdeletion").
        split; [|reflexivity].
        now apply (task_retired_pending is_supported_script) with (p := p).
      * intros row Hrow E.
        rewrite (task_retired_pending_row is_supported_script tasks agent
                   policies task p row) by assumption.
        simpl. repeat split; auto.
  - intros check p Hin Hm Hp Hna.
    now apply (check_retired_deleted is_supported_script) with (p := p).
Qed.

(** C3, as the code has it.  A pending-deletion task of the agent whose
    parent is among the accepted tasks is set to [notsynced] in place:
    its row stays, and the row with its primary key has sync status
    [notsynced] and the other columns of the task.  When the task is
    managed by policy its template is not returned as new.
    [cascade_policy_checks] has no such step: a check whose parent is
    among the accepted checks stays in the table with the sync status it
    had, and no row of the check table changes its sync status. *)
Theorem C3_revival (tasks : list AutomatedTask.t) (checks : list Check.t)
  (agent : Agent.t) (policies : Policy.AgentPolicies) :
  NoDup (map AutomatedTask.pk tasks) ->
  NoDup (map Check.pk checks) ->
  (forall task p,
     In task (Policy.agent_autotasks tasks agent) ->
     AutomatedTask.sync_status task = "pendingdeletion"%string ->
     AutomatedTask.parent_task task = Some p ->
     In p (map AutomatedTask.pk (accepted_tasks tasks agent policies)) ->
     (exists row,
        In row (fst (cascade_policy_tasks tasks agent policies))
        /\ AutomatedTask.pk row = AutomatedTask.pk task)
     /\ (forall row,
           In row (fst (cascade_policy_tasks tasks agent policies)) ->
           AutomatedTask.pk row = AutomatedTask.pk task ->
           AutomatedTask.sync_status row = "notsynced"%string
           /\ AutomatedTask.agent row = AutomatedTask.agent task
           /\ AutomatedTask.policy row = AutomatedTask.policy task
           /\ AutomatedTask.managed_by_policy row
              = AutomatedTask.managed_by_policy task
           /\ AutomatedTask.parent_task row = Some p
           /\ AutomatedTask.script row = AutomatedTask.script task)
     /\ (AutomatedTask.managed_by_policy task = true ->
         forall template,
           In template (snd (cascade_policy_tasks tasks agent policies)) ->
           AutomatedTask.pk template <> p))
  /\ (forall check p,
        In check checks ->
        Check.parent_check check = Some p ->
        In p (map Check.pk (final_list checks agent policies)) ->
        exists row,
          In row (fst (cascade_policy_checks checks agent policies))
          /\ Check.pk row = Check.pk check
          /\ Check.sync_status row = Check.sync_status check)
  /\ (forall row,
        In row (fst (cascade_policy_checks checks agent policies)) ->
        exists r, In r checks /\ Check.pk r = Check.pk row
                  /\ Check.sync_status r = Check.sync_status row).
Proof.
  intros Ht Hc. split; [|split].
  - intros task p Hin Hs Hp Hacc. split; [|split].
    + exists (AutomatedTask.set_sync_status task "notsynced").
      split; [|reflexivity].
      now apply (task_revived is_supported_script) with (p := p).
    + intros row Hrow E.
      rewrite (task_revived_row is_supported_script tasks agent policies
                 task p row) by assumption.
      simpl. repeat split; auto.
    + intros Hm template Htpl.
      now apply (task_template_not_new is_supported_script tasks agent
                   policies task).
  - intros check p Hin Hp Hacc.
    now apply (check_kept_status is_supported_script) with (p := p).
  - intros row Hrow.
    now apply (cascade_checks_keeps_status is_supported_script) in Hrow.
Qed.

(** C4. The loop runs over the checks of the enforced active policies
    (agent, site, client, default level), then the agent's own unmanaged
    checks, then the checks of the active policies that are not enforced.
    A check has a key when the block of its type applies on the agent.
    The first template with a key is accepted; every accepted check is a
    template that comes first with its key; and a check of the agent that
    comes after a check with its key is not removed: its row is in the
    table after the call, and the row with its primary key has
    [overriden_by_policy = true] and the agent, type, parent, sync status
    and key of the check. *)
Theorem C4_precedence_and_override (table : list Check.t) (agent : Agent.t)
  (policies : Policy.AgentPolicies) :
  NoDup (map Check.pk table) ->
  Policy.candidates table agent policies
  = flat_map (Policy.checks_where
                (fun pol => Policy.active pol && Policy.enforced pol) table)
      (Policy.policy_levels policies)
    ++ Policy.agent_checks table agent
    ++ flat_map (Policy.checks_where
                   (fun pol => Policy.active pol
                               && negb (Policy.enforced pol)) table)
         (Policy.policy_levels policies)
  /\ (forall l1 c l2 k,
        Policy.candidates table agent policies = l1 ++ c :: l2 ->
        check_key agent c = Some k ->
        (forall c', In c' l1 -> check_key agent c' <> Some k) ->
        Check.agent c = None ->
        In c (final_list table agent policies))
  /\ (forall c,
        In c (final_list table agent policies) ->
        exists l1 l2 k,
          Policy.candidates table agent policies = l1 ++ c :: l2
          /\ check_key agent c = Some k
          /\ Check.agent c = None
          /\ forall c', In c' l1 -> check_key agent c' <> Some k)
  /\ (forall l1 c l2 k,
        Policy.candidates table agent policies = l1 ++ c :: l2 ->
        check_key agent c = Some k ->
        (exists c', In c' l1 /\ check_key agent c' = Some k) ->
        In c (Policy.agent_checks table agent) ->
        (exists row,
           In row (fst (cascade_policy_checks table agent policies))
           /\ Check.pk row = Check.pk c)
        /\ forall row,
             In row (fst (cascade_policy_checks table agent policies)) ->
             Check.pk row = Check.pk c ->
             Check.overriden_by_policy row = true
             /\ Check.agent row = Check.agent c
             /\ Check.check_type row = Check.check_type c
             /\ Check.managed_by_policy row = false
             /\ Check.parent_check row = Check.parent_check c
             /\ Check.sync_status row = Check.sync_status c
             /\ check_key agent row = Some k).
Proof.
  intros Hnd. split; [|split; [|split]].
  - unfold Policy.candidates. now rewrite collected_checks_levels.
  - intros l1 c l2 k E Hk Hfirst Ha.
    apply final_list_In. rewrite E.
    apply first_templates_first with (k := k); auto.
    now apply has_agent_false.
  - intros c Hc. apply final_list_In in Hc.
    pose proof (first_templates_inv _ _ _ _ _ Hc) as [_ [Ha _]].
    apply first_templates_is_first in Hc.
    destruct Hc as [l1 [l2 [k [E [Hk Hfirst]]]]].
    exists l1, l2, k. repeat split; auto. now apply has_agent_false.
  - intros l1 c l2 k E Hk Hearlier Hown.
    apply agent_checks_inv in Hown. destruct Hown as [_ [Ha Hm]].
    assert (Hov : In c (Policy.overridden_checks is_supported_script agent []
                          (Policy.candidates table agent policies))).
    { rewrite E. apply overridden_checks_later with (k := k); auto.
      unfold Check.has_agent. now rewrite Ha. }
    split.
    + exists (Check.set_overriden_by_policy c true). split; [|reflexivity].
      now apply overridden_check_saved.
    + intros row Hrow Epk.
      rewrite (overridden_check_row is_supported_script table agent policies
                 c row) by assumption.
      simpl. repeat split; auto.
Qed.

(** C6, as the code has it.  The accepted list is grouped by type in the
    order diskspace, ping, cpuload, memory, winsvc, script, eventlog, and
    so is the returned list, which is the accepted list without the
    templates that are already materialized.  No two accepted checks have
    the same key.  On a windows agent, when a template is the first
    candidate with its drive, it is the one accepted diskspace check for
    that drive. *)
Theorem C6_order_and_dedup (table : list Check.t) (agent : Agent.t)
  (policies : Policy.AgentPolicies) :
  let final := final_list table agent policies in
  let returned := snd (cascade_policy_checks table agent policies) in
  final = Policy.of_type "diskspace" final ++ Policy.of_type "ping" final
          ++ Policy.of_type "cpuload" final ++ Policy.of_type "memory" final
          ++ Policy.of_type "winsvc" final ++ Policy.of_type "script" final
          ++ Policy.of_type "eventlog" final
  /\ returned
     = Policy.of_type "diskspace" returned ++ Policy.of_type "ping" returned
       ++ Policy.of_type "cpuload" returned
       ++ Policy.of_type "memory" returned
       ++ Policy.of_type "winsvc" returned
       ++ Policy.of_type "script" returned
       ++ Policy.of_type "eventlog" returned
  /\ returned
     = filter (fun check =>
                 negb (mem_opt (Some (Check.pk check))
                         (Policy.agent_checks_parent_pks table agent)))
         final
  /\ NoDup (map (check_key agent) final)
  /\ (forall c1 c2,
        In c1 final -> In c2 final ->
        check_key agent c1 = check_key agent c2 -> c1 = c2)
  /\ (forall l1 c l2,
        Policy.candidates table agent policies = l1 ++ c :: l2 ->
        Agent.plat agent = "windows"%string ->
        Check.check_type c = "diskspace"%string ->
        Check.agent c = None ->
        (forall c', In c' l1 -> Check.check_type c' = "diskspace"%string ->
                    Check.disk c' <> Check.disk c) ->
        filter (fun x =>
                  String.eqb (Check.check_type x) "diskspace"
                  && String.eqb (Check.disk x) (Check.disk c))
               final
        = [c]).
Proof.
  intros final returned.
  assert (Hgrouped : final = List.concat (Policy.split_by_type final)).
  { unfold final. rewrite final_list_first_templates.
    symmetry. apply split_by_type_grouped. }
  assert (Hreturned : returned
            = filter (fun check =>
                        negb (mem_opt (Some (Check.pk check))
                                (Policy.agent_checks_parent_pks table agent)))
                final) by reflexivity.
  assert (Hnd : NoDup (map (check_key agent) final))
    by apply final_list_NoDup.
  split; [|split; [|split; [|split; [|split]]]]; auto.
  - rewrite Hgrouped at 1. unfold Policy.split_by_type, Policy.check_types.
    simpl. now rewrite app_nil_r.
  - assert (H : returned = List.concat (Policy.split_by_type returned)).
    { rewrite Hreturned, split_by_type_filter. now rewrite <- Hgrouped. }
    rewrite H at 1. unfold Policy.split_by_type, Policy.check_types.
    simpl. now rewrite app_nil_r.
  - intros c1 c2 H1 H2 E. now apply (NoDup_map_inj (check_key agent) final).
  - intros l1 c l2 E Hw Hty Ha Hfirst.
    assert (Hk : check_key agent c
                 = Some (Policy.diskspace_key (Check.disk c)))
      by now apply check_key_diskspace.
    assert (Hc : In c final).
    { apply final_list_In. rewrite E.
      apply first_templates_first
        with (k := Policy.diskspace_key (Check.disk c)); auto.
      - intros c' Hc' Hk'. unfold Policy.check_key in Hk'. rewrite Hw in Hk'.
        simpl in Hk'.
        destruct (String.eqb_spec (Check.check_type c') "diskspace")
          as [Ety|_].
        + injection Hk' as Hd. now apply (Hfirst c').
        + repeat match type of Hk' with
                 | context [String.eqb (Check.check_type c') ?s] =>
                     destruct (String.eqb (Check.check_type c') s)
                 | context [is_supported_script ?a ?b] =>
                     destruct (is_supported_script a b)
                 end; discriminate.
      - now apply has_agent_false. }
    apply (filter_singleton (check_key agent)); auto.
    + rewrite Hty, !String.eqb_refl. reflexivity.
    + intros x Hx Hp. apply andb_true_iff in Hp. destruct Hp as [H1 H2].
      apply String.eqb_eq in H1, H2. rewrite Hk, <- H2.
      now apply check_key_diskspace.
Qed.

(** C7. On an agent whose platform is not windows no diskspace, cpuload,
    memory, winsvc or eventlog check is accepted; on every agent an
    accepted script check has a shell the agent supports, and so has the
    script of every accepted task. *)
Theorem C7_platform_filtering (checks : list Check.t)
  (tasks : list AutomatedTask.t) (agent : Agent.t)
  (policies : Policy.AgentPolicies) :
  (Agent.plat agent <> "windows"%string ->
   forall c, In c (final_list checks agent policies) ->
             Check.check_type c <> "diskspace"%string
             /\ Check.check_type c <> "cpuload"%string
             /\ Check.check_type c <> "memory"%string
             /\ Check.check_type c <> "winsvc"%string
             /\ Check.check_type c <> "eventlog"%string)
  /\ (forall c, In c (final_list checks agent policies) ->
                Check.check_type c = "script"%string ->
                is_supported_script agent (Script.shell (Check.script c))
                = true)
  /\ (forall t, In t (accepted_tasks tasks agent policies) ->
                is_supported_script agent
                  (Script.shell (AutomatedTask.script t)) = true)
  /\ (forall c, In c (snd (cascade_policy_checks checks agent policies)) ->
                In c (final_list checks agent policies))
  /\ (forall t, In t (snd (cascade_policy_tasks tasks agent policies)) ->
                In t (accepted_tasks tasks agent policies)).
Proof.
  split; [|split; [|split; [|split]]].
  - intros Hw c Hc. apply final_list_In, first_templates_inv in Hc.
    destruct Hc as [_ [_ [k [Hk _]]]].
    destruct (check_key_not_windows _ _ _ _ Hk Hw) as [E|E];
      rewrite E; repeat split; discriminate.
  - intros c Hc Hty. apply final_list_In, first_templates_inv in Hc.
    destruct Hc as [_ [_ [k [Hk _]]]].
    now apply (check_key_script _ _ _ _ Hk).
  - intros t Ht. now apply accepted_tasks_supported in Ht.
  - intros c Hc. unfold Policy.cascade_policy_checks in Hc. simpl in Hc.
    apply filter_In in Hc. tauto.
  - intros t Ht. now apply returned_tasks_accepted in Ht.
Qed.

(** C9. Every check [cascade_policy_checks] returns is a template, a
    check with no agent taken from the checks of an active policy of one
    of the four levels, and not one of the agent's own checks; the
    returned checks have keys, no two the same; and no managed check of
    the agent in the table has a returned check as its parent. *)
Theorem C9_returned_checks (table : list Check.t) (agent : Agent.t)
  (policies : Policy.AgentPolicies) :
  let returned := snd (cascade_policy_checks table agent policies) in
  (forall c, In c returned ->
             Check.agent c = None
             /\ ~ In c (Policy.agent_checks table agent)
             /\ exists pol, In (Some pol) (Policy.policy_levels policies)
                            /\ Policy.active pol = true
                            /\ In c (Policy.policychecks table pol))
  /\ (forall c, In c returned -> check_key agent c <> None)
  /\ NoDup (map (check_key agent) returned)
  /\ (forall c1 c2, In c1 returned -> In c2 returned ->
                    check_key agent c1 = check_key agent c2 -> c1 = c2)
  /\ (forall c row,
        In c returned ->
        In row table ->
        Check.agent row = Some (Agent.pk agent) ->
        Check.managed_by_policy row = true ->
        Check.parent_check row <> Some (Check.pk c)).
Proof.
  intros returned.
  assert (Hret : forall c, In c returned ->
            In c (final_list table agent policies)
            /\ ~ In (Some (Check.pk c))
                   (Policy.agent_checks_parent_pks table agent)).
  { intros c Hc. unfold returned, Policy.cascade_policy_checks in Hc.
    simpl in Hc. apply filter_In in Hc. destruct Hc as [Hc Hn].
    split; [assumption|]. apply negb_true_iff in Hn.
    intros H. apply mem_opt_In in H. congruence. }
  assert (Hkeys : NoDup (map (check_key agent) returned)).
  { unfold returned, Policy.cascade_policy_checks. simpl.
    apply NoDup_map_filter. apply final_list_NoDup. }
  split; [|split; [|split; [|split]]].
  - intros c Hc. apply Hret in Hc. destruct Hc as [Hc _].
    apply final_list_In, first_templates_inv in Hc.
    destruct Hc as [Hc [Ha _]]. apply has_agent_false in Ha.
    assert (Hown : ~ In c (Policy.agent_checks table agent)).
    { intros H. apply agent_checks_inv in H. destruct H as [_ [H _]].
      congruence. }
    repeat split; auto.
    unfold Policy.candidates in Hc. rewrite collected_checks_levels in Hc.
    apply in_app_or in Hc. destruct Hc as [Hc|Hc].
    + apply checks_where_inv in Hc. destruct Hc as [pol [H1 [H2 H3]]].
      exists pol. apply andb_true_iff in H2. tauto.
    + apply in_app_or in Hc. destruct Hc as [Hc|Hc]; [contradiction|].
      apply checks_where_inv in Hc. destruct Hc as [pol [H1 [H2 H3]]].
      exists pol. apply andb_true_iff in H2. tauto.
  - intros c Hc. apply Hret in Hc. destruct Hc as [Hc _].
    apply final_list_In, first_templates_inv in Hc.
    destruct Hc as [_ [_ [k [Hk _]]]]. congruence.
  - exact Hkeys.
  - intros c1 c2 H1 H2 E.
    now apply (NoDup_map_inj (check_key agent) returned).
  - intros c row Hc Hrow Hag Hm Hp. apply Hret in Hc.
    destruct Hc as [_ Hc]. apply Hc. rewrite <- Hp.
    unfold Policy.agent_checks_parent_pks, Policy.agentchecks.
    apply in_map, filter_In. split; [|assumption].
    apply filter_In. split; [assumption|].
    rewrite Hag. simpl. apply Nat.eqb_refl.
Qed.

End Claims.

(** ** Running the cascade twice *)

Section TwiceFacts.

Context {Row : Type}.

Lemma filter_filter_map_map (p : Row -> bool) (g : Row -> option Row)
  (m : Row -> Row) (table : list Row) :
  (forall r, In r table -> p r = true -> g r = Some (m r)) ->
  (forall r r', In r table -> g r = Some r' -> p r' = p r) ->
  filter p (filter_map g table) = map m (filter p table).
Proof.
  induction table as [|x l IH]; simpl; intros H1 H2; [reflexivity|].
  destruct (p x) eqn:Ep.
  - rewrite (H1 x) by auto. simpl.
    rewrite (H2 x (m x)) by auto. rewrite Ep. simpl.
    f_equal. apply IH; auto.
  - destruct (g x) as [x'|] eqn:Eg; simpl.
    + rewrite (H2 x x') by auto. rewrite Ep. apply IH; auto.
    + apply IH; auto.
Qed.

Lemma filter_all (p : Row -> bool) (l : list Row) :
  (forall r, In r l -> p r = true) -> filter p l = l.
Proof.
  induction l as [|x l IH]; simpl; intros H; [reflexivity|].
  rewrite (H x) by auto. f_equal. apply IH; auto.
Qed.

Lemma filter_none (p : Row -> bool) (l : list Row) :
  (forall r, In r l -> p r = false) -> filter p l = [].
Proof.
  induction l as [|x l IH]; simpl; intros H; [reflexivity|].
  rewrite (H x) by auto. apply IH; auto.
Qed.

Lemma filter_map_all (g : Row -> option Row) (l : list Row) :
  (forall r, In r l -> g r = Some r) -> filter_map g l = l.
Proof.
  intros H. rewrite (filter_map_ext_in g Some) by assumption.
  apply filter_map_Some.
Qed.

Lemma map_all (m : Row -> Row) (l : list Row) :
  (forall r, In r l -> m r = r) -> map m l = l.
Proof.
  intros H. rewrite (map_ext_in m (fun r => r)) by assumption.
  apply map_id.
Qed.

End TwiceFacts.

Section ChecksTwice.

Variable is_supported_script : Agent.t -> string -> bool.
Variable table : list Check.t.
Variable agent : Agent.t.
Variable policies : Policy.AgentPolicies.
Hypothesis table_ok : Policy.check_rows_ok table.

Local Abbreviation check_key := (Policy.check_key is_supported_script).
Local Abbreviation first_templates :=
  (Policy.first_templates is_supported_script).
Local Abbreviation overridden_checks :=
  (Policy.overridden_checks is_supported_script).
Local Abbreviation cands := (Policy.candidates table agent policies).
Local Abbreviation ov := (overridden_checks agent [] cands).
Local Abbreviation final :=
  (Policy.final_list is_supported_script table agent policies).
Local Abbreviation parents := (Policy.agent_checks_parent_pks table agent).
Local Abbreviation stale := (Policy.stale_check_pks parents final).
Local Abbreviation fate := (Policy.cascaded_check ov agent stale).
Local Abbreviation table1 :=
  (fst (Policy.cascade_policy_checks is_supported_script table agent
          policies)).
Local Abbreviation new :=
  (snd (Policy.cascade_policy_checks is_supported_script table agent
          policies)).
Local Abbreviation table2 :=
  (Policy.generate_policy_checks is_supported_script table agent policies).
Local Abbreviation mark :=
  (fun row : Check.t =>
     if mem_nat (Check.pk row) (map Check.pk ov)
     then Check.set_overriden_by_policy row true
     else row).

Lemma table1_rows : table1 = filter_map fate table.
Proof.
  destruct table_ok as [Hnd _].
  rewrite cascade_policy_checks_table by assumption.
  rewrite filter_filter_map. apply filter_map_ext_in. intros r _.
  unfold row_fate, Policy.overriden_instance, Policy.cascaded_check.
  destruct (mem_nat _ _); simpl; now destruct (Policy.is_stale_check _ _ _).
Qed.

Lemma mark_columns r :
  Check.pk (mark r) = Check.pk r
  /\ Check.agent (mark r) = Check.agent r
  /\ Check.policy (mark r) = Check.policy r
  /\ Check.managed_by_policy (mark r) = Check.managed_by_policy r
  /\ Check.parent_check (mark r) = Check.parent_check r
  /\ check_key agent (mark r) = check_key agent r
  /\ Check.has_agent (mark r) = Check.has_agent r.
Proof.
  cbv beta. destruct (mem_nat (Check.pk r) _); simpl; auto 10.
Qed.

Lemma cascaded_check_inv r r' :
  fate r = Some r' ->
  r' = mark r /\ Policy.is_stale_check agent stale (mark r) = false.
Proof.
  unfold Policy.cascaded_check.
  destruct (Policy.is_stale_check _ _ _) eqn:E; [discriminate|].
  intros [= <-]. auto.
Qed.

Lemma cascaded_check_pk r r' : fate r = Some r' -> Check.pk r' = Check.pk r.
Proof.
  intros H. apply cascaded_check_inv in H. destruct H as [-> _]. apply mark_columns.
Qed.

(** An overridden check is a direct check of the agent. *)
Lemma ov_direct c : In c ov -> In c (Policy.agent_checks table agent).
Proof.
  intros H. apply overridden_checks_inv in H. destruct H as [Hc Ha].
  apply candidates_inv in Hc. destruct Hc as [Hc [Hp|Hd]]; [|assumption].
  destruct table_ok as [_ Htpl]. apply Htpl in Hp; [|assumption].
  unfold Check.has_agent in Ha. rewrite Hp in Ha. discriminate.
Qed.

Lemma mark_no_agent r :
  In r table -> Check.has_agent r = false -> mark r = r.
Proof.
  intros Hr Ha. cbv beta.
  destruct (mem_nat (Check.pk r) _) eqn:E; [|reflexivity].
  apply mem_nat_In, in_map_iff in E. destruct E as [c [Epk Hc]].
  assert (Hct : In c table).
  { apply ov_direct, agent_checks_inv in Hc. tauto. }
  assert (c = r).
  { destruct table_ok as [Hnd _].
    apply (NoDup_map_inj Check.pk table); auto. }
  subst c. apply overridden_checks_inv in Hc. destruct Hc as [_ Hc].
  congruence.
Qed.

Lemma template_no_agent r :
  In r table -> Check.policy r <> None -> Check.has_agent r = false.
Proof.
  intros Hr Hp. destruct table_ok as [_ Htpl].
  unfold Check.has_agent. now rewrite (Htpl r Hr Hp).
Qed.

Lemma is_stale_no_agent l r :
  Check.has_agent r = false -> Policy.is_stale_check agent l r = false.
Proof.
  unfold Check.has_agent, Policy.is_stale_check.
  destruct (Check.agent r); [discriminate|]. reflexivity.
Qed.

(** The call leaves the template rows alone. *)
Lemma cascaded_check_template r :
  In r table -> Check.policy r <> None -> fate r = Some r.
Proof.
  intros Hr Hp. pose proof (template_no_agent r Hr Hp) as Ha.
  unfold Policy.cascaded_check.
  rewrite (mark_no_agent r Hr Ha), (is_stale_no_agent _ r Ha).
  reflexivity.
Qed.

Lemma table1_NoDup : NoDup (map Check.pk table1).
Proof.
  rewrite table1_rows. destruct table_ok as [Hnd _].
  apply NoDup_filter_map; [|assumption].
  intros r r' _ H. now apply cascaded_check_pk.
Qed.

Lemma create_checks_spec templates :
  forall t,
  exists created,
    fold_left (fun t c => Policy.create_policy_check c agent t) templates t
    = t ++ created
    /\ (forall r, In r created ->
                  Check.agent r = Some (Agent.pk agent)
                  /\ Check.policy r = None
                  /\ Check.managed_by_policy r = true
                  /\ exists tpl, In tpl templates
                                 /\ Check.parent_check r
                                    = Some (Check.pk tpl))
    /\ (forall tpl, In tpl templates ->
                    exists r, In r created
                              /\ Check.parent_check r = Some (Check.pk tpl))
    /\ (NoDup (map Check.pk t) -> NoDup (map Check.pk (t ++ created))).
Proof.
  induction templates as [|c l IH]; intros t; simpl.
  - exists []. rewrite app_nil_r.
    split; [reflexivity|]. split; [intros r []|].
    split; [intros tpl []|]. auto.
  - destruct (IH (Policy.create_policy_check c agent t))
      as [created [E [H1 [H2 H3]]]].
    unfold Policy.create_policy_check in *.
    set (row := Check.mk (fresh_pk Check.pk t) _ _ _ _ _ _ _ _ _ _ _ _ _) in *.
    exists (row :: created). rewrite E, <- app_assoc. simpl.
    split; [reflexivity|]. split; [|split].
    + intros r [<-|Hr].
      * simpl. repeat split; auto. exists c. auto.
      * destruct (H1 r Hr) as [Ha [Hp [Hm [tpl [Ht Hpar]]]]].
        repeat split; auto. exists tpl. auto.
    + intros tpl [<-|Ht].
      * exists row. simpl. auto.
      * destruct (H2 tpl Ht) as [r [Hr Hpar]]. exists r. auto.
    + intros Hnd. rewrite <- app_assoc in H3. simpl in H3. apply H3.
      rewrite map_app. simpl.
      apply Permutation_NoDup
        with (l := fresh_pk Check.pk t :: map Check.pk t).
      * apply Permutation_cons_append.
      * constructor; [apply fresh_pk_new | assumption].
Qed.

Lemma generate_policy_checks_fold :
  table2
  = fold_left (fun t c => Policy.create_policy_check c agent t) new table1.
Proof.
  unfold Policy.generate_policy_checks.
  now destruct (Policy.cascade_policy_checks _ _ _ _).
Qed.

Lemma new_accepted c : In c new -> In c final.
Proof.
  unfold Policy.cascade_policy_checks. simpl. rewrite filter_In. tauto.
Qed.

(** The table after the first run: the rows the cascade left, then the
    rows created for the new templates. *)
Lemma table2_rows :
  exists created,
    table2 = filter_map fate table ++ created
    /\ (forall r, In r created ->
                  Check.agent r = Some (Agent.pk agent)
                  /\ Check.policy r = None
                  /\ Check.managed_by_policy r = true
                  /\ exists tpl, In tpl new
                                 /\ Check.parent_check r
                                    = Some (Check.pk tpl))
    /\ (forall tpl, In tpl new ->
                    exists r, In r created
                              /\ Check.parent_check r = Some (Check.pk tpl))
    /\ NoDup (map Check.pk table2).
Proof.
  destruct (create_checks_spec new table1) as [created [E [H1 [H2 H3]]]].
  exists created. rewrite generate_policy_checks_fold, E.
  rewrite <- table1_rows.
  split; [reflexivity|]. split; [assumption|]. split; [assumption|].
  apply H3, table1_NoDup.
Qed.

Lemma policychecks_table2 pol :
  Policy.policychecks table2 pol = Policy.policychecks table pol.
Proof.
  destruct table2_rows as [created [E [Hcreated _]]]. rewrite E.
  unfold Policy.policychecks. rewrite filter_app.
  rewrite (filter_none _ created).
  - rewrite app_nil_r. apply filter_filter_map_keep.
    + intros r Hr Hp. apply cascaded_check_template; [assumption|].
      destruct (Check.policy r); [discriminate|]. discriminate.
    + intros r r' _ H. apply cascaded_check_inv in H. destruct H as [-> _].
      destruct (mark_columns r) as [_ [_ [Hp _]]]. now rewrite Hp.
  - intros r Hr. destruct (Hcreated r Hr) as [_ [Hp _]]. now rewrite Hp.
Qed.

Lemma agent_checks_filter t :
  Policy.agent_checks t agent
  = filter (fun c => fk_eqb (Check.agent c) (Some (Agent.pk agent))
                     && negb (Check.managed_by_policy c)) t.
Proof. unfold Policy.agent_checks, Policy.agentchecks. apply filter_filter. Qed.

Lemma agent_checks_table2 :
  Policy.agent_checks table2 agent
  = map mark (Policy.agent_checks table agent).
Proof.
  destruct table2_rows as [created [E [Hcreated _]]]. rewrite E.
  rewrite !agent_checks_filter, filter_app.
  rewrite (filter_none _ created).
  - rewrite app_nil_r. apply filter_filter_map_map.
    + intros r Hr Hd. apply andb_true_iff in Hd. destruct Hd as [_ Hm].
      apply negb_true_iff in Hm. unfold Policy.cascaded_check.
      assert (Hs : Policy.is_stale_check agent stale (mark r) = false).
      { unfold Policy.is_stale_check.
        destruct (mark_columns r) as [_ [_ [_ [Em _]]]].
        rewrite Em, Hm. now rewrite andb_false_r. }
      now rewrite Hs.
    + intros r r' _ H. apply cascaded_check_inv in H. destruct H as [-> _].
      destruct (mark_columns r) as [_ [Ea [_ [Em _]]]]. now rewrite Ea, Em.
  - intros r Hr. destruct (Hcreated r Hr) as [_ [_ [Hm _]]].
    rewrite Hm. apply andb_false_r.
Qed.

Lemma checks_where_table2 sel p :
  Policy.checks_where sel table2 p = Policy.checks_where sel table p.
Proof.
  unfold Policy.checks_where. destruct p as [pol|]; [|reflexivity].
  now rewrite policychecks_table2.
Qed.

Lemma mark_checks_where sel levels :
  map mark (flat_map (Policy.checks_where sel table) levels)
  = flat_map (Policy.checks_where sel table) levels.
Proof.
  apply map_all. intros c Hc. apply in_flat_map in Hc.
  destruct Hc as [p [_ Hc]]. apply checks_where_in_table in Hc.
  destruct Hc as [Hc Hp]. apply mark_no_agent; [assumption|].
  now apply template_no_agent.
Qed.

(** The second run sees the candidates of the first, the overridden ones
    with their flag set. *)
Lemma candidates_table2 :
  Policy.candidates table2 agent policies = map mark cands.
Proof.
  set (m := mark).
  unfold Policy.candidates. rewrite !collected_checks_levels.
  cbv iota. rewrite !map_app. subst m.
  rewrite !mark_checks_where, agent_checks_table2.
  f_equal; [|f_equal]; apply flat_map_ext; intros p;
    apply checks_where_table2.
Qed.

Lemma first_templates_mark l :
  forall seen,
    first_templates agent seen (map mark l)
    = map mark (first_templates agent seen l).
Proof.
  induction l as [|x l IH]; intros seen; [reflexivity|].
  cbn [map Policy.first_templates].
  destruct (mark_columns x) as [_ [_ [_ [_ [_ [Ek Ea]]]]]].
  rewrite Ek, Ea.
  destruct (check_key agent x) as [k|]; [|apply IH].
  destruct (Policy.mem_key k seen); [apply IH|].
  rewrite map_app, IH. now destruct (Check.has_agent x).
Qed.

Lemma overridden_checks_mark l :
  forall seen,
    overridden_checks agent seen (map mark l)
    = map mark (overridden_checks agent seen l).
Proof.
  induction l as [|x l IH]; intros seen; [reflexivity|].
  cbn [map Policy.overridden_checks].
  destruct (mark_columns x) as [_ [_ [_ [_ [_ [Ek Ea]]]]]].
  rewrite Ek, Ea.
  destruct (check_key agent x) as [k|]; [|apply IH].
  destruct (Policy.mem_key k seen); [|apply IH].
  rewrite map_app, IH. now destruct (Check.has_agent x).
Qed.

(** The second run accepts what the first accepted. *)
Lemma final_list_table2 :
  Policy.final_list is_supported_script table2 agent policies = final.
Proof.
  rewrite !final_list_first_templates, candidates_table2.
  rewrite first_templates_mark. f_equal. f_equal.
  apply map_all. intros c Hc. apply first_templates_inv in Hc.
  destruct Hc as [Hc [Ha _]]. apply mark_no_agent; [|assumption].
  now apply candidates_inv in Hc.
Qed.

(** The loop of the second run writes what is already there. *)
Lemma loop_result_table2 :
  Policy.checks_table
    (Policy.loop_result is_supported_script table2 agent policies)
  = table2.
Proof.
  destruct table2_rows as [created [E [_ [_ Hnd]]]].
  rewrite loop_result_rows by assumption.
  rewrite candidates_table2, overridden_checks_mark.
  apply filter_map_all. intros r Hr. unfold row_fate.
  destruct (mem_nat _ _) eqn:Hmem; [|reflexivity].
  apply mem_nat_In in Hmem. rewrite map_map in Hmem.
  apply in_map_iff in Hmem. destruct Hmem as [c [Epk Hc]].
  pose proof (ov_direct c Hc) as Hd. apply agent_checks_inv in Hd.
  destruct Hd as [Hct [_ Hm]].
  assert (Hfate : fate c = Some (mark c)).
  { unfold Policy.cascaded_check.
    assert (Hs : Policy.is_stale_check agent stale (mark c) = false).
    { unfold Policy.is_stale_check.
      destruct (mark_columns c) as [_ [_ [_ [Em _]]]].
      rewrite Em, Hm. now rewrite andb_false_r. }
    now rewrite Hs. }
  assert (Hin : In (mark c) table2).
  { rewrite E. apply in_or_app. left. apply in_filter_map. now exists c. }
  assert (r = mark c)
    by (apply (NoDup_map_inj Check.pk table2); auto).
  subst r. unfold Policy.overriden_instance. f_equal.
  cbv beta. rewrite (In_map_pk Check.pk c ov Hc). reflexivity.
Qed.

Lemma parents_In t p :
  In (Some p) (Policy.agent_checks_parent_pks t agent) <->
  exists r, In r t /\ Check.agent r = Some (Agent.pk agent)
            /\ Check.managed_by_policy r = true
            /\ Check.parent_check r = Some p.
Proof.
  unfold Policy.agent_checks_parent_pks, Policy.agentchecks.
  rewrite in_map_iff. split.
  - intros [r [Ep Hr]]. rewrite !filter_In, fk_eqb_Some in Hr.
    exists r. tauto.
  - intros [r [Hr [Ha [Hm Hp]]]]. exists r. split; [assumption|].
    rewrite !filter_In, fk_eqb_Some. tauto.
Qed.

Lemma is_stale_check_true l r :
  Policy.is_stale_check agent l r = true <->
  Check.agent r = Some (Agent.pk agent)
  /\ Check.managed_by_policy r = true
  /\ exists p, Check.parent_check r = Some p /\ In (Some p) l.
Proof.
  unfold Policy.is_stale_check.
  rewrite !andb_true_iff, fk_eqb_Some. split.
  - intros [[Ha Hm] Hp]. repeat split; auto.
    destruct (Check.parent_check r) as [p|];
      [|now rewrite fk_in_None in Hp].
    exists p. split; [reflexivity|]. now apply fk_in_Some.
  - intros [Ha [Hm [p [Hp Hin]]]]. repeat split; auto.
    rewrite Hp. now apply fk_in_Some.
Qed.

(** After the first run every parent of a managed check of the agent is
    accepted. *)
Lemma parents_table2_accepted p :
  In (Some p) (Policy.agent_checks_parent_pks table2 agent) ->
  In p (map Check.pk final).
Proof.
  intros H. apply parents_In in H. destruct H as [r [Hr [Ha [Hm Hp]]]].
  destruct table2_rows as [created [E [Hcreated _]]].
  rewrite E in Hr. apply in_app_or in Hr. destruct Hr as [Hr|Hr].
  - apply in_filter_map in Hr. destruct Hr as [r0 [Hr0 Hf]].
    apply cascaded_check_inv in Hf. destruct Hf as [-> Hs].
    destruct (mark_columns r0) as [_ [Ea [_ [Em [Ep _]]]]].
    rewrite Ea in Ha. rewrite Em in Hm. rewrite Ep in Hp.
    destruct (mem_nat p (map Check.pk final)) eqn:Hmem;
      [now apply mem_nat_In|].
    apply mem_nat_false in Hmem. exfalso.
    assert (Hstale : Policy.is_stale_check agent stale (mark r0) = true).
    { apply is_stale_check_true. cbv beta. rewrite Ea, Em, Ep.
      repeat split; auto.
      exists p. split; [assumption|].
      apply stale_check_pks_In. split; [|assumption].
      apply parents_In. exists r0. auto. }
    cbv beta in Hstale. congruence.
  - destruct (Hcreated r Hr) as [_ [_ [_ [tpl [Htpl Hpar]]]]].
    rewrite Hp in Hpar. injection Hpar as ->.
    apply in_map. now apply new_accepted.
Qed.

(** After the first run every accepted template is materialized. *)
Lemma final_materialized t :
  In t final ->
  In (Some (Check.pk t)) (Policy.agent_checks_parent_pks table2 agent).
Proof.
  intros Ht. destruct table2_rows as [created [E [Hcreated [Hnew _]]]].
  destruct (mem_opt (Some (Check.pk t)) parents) eqn:Hmem.
  - apply mem_opt_In, parents_In in Hmem.
    destruct Hmem as [r0 [Hr0 [Ha [Hm Hp]]]].
    destruct (mark_columns r0) as [_ [Ea [_ [Em [Ep _]]]]].
    apply parents_In. exists (mark r0). cbv beta. rewrite Ea, Em, Ep.
    repeat split; auto. rewrite E. apply in_or_app. left.
    apply in_filter_map. exists r0. split; [assumption|].
    unfold Policy.cascaded_check. cbv zeta beta.
    destruct (Policy.is_stale_check agent stale _) eqn:Hs; [|reflexivity].
    apply is_stale_check_true in Hs.
    destruct Hs as [_ [_ [p [Hp' Hin]]]].
    rewrite Ep, Hp in Hp'. injection Hp' as <-.
    apply stale_check_pks_In in Hin. destruct Hin as [_ Hin].
    exfalso. apply Hin. now apply in_map.
  - assert (Hn : In t new).
    { unfold Policy.cascade_policy_checks. simpl. apply filter_In.
      split; [assumption|]. now rewrite Hmem. }
    destruct (Hnew t Hn) as [r [Hr Hpar]].
    destruct (Hcreated r Hr) as [Ha [_ [Hm _]]].
    apply parents_In. exists r. repeat split; auto.
    rewrite E. apply in_or_app. now right.
Qed.

(** Run on the table the first run left, [cascade_policy_checks] changes
    nothing and returns nothing. *)
Lemma cascade_policy_checks_twice :
  Policy.cascade_policy_checks is_supported_script table2 agent policies
  = (table2, []).
Proof.
  unfold Policy.cascade_policy_checks.
  fold (Policy.final_list is_supported_script table2 agent policies).
  rewrite loop_result_table2, final_list_table2. f_equal.
  - unfold Policy.delete_stale_checks.
    apply filter_all. intros r Hr. apply negb_true_iff.
    match goal with
    | |- ?b = false => destruct b eqn:Hs; [|reflexivity]
    end.
    fold (Policy.is_stale_check agent
            (Policy.stale_check_pks
               (Policy.agent_checks_parent_pks table2 agent) final) r) in Hs.
    apply is_stale_check_true in Hs.
    destruct Hs as [_ [_ [p [_ Hin]]]].
    apply stale_check_pks_In in Hin. destruct Hin as [Hin Hna].
    exfalso. apply Hna. now apply parents_table2_accepted.
  - apply filter_none. intros t Ht. apply negb_false_iff.
    apply mem_opt_In. now apply final_materialized.
Qed.

Lemma generate_policy_checks_twice :
  Policy.generate_policy_checks is_supported_script table2 agent policies
  = table2.
Proof.
  unfold Policy.generate_policy_checks at 1.
  now rewrite cascade_policy_checks_twice.
Qed.

End ChecksTwice.

Section TasksTwice.

Variable is_supported_script : Agent.t -> string -> bool.
Variable table : list AutomatedTask.t.
Variable agent : Agent.t.
Variable policies : Policy.AgentPolicies.
Hypothesis table_ok : Policy.task_rows_ok table.

Local Abbreviation accepted :=
  (Policy.accepted_tasks is_supported_script table agent policies).
Local Abbreviation parents := (Policy.agent_tasks_parent_pks table agent).
Local Abbreviation fate := (Policy.cascaded_task parents agent accepted).
Local Abbreviation revive := (Policy.revive_task agent accepted).
Local Abbreviation table1 :=
  (fst (Policy.cascade_policy_tasks is_supported_script table agent
          policies)).
Local Abbreviation new :=
  (snd (Policy.cascade_policy_tasks is_supported_script table agent
          policies)).
Local Abbreviation table2 :=
  (Policy.generate_policy_tasks is_supported_script table agent policies).

Lemma tasks_table1_rows : table1 = filter_map fate table.
Proof.
  destruct table_ok as [Hnd _].
  now rewrite cascade_policy_tasks_table.
Qed.

Lemma set_sync_status_same r :
  AutomatedTask.set_sync_status r (AutomatedTask.sync_status r) = r.
Proof. now destruct r. Qed.

Lemma revive_task_columns l r :
  AutomatedTask.pk (Policy.revive_task agent l r) = AutomatedTask.pk r
  /\ AutomatedTask.agent (Policy.revive_task agent l r) = AutomatedTask.agent r
  /\ AutomatedTask.policy (Policy.revive_task agent l r)
     = AutomatedTask.policy r
  /\ AutomatedTask.managed_by_policy (Policy.revive_task agent l r)
     = AutomatedTask.managed_by_policy r
  /\ AutomatedTask.parent_task (Policy.revive_task agent l r)
     = AutomatedTask.parent_task r.
Proof. unfold Policy.revive_task. destruct (_ && _); simpl; auto. Qed.

Lemma revive_task_cases l r :
  Policy.revive_task agent l r = AutomatedTask.set_sync_status r "notsynced"
  \/ Policy.revive_task agent l r = r.
Proof.
  unfold Policy.revive_task.
  match goal with |- context [if ?c then _ else _] => destruct c end; auto.
Qed.

Lemma revive_task_twice l r :
  Policy.revive_task agent l (Policy.revive_task agent l r)
  = Policy.revive_task agent l r.
Proof.
  destruct (revive_task_cases l r) as [E|E]; rewrite E; [|assumption].
  unfold Policy.revive_task. simpl. now rewrite andb_false_r.
Qed.

Lemma revive_task_not_accepted l r p :
  AutomatedTask.parent_task r = Some p ->
  ~ In p (map AutomatedTask.pk l) ->
  Policy.revive_task agent l r = r.
Proof.
  intros Hp Hn. unfold Policy.revive_task. rewrite Hp.
  destruct (fk_in (Some p) _) eqn:E; [|now rewrite andb_false_r].
  apply fk_in_Some, In_Some_pk in E. contradiction.
Qed.

(** What the first run made of a row: revived, after it was retired to
    pending deletion when it was in the queryset of the retiring loop. *)
Lemma cascaded_task_inv r0 r :
  fate r0 = Some r ->
  (Policy.in_retire_queryset parents agent accepted r0 = false
   /\ r = revive r0)
  \/ (Policy.in_retire_queryset parents agent accepted r0 = true
      /\ r = revive (AutomatedTask.set_sync_status r0 "pendingdeletion")).
Proof.
  unfold Policy.cascaded_task.
  destruct (Policy.in_retire_queryset _ _ _ _).
  - unfold Policy.retired_task. destruct (String.eqb _ _); [discriminate|].
    simpl. intros [= <-]. auto.
  - simpl. intros [= <-]. auto.
Qed.

Lemma cascaded_task_columns r0 r :
  fate r0 = Some r ->
  AutomatedTask.pk r = AutomatedTask.pk r0
  /\ AutomatedTask.agent r = AutomatedTask.agent r0
  /\ AutomatedTask.policy r = AutomatedTask.policy r0
  /\ AutomatedTask.managed_by_policy r = AutomatedTask.managed_by_policy r0
  /\ AutomatedTask.parent_task r = AutomatedTask.parent_task r0.
Proof.
  intros H. apply cascaded_task_inv in H.
  destruct H as [[_ ->]|[_ ->]];
    destruct (revive_task_columns accepted r0) as [H1 [H2 [H3 [H4 H5]]]];
    destruct (revive_task_columns accepted
                (AutomatedTask.set_sync_status r0 "pendingdeletion"))
      as [G1 [G2 [G3 [G4 G5]]]];
    simpl in *; auto.
Qed.

Lemma in_retire_queryset_true parent_pks l r :
  Policy.in_retire_queryset parent_pks agent l r = true <->
  AutomatedTask.agent r = Some (Agent.pk agent)
  /\ exists p, AutomatedTask.parent_task r = Some p
               /\ In (Some p) parent_pks
               /\ ~ In p (map AutomatedTask.pk l).
Proof.
  unfold Policy.in_retire_queryset. rewrite andb_true_iff, fk_eqb_Some.
  split.
  - intros [Ha Hp]. split; [assumption|].
    destruct (AutomatedTask.parent_task r) as [p|];
      [|now rewrite fk_in_None in Hp].
    exists p. split; [reflexivity|].
    now apply fk_in_Some, stale_task_pks_In in Hp.
  - intros [Ha [p [Hp [H1 H2]]]]. split; [assumption|]. rewrite Hp.
    apply fk_in_Some, stale_task_pks_In. now split.
Qed.

Lemma task_no_agent_fate r :
  AutomatedTask.agent r = None -> fate r = Some r.
Proof.
  intros Ha. unfold Policy.cascaded_task, Policy.in_retire_queryset.
  rewrite Ha. simpl. unfold Policy.revive_task. rewrite Ha. reflexivity.
Qed.

Lemma tasks_table1_NoDup : NoDup (map AutomatedTask.pk table1).
Proof.
  rewrite tasks_table1_rows. destruct table_ok as [Hnd _].
  apply NoDup_filter_map; [|assumption].
  intros r r' _ H. now apply cascaded_task_columns in H.
Qed.

Lemma create_tasks_spec templates :
  forall t,
  exists created,
    fold_left (fun t c => Policy.create_policy_task c agent t) templates t
    = t ++ created
    /\ (forall r, In r created ->
                  AutomatedTask.agent r = Some (Agent.pk agent)
                  /\ AutomatedTask.policy r = None
                  /\ AutomatedTask.managed_by_policy r = true
                  /\ AutomatedTask.sync_status r = "initial"%string
                  /\ exists tpl, In tpl templates
                                 /\ AutomatedTask.parent_task r
                                    = Some (AutomatedTask.pk tpl))
    /\ (forall tpl, In tpl templates ->
                    exists r, In r created
                              /\ AutomatedTask.parent_task r
                                 = Some (AutomatedTask.pk tpl))
    /\ (NoDup (map AutomatedTask.pk t) ->
        NoDup (map AutomatedTask.pk (t ++ created))).
Proof.
  induction templates as [|c l IH]; intros t; simpl.
  - exists []. rewrite app_nil_r.
    split; [reflexivity|]. split; [intros r []|].
    split; [intros tpl []|]. auto.
  - destruct (IH (Policy.create_policy_task c agent t))
      as [created [E [H1 [H2 H3]]]].
    unfold Policy.create_policy_task in *.
    set (row := AutomatedTask.mk (fresh_pk AutomatedTask.pk t) _ _ _ _ _ _)
      in *.
    exists (row :: created). rewrite E, <- app_assoc. simpl.
    split; [reflexivity|]. split; [|split].
    + intros r [<-|Hr].
      * simpl. repeat split; auto. exists c. auto.
      * destruct (H1 r Hr) as [Ha [Hp [Hm [Hs [tpl [Ht Hpar]]]]]].
        repeat split; auto. exists tpl. auto.
    + intros tpl [<-|Ht].
      * exists row. simpl. auto.
      * destruct (H2 tpl Ht) as [r [Hr Hpar]]. exists r. auto.
    + intros Hnd. rewrite <- app_assoc in H3. simpl in H3. apply H3.
      rewrite map_app. simpl.
      apply Permutation_NoDup
        with (l := fresh_pk AutomatedTask.pk t :: map AutomatedTask.pk t).
      * apply Permutation_cons_append.
      * constructor; [apply fresh_pk_new | assumption].
Qed.

Lemma generate_policy_tasks_fold :
  table2
  = fold_left (fun t c => Policy.create_policy_task c agent t) new table1.
Proof.
  unfold Policy.generate_policy_tasks.
  now destruct (Policy.cascade_policy_tasks _ _ _ _).
Qed.

Lemma tasks_table2_rows :
  exists created,
    table2 = filter_map fate table ++ created
    /\ (forall r, In r created ->
                  AutomatedTask.agent r = Some (Agent.pk agent)
                  /\ AutomatedTask.policy r = None
                  /\ AutomatedTask.managed_by_policy r = true
                  /\ AutomatedTask.sync_status r = "initial"%string
                  /\ exists tpl, In tpl new
                                 /\ AutomatedTask.parent_task r
                                    = Some (AutomatedTask.pk tpl))
    /\ (forall tpl, In tpl new ->
                    exists r, In r created
                              /\ AutomatedTask.parent_task r
                                 = Some (AutomatedTask.pk tpl))
    /\ NoDup (map AutomatedTask.pk table2).
Proof.
  destruct (create_tasks_spec new table1) as [created [E [H1 [H2 H3]]]].
  exists created. rewrite generate_policy_tasks_fold, E.
  rewrite <- tasks_table1_rows.
  split; [reflexivity|]. split; [assumption|]. split; [assumption|].
  apply H3, tasks_table1_NoDup.
Qed.

Lemma policy_autotasks_table2 pol :
  Policy.policy_autotasks table2 pol = Policy.policy_autotasks table pol.
Proof.
  destruct tasks_table2_rows as [created [E [Hcreated _]]]. rewrite E.
  unfold Policy.policy_autotasks. rewrite filter_app.
  rewrite (filter_none _ created).
  - rewrite app_nil_r. apply filter_filter_map_keep.
    + intros r Hr Hp. apply task_no_agent_fate.
      destruct table_ok as [_ Htpl]. apply Htpl; [assumption|].
      destruct (AutomatedTask.policy r); [discriminate|]. discriminate.
    + intros r r' _ H. apply cascaded_task_columns in H.
      destruct H as [_ [_ [Hp _]]]. now rewrite Hp.
  - intros r Hr. destruct (Hcreated r Hr) as [_ [Hp _]]. now rewrite Hp.
Qed.

Lemma add_policy_tasks_table2 p tasks :
  Policy.add_policy_tasks table2 p tasks
  = Policy.add_policy_tasks table p tasks.
Proof.
  unfold Policy.add_policy_tasks. destruct p as [pol|]; [|reflexivity].
  now rewrite policy_autotasks_table2.
Qed.

(** The second run accepts what the first accepted. *)
Lemma accepted_tasks_table2 :
  Policy.accepted_tasks is_supported_script table2 agent policies = accepted.
Proof.
  unfold Policy.accepted_tasks. now rewrite !add_policy_tasks_table2.
Qed.

Lemma task_parents_In t p :
  In (Some p) (Policy.agent_tasks_parent_pks t agent) <->
  exists r, In r t /\ AutomatedTask.agent r = Some (Agent.pk agent)
            /\ AutomatedTask.managed_by_policy r = true
            /\ AutomatedTask.parent_task r = Some p.
Proof.
  unfold Policy.agent_tasks_parent_pks, Policy.agent_autotasks.
  rewrite in_map_iff. split.
  - intros [r [Ep Hr]]. rewrite !filter_In, fk_eqb_Some in Hr.
    exists r. tauto.
  - intros [r [Hr [Ha [Hm Hp]]]]. exists r. split; [assumption|].
    rewrite !filter_In, fk_eqb_Some. tauto.
Qed.

Lemma new_tasks_accepted t : In t new -> In t accepted.
Proof.
  unfold Policy.cascade_policy_tasks. simpl. rewrite filter_In. tauto.
Qed.

(** A parent of a managed task after the first run that is not accepted
    was a parent of a managed task before. *)
Lemma task_parents_table2 p :
  In (Some p) (Policy.agent_tasks_parent_pks table2 agent) ->
  ~ In p (map AutomatedTask.pk accepted) ->
  In (Some p) parents.
Proof.
  intros H Hna. apply task_parents_In in H.
  destruct H as [r [Hr [Ha [Hm Hp]]]].
  destruct tasks_table2_rows as [created [E [Hcreated _]]].
  rewrite E in Hr. apply in_app_or in Hr. destruct Hr as [Hr|Hr].
  - apply in_filter_map in Hr. destruct Hr as [r0 [Hr0 Hf]].
    apply cascaded_task_columns in Hf.
    destruct Hf as [_ [Ea [_ [Em Ep]]]].
    apply task_parents_In. exists r0. repeat split; auto; congruence.
  - destruct (Hcreated r Hr) as [_ [_ [_ [_ [tpl [Htpl Hpar]]]]]].
    rewrite Hp in Hpar. injection Hpar as ->.
    exfalso. apply Hna, in_map. now apply new_tasks_accepted.
Qed.

(** The second run writes to each row what it already holds. *)
Lemma cascaded_task_table2 r :
  In r table2 ->
  Policy.cascaded_task (Policy.agent_tasks_parent_pks table2 agent) agent
    accepted r
  = Some r.
Proof.
  intros Hr. unfold Policy.cascaded_task.
  destruct tasks_table2_rows as [created [E [Hcreated _]]].
  rewrite E in Hr.
  destruct (Policy.in_retire_queryset _ agent accepted r) eqn:Hq.
  - apply in_retire_queryset_true in Hq.
    destruct Hq as [Ha [p [Hp [Hin Hna]]]].
    apply task_parents_table2 in Hin; [|assumption].
    apply in_app_or in Hr. destruct Hr as [Hr|Hr].
    + apply in_filter_map in Hr. destruct Hr as [r0 [Hr0 Hf]].
      pose proof (cascaded_task_columns _ _ Hf) as [_ [Ea [_ [_ Ep]]]].
      apply cascaded_task_inv in Hf. destruct Hf as [[Hq _]|[_ ->]].
      * assert (Hq' : Policy.in_retire_queryset parents agent accepted r0
                      = true).
        { apply in_retire_queryset_true. split; [congruence|].
          exists p. repeat split; auto. congruence. }
        congruence.
      * rewrite (revive_task_not_accepted accepted _ p)
          by (simpl; congruence).
        unfold Policy.retired_task. simpl.
        rewrite (revive_task_not_accepted accepted _ p)
          by (simpl; congruence).
        reflexivity.
    + destruct (Hcreated r Hr) as [_ [_ [_ [_ [tpl [Htpl Hpar]]]]]].
      rewrite Hp in Hpar. injection Hpar as ->.
      exfalso. apply Hna, in_map. now apply new_tasks_accepted.
  - simpl. f_equal.
    apply in_app_or in Hr. destruct Hr as [Hr|Hr].
    + apply in_filter_map in Hr. destruct Hr as [r0 [Hr0 Hf]].
      apply cascaded_task_inv in Hf.
      destruct Hf as [[_ ->]|[_ ->]]; apply revive_task_twice.
    + destruct (Hcreated r Hr) as [_ [_ [_ [Hs _]]]].
      unfold Policy.revive_task. rewrite Hs. simpl.
      now rewrite andb_false_r.
Qed.

(** After the first run every accepted template is materialized. *)
Lemma accepted_materialized t :
  In t accepted ->
  In (Some (AutomatedTask.pk t)) (Policy.agent_tasks_parent_pks table2 agent).
Proof.
  intros Ht. destruct tasks_table2_rows as [created [E [Hcreated [Hnew _]]]].
  destruct (mem_opt (Some (AutomatedTask.pk t)) parents) eqn:Hmem.
  - apply mem_opt_In, task_parents_In in Hmem.
    destruct Hmem as [r0 [Hr0 [Ha [Hm Hp]]]].
    assert (Hf : fate r0 = Some (revive r0)).
    { unfold Policy.cascaded_task.
      rewrite (in_retire_queryset_accepted _ _ _ _ (AutomatedTask.pk t));
        auto.
      now apply in_map. }
    pose proof (cascaded_task_columns _ _ Hf) as [_ [Ea [_ [Em Ep]]]].
    apply task_parents_In. exists (revive r0).
    repeat split; try congruence.
    rewrite E. apply in_or_app. left. apply in_filter_map. now exists r0.
  - assert (Hn : In t new).
    { unfold Policy.cascade_policy_tasks. simpl. apply filter_In.
      split; [assumption|]. now rewrite Hmem. }
    destruct (Hnew t Hn) as [r [Hr Hpar]].
    destruct (Hcreated r Hr) as [Ha [_ [Hm _]]].
    apply task_parents_In. exists r. repeat split; auto.
    rewrite E. apply in_or_app. now right.
Qed.

(** Run on the table the first run left, [cascade_policy_tasks] changes
    nothing and returns nothing. *)
Lemma cascade_policy_tasks_twice :
  Policy.cascade_policy_tasks is_supported_script table2 agent policies
  = (table2, []).
Proof.
  destruct tasks_table2_rows as [_ [_ [_ [_ Hnd]]]].
  rewrite (surjective_pairing
             (Policy.cascade_policy_tasks is_supported_script table2 agent
                policies)).
  f_equal.
  - rewrite cascade_policy_tasks_table by assumption.
    rewrite accepted_tasks_table2.
    apply filter_map_all. intros r Hr.
    now apply cascaded_task_table2.
  - unfold Policy.cascade_policy_tasks. simpl.
    rewrite accepted_tasks_table2.
    apply filter_none. intros t Ht. apply negb_false_iff.
    apply mem_opt_In. now apply accepted_materialized.
Qed.

Lemma generate_policy_tasks_twice :
  Policy.generate_policy_tasks is_supported_script table2 agent policies
  = table2.
Proof.
  unfold Policy.generate_policy_tasks at 1.
  now rewrite cascade_policy_tasks_twice.
Qed.

End TasksTwice.

(** C5. On tables with unique primary keys whose template rows have no
    agent, run [generate_policy_checks] (the cascade, then a managed check
    created for each returned template) and [generate_policy_tasks]
    once.  A second [cascade_policy_checks] returns the empty list and
    leaves the check table as it is, and so does a second
    [generate_policy_checks]; the same holds of the tasks. *)
Theorem C5_idempotence (is_supported_script : Agent.t -> string -> bool)
  (checks : list Check.t) (tasks : list AutomatedTask.t) (agent : Agent.t)
  (policies : Policy.AgentPolicies) :
  Policy.check_rows_ok checks ->
  Policy.task_rows_ok tasks ->
  let checks' :=
    Policy.generate_policy_checks is_supported_script checks agent policies in
  let tasks' :=
    Policy.generate_policy_tasks is_supported_script tasks agent policies in
  Policy.cascade_policy_checks is_supported_script checks' agent policies
  = (checks', [])
  /\ Policy.generate_policy_checks is_supported_script checks' agent policies
     = checks'
  /\ Policy.cascade_policy_tasks is_supported_script tasks' agent policies
     = (tasks', [])
  /\ Policy.generate_policy_tasks is_supported_script tasks' agent policies
     = tasks'.
Proof.
  intros Hc Ht checks' tasks'. repeat split.
  - now apply cascade_policy_checks_twice.
  - now apply generate_policy_checks_twice.
  - now apply cascade_policy_tasks_twice.
  - now apply generate_policy_tasks_twice.
Qed.

(** ** The claims at sample data *)

Ltac distinct_pks := repeat constructor; simpl; intuition discriminate.

(** C2 at two managed tasks and a managed check whose templates are gone:
    the synced task is kept, pending deletion, the task that was never
    synced is deleted, the check is deleted. *)
Lemma C2_witness :
  (exists row,
     In row (fst (Policy.cascade_policy_tasks Sample.supports_all
                    [Sample.synced_task; Sample.initial_task] Sample.agent10
                    Sample.no_policies))
     /\ AutomatedTask.pk row = 1
     /\ AutomatedTask.sync_status row = "pendingdeletion"%string)
  /\ (forall row,
        In row (fst (Policy.cascade_policy_tasks Sample.supports_all
                       [Sample.synced_task; Sample.initial_task]
                       Sample.agent10 Sample.no_policies)) ->
        AutomatedTask.pk row <> AutomatedTask.pk Sample.initial_task)
  /\ (forall row,
        In row (fst (Policy.cascade_policy_checks Sample.supports_all
                       [Sample.synced_check] Sample.agent10
                       Sample.no_policies)) ->
        Check.pk row <> Check.pk Sample.synced_check).
Proof.
  destruct (C2_retirement Sample.supports_all
              [Sample.synced_task; Sample.initial_task]
              [Sample.synced_check] Sample.agent10 Sample.no_policies)
    as [Htasks Hchecks]; [distinct_pks | distinct_pks |].
  split; [|split].
  - destruct (Htasks Sample.synced_task 9) as [_ Hkept]; simpl; auto.
    destruct Hkept as [[row [Hrow E]] Hall]; [discriminate|].
    exists row. split; [assumption|]. split; [assumption|].
    now apply Hall.
  - apply (Htasks Sample.initial_task 8); simpl; auto.
  - apply (Hchecks Sample.synced_check 9); simpl; auto.
Defined.

(** C2 as stated fails for checks: a managed check that was synced and
    whose template is not accepted is deleted at once, not kept pending
    deletion. *)
Lemma C2_counterexample_synced_check_deleted :
  In Sample.synced_check
     (Policy.agentchecks [Sample.synced_check] Sample.agent10)
  /\ Check.managed_by_policy Sample.synced_check = true
  /\ Check.parent_check Sample.synced_check = Some 9
  /\ ~ In 9 (map Check.pk
               (Policy.final_list Sample.supports_all [Sample.synced_check]
                  Sample.agent10 Sample.no_policies))
  /\ Check.sync_status Sample.synced_check <> "initial"%string
  /\ fst (Policy.cascade_policy_checks Sample.supports_all
            [Sample.synced_check] Sample.agent10 Sample.no_policies)
     = [].
Proof.
  repeat split; simpl; auto; try discriminate.
Qed.

(** C3 at a pending-deletion task whose template is accepted again, and
    at a pending-deletion check whose template is accepted. *)
Lemma C3_witness :
  (exists row,
     In row (fst (Policy.cascade_policy_tasks Sample.supports_all
                    [Sample.task_template; Sample.pending_task]
                    Sample.agent10 Sample.site_level_policy))
     /\ AutomatedTask.pk row = 1
     /\ AutomatedTask.sync_status row = "notsynced"%string)
  /\ (forall template,
        In template
          (snd (Policy.cascade_policy_tasks Sample.supports_all
                  [Sample.task_template; Sample.pending_task]
                  Sample.agent10 Sample.site_level_policy)) ->
        AutomatedTask.pk template <> 9)
  /\ exists row,
       In row (fst (Policy.cascade_policy_checks Sample.supports_all
                      [Sample.ping_template; Sample.pending_check]
                      Sample.agent10 Sample.site_level_policy))
       /\ Check.pk row = Check.pk Sample.pending_check
       /\ Check.sync_status row = Check.sync_status Sample.pending_check.
Proof.
  destruct (C3_revival Sample.supports_all
              [Sample.task_template; Sample.pending_task]
              [Sample.ping_template; Sample.pending_check]
              Sample.agent10 Sample.site_level_policy)
    as [Htasks [Hchecks _]]; [distinct_pks | distinct_pks |].
  destruct (Htasks Sample.pending_task 9)
    as [[row [Hrow E]] [Hall Hnew]]; simpl; auto.
  split; [|split].
  - exists row. split; [assumption|]. split; [assumption|].
    now apply Hall.
  - now apply Hnew.
  - apply (Hchecks Sample.pending_check 9); simpl; auto.
Defined.

(** C3 as stated fails for checks: the template of a pending-deletion
    check is accepted and the check is still pending deletion after
    [cascade_policy_checks]. *)
Lemma C3_counterexample_check_not_revived :
  In Sample.pending_check
     (Policy.agentchecks [Sample.ping_template; Sample.pending_check]
        Sample.agent10)
  /\ Check.sync_status Sample.pending_check = "pendingdeletion"%string
  /\ Check.parent_check Sample.pending_check = Some 9
  /\ In 9 (map Check.pk
             (Policy.final_list Sample.supports_all
                [Sample.ping_template; Sample.pending_check] Sample.agent10
                Sample.site_level_policy))
  /\ fst (Policy.cascade_policy_checks Sample.supports_all
            [Sample.ping_template; Sample.pending_check] Sample.agent10
            Sample.site_level_policy)
     = [Sample.ping_template; Sample.pending_check].
Proof.
  repeat split; simpl; auto.
Qed.

(** The part of C3 left out above: a pending-deletion task that points at
    an accepted template and is not managed by policy is set to
    [notsynced], and its template is returned as new all the same, so
    that [generate_policy_tasks] adds a second task of that template. *)
Lemma unmanaged_pending_task_template_returned :
  Policy.cascade_policy_tasks Sample.supports_all
    [Sample.task_template; Sample.unmanaged_pending_task] Sample.agent10
    Sample.site_level_policy
  = ([Sample.task_template;
      AutomatedTask.mk 1 (Some 10) None false (Some 9) "notsynced"
        Sample.powershell],
     [Sample.task_template])
  /\ List.length
       (Policy.generate_policy_tasks Sample.supports_all
          [Sample.task_template; Sample.unmanaged_pending_task]
          Sample.agent10 Sample.site_level_policy)
     = 3.
Proof. split; reflexivity. Qed.

(** C4 at an enforced policy and a plain policy that both have a template
    for drive C:, on a windows agent with its own check for drive C:: the
    enforced template is accepted and the agent's check is saved as
    overridden. *)
Lemma C4_witness :
  In Sample.disk_template_one
     (Policy.final_list Sample.supports_all Sample.disk_table Sample.agent10
        Sample.enforced_and_plain)
  /\ exists row,
       In row (fst (Policy.cascade_policy_checks Sample.supports_all
                      Sample.disk_table Sample.agent10
                      Sample.enforced_and_plain))
       /\ Check.pk row = 1
       /\ Check.overriden_by_policy row = true.
Proof.
  destruct (C4_precedence_and_override Sample.supports_all Sample.disk_table
              Sample.agent10 Sample.enforced_and_plain)
    as [_ [Hfirst [_ Hlater]]]; [distinct_pks |].
  split.
  - apply (Hfirst [] Sample.disk_template_one
             [Sample.direct_disk; Sample.disk_template_two]
             (Policy.diskspace_key "C:")); simpl; auto.
  - destruct (Hlater [Sample.disk_template_one] Sample.direct_disk
                [Sample.disk_template_two] (Policy.diskspace_key "C:"))
      as [[row [Hrow E]] Hall]; simpl; auto.
    { exists Sample.disk_template_one. simpl. auto. }
    exists row. split; [assumption|]. split; [assumption|].
    now apply Hall.
Defined.

(** C6 at the same tables: the enforced template is the one accepted
    diskspace check for drive C:. *)
Lemma C6_witness :
  filter (fun x =>
            String.eqb (Check.check_type x) "diskspace"
            && String.eqb (Check.disk x) "C:")
         (Policy.final_list Sample.supports_all Sample.disk_table
            Sample.agent10 Sample.enforced_and_plain)
  = [Sample.disk_template_one].
Proof.
  apply (proj2 (proj2 (proj2 (proj2 (proj2
           (C6_order_and_dedup Sample.supports_all Sample.disk_table
              Sample.agent10 Sample.enforced_and_plain)))))
           [] Sample.disk_template_one
           [Sample.direct_disk; Sample.disk_template_two]);
    simpl; auto.
Defined.

(** C6 as stated fails: two active policies both have a template for
    drive C:, the windows agent has its own check for drive C:, and no
    diskspace check for drive C: is accepted. *)
Lemma C6_counterexample_none_accepted :
  Agent.plat Sample.agent10 = "windows"%string
  /\ In Sample.disk_template_one
        (Policy.policychecks Sample.disk_table Sample.policy_plain)
  /\ In Sample.disk_template_two
        (Policy.policychecks Sample.disk_table Sample.policy_two)
  /\ Policy.active Sample.policy_plain = true
  /\ Policy.active Sample.policy_two = true
  /\ filter (fun x =>
               String.eqb (Check.check_type x) "diskspace"
               && String.eqb (Check.disk x) "C:")
            (Policy.final_list Sample.supports_all Sample.disk_table
               Sample.agent10 Sample.two_policies)
     = [].
Proof.
  repeat split; simpl; auto.
Qed.

(** C7 at a linux agent under a policy with a ping template: the accepted
    check is not of a windows-only type. *)
Lemma C7_witness :
  Check.check_type Sample.ping_template <> "diskspace"%string
  /\ Check.check_type Sample.ping_template <> "cpuload"%string
  /\ Check.check_type Sample.ping_template <> "memory"%string
  /\ Check.check_type Sample.ping_template <> "winsvc"%string
  /\ Check.check_type Sample.ping_template <> "eventlog"%string.
Proof.
  apply (proj1 (C7_platform_filtering Sample.supports_all
                  [Sample.ping_template; Sample.disk_template_one] []
                  Sample.linux_agent Sample.site_level_policy)).
  - simpl. discriminate.
  - simpl. auto.
Defined.

(** C9 at two ping templates of the site policy, the managed check the
    agent has of the first one, and a direct ping check of the agent: the
    second template is returned, the first one and the direct check are
    not. *)
Lemma C9_witness :
  In Sample.gateway_template
     (snd (Policy.cascade_policy_checks Sample.supports_all
             Sample.materialized_table Sample.agent10
             Sample.site_level_policy))
  /\ Check.agent Sample.gateway_template = None
  /\ ~ In Sample.gateway_template
         (Policy.agent_checks Sample.materialized_table Sample.agent10)
  /\ ~ In Sample.ping_template
         (snd (Policy.cascade_policy_checks Sample.supports_all
                 Sample.materialized_table Sample.agent10
                 Sample.site_level_policy))
  /\ ~ In Sample.direct_ping
         (snd (Policy.cascade_policy_checks Sample.supports_all
                 Sample.materialized_table Sample.agent10
                 Sample.site_level_policy)).
Proof.
  destruct (C9_returned_checks Sample.supports_all Sample.materialized_table
              Sample.agent10 Sample.site_level_policy)
    as [Htemplate [_ [_ [_ Hnew]]]].
  assert (Hin : In Sample.gateway_template
                  (snd (Policy.cascade_policy_checks Sample.supports_all
                          Sample.materialized_table Sample.agent10
                          Sample.site_level_policy)))
    by (simpl; auto).
  split; [assumption|]. split; [|split; [|split]].
  - now apply (Htemplate Sample.gateway_template).
  - now apply (Htemplate Sample.gateway_template).
  - intros H.
    apply (Hnew Sample.ping_template Sample.synced_check H);
      simpl; auto.
  - intros H. apply Htemplate in H. destruct H as [H _]. discriminate H.
Defined.

(** C5 at the tables of C4 and C3: the second run returns nothing and
    changes nothing. *)
Lemma C5_witness :
  Policy.cascade_policy_checks Sample.supports_all
    (Policy.generate_policy_checks Sample.supports_all Sample.disk_table
       Sample.agent10 Sample.enforced_and_plain)
    Sample.agent10 Sample.enforced_and_plain
  = (Policy.generate_policy_checks Sample.supports_all Sample.disk_table
       Sample.agent10 Sample.enforced_and_plain, [])
  /\ Policy.cascade_policy_tasks Sample.supports_all
       (Policy.generate_policy_tasks Sample.supports_all
          [Sample.task_template; Sample.pending_task] Sample.agent10
          Sample.enforced_and_plain)
       Sample.agent10 Sample.enforced_and_plain
     = (Policy.generate_policy_tasks Sample.supports_all
          [Sample.task_template; Sample.pending_task] Sample.agent10
          Sample.enforced_and_plain, []).
Proof.
  destruct (C5_idempotence Sample.supports_all Sample.disk_table
              [Sample.task_template; Sample.pending_task] Sample.agent10
              Sample.enforced_and_plain)
    as [Hchecks [_ [Htasks _]]].
  - split; [distinct_pks|].
    intros row [<-|[<-|[<-|[]]]] Hp; simpl in *; congruence.
  - split; [distinct_pks|].
    intros row [<-|[<-|[]]] Hp; simpl in *; congruence.
  - split; assumption.
Defined.

(** * Further properties *)

(** ** The three paths of the scope *)

Lemma explicit_agents_iff db P mt a :
  In a (Policy.explicit_agents db P mt) <->
  In a (agents db)
  /\ fk_eqb (Agent.policy a) (Policy.pk P) = true
  /\ Agent.monitoring_type a = mt
  /\ Policy.is_agent_excluded db P a = false.
Proof.
  unfold Policy.explicit_agents, Policy.policy_agents,
    Policy.is_agent_excluded.
  rewrite !filter_In, !negb_true_iff, MonType_eqb_eq, !orb_false_iff.
  tauto.
Qed.

Lemma site_inherited_iff db P mt a :
  NoDup (map Agent.pk (agents db)) ->
  In a (agents db) ->
  In (Agent.pk a) (Policy.site_inherited_pks db P mt) <->
  Agent.block_policy_inheritance a = false
  /\ Agent.monitoring_type a = mt
  /\ exists s, In s (Policy.explicit_sites db P mt)
               /\ Site.pk s = Agent.site a
               /\ ~ In (Site.client s)
                      (map Client.pk (Policy.explicit_clients db P mt))
               /\ ~ In (Site.client s) (Policy.excluded_clients P).
Proof.
  intros Hnd Ha. unfold Policy.site_inherited_pks. split.
  - intros H. apply in_map_iff in H. destruct H as [b [E H]].
    rewrite !filter_In in H. destruct H as [[Hb Hnb] H].
    assert (b = a) by (apply (NoDup_map_inj Agent.pk (agents db)); auto).
    subst b. apply negb_true_iff in Hnb.
    apply andb_true_iff in H. destruct H as [Hs Hmt].
    apply MonType_eqb_eq in Hmt.
    apply mem_nat_In, in_map_iff in Hs. destruct Hs as [s [Es Hs]].
    apply filter_In in Hs. destruct Hs as [Hs Hc].
    apply andb_true_iff in Hc. destruct Hc as [H1 H2].
    apply negb_true_iff, mem_nat_false in H1, H2.
    repeat split; auto. exists s. auto.
  - intros [Hnb [Hmt [s [Hs [Es [H1 H2]]]]]].
    apply in_map. rewrite !filter_In. repeat split; auto.
    + now rewrite Hnb.
    + apply andb_true_iff. split; [|now apply MonType_eqb_eq].
      rewrite <- Es. apply In_map_pk. apply filter_In.
      split; [assumption|]. apply andb_true_iff.
      split; apply negb_true_iff, mem_nat_false; assumption.
Qed.

Lemma client_inherited_iff db P mt a :
  NoDup (map Agent.pk (agents db)) ->
  In a (agents db) ->
  In (Agent.pk a) (Policy.client_inherited_pks db P mt) <->
  Agent.block_policy_inheritance a = false
  /\ Agent.monitoring_type a = mt
  /\ exists s, Policy.site_of db a = Some s
               /\ Site.block_policy_inheritance s = false
               /\ In (Site.client s)
                    (map Client.pk (Policy.explicit_clients db P mt)).
Proof.
  intros Hnd Ha. unfold Policy.client_inherited_pks, Policy.client_of. split.
  - intros H. apply in_map_iff in H. destruct H as [b [E H]].
    rewrite !filter_In in H. destruct H as [[[Hb Hnb] Hsb] H].
    assert (b = a) by (apply (NoDup_map_inj Agent.pk (agents db)); auto).
    subst b. apply negb_true_iff in Hnb.
    apply andb_true_iff in H. destruct H as [Hc Hmt].
    apply MonType_eqb_eq in Hmt.
    destruct (Policy.site_of db a) as [s|]; [|discriminate].
    simpl in Hc. apply negb_true_iff in Hsb. apply mem_nat_In in Hc.
    repeat split; auto. exists s. auto.
  - intros [Hnb [Hmt [s [Hs [Hsb Hc]]]]].
    apply in_map. rewrite !filter_In. rewrite Hs. simpl.
    repeat split; auto.
    + now rewrite Hnb.
    + now rewrite Hsb.
    + apply andb_true_iff. split; [now apply mem_nat_In|].
      now apply MonType_eqb_eq.
Qed.

(** X1. With unique agent keys, an agent is in the scope of a policy
    exactly when it is a row of the agent table and one of three holds:
    the policy is assigned to it, it has the monitoring type and none of
    the exclusion sets holds it, its site or its client; or it does not
    block inheritance, has the monitoring type, and its site is assigned
    the policy and not excluded while the site's client is neither
    assigned the policy nor excluded; or it does not block inheritance,
    has the monitoring type, its site does not block inheritance, and its
    client is assigned the policy and not excluded. *)
Theorem get_related_iff (db : Tables) (P : Policy.t) (mt : MonType)
  (A : Agent.t) :
  NoDup (map Agent.pk (agents db)) ->
  In A (Policy.get_related db P mt) <->
  In A (agents db)
  /\ ((fk_eqb (Agent.policy A) (Policy.pk P) = true
       /\ Agent.monitoring_type A = mt
       /\ Policy.is_agent_excluded db P A = false)
      \/ (Agent.block_policy_inheritance A = false
          /\ Agent.monitoring_type A = mt
          /\ exists s, In s (Policy.explicit_sites db P mt)
                       /\ Site.pk s = Agent.site A
                       /\ ~ In (Site.client s)
                              (map Client.pk
                                 (Policy.explicit_clients db P mt))
                       /\ ~ In (Site.client s) (Policy.excluded_clients P))
      \/ (Agent.block_policy_inheritance A = false
          /\ Agent.monitoring_type A = mt
          /\ exists s, Policy.site_of db A = Some s
                       /\ Site.block_policy_inheritance s = false
                       /\ In (Site.client s)
                            (map Client.pk
                               (Policy.explicit_clients db P mt)))).
Proof.
  intros Hnd. split.
  - intros H. apply get_related_inv in H. destruct H as [Ha H].
    split; [assumption|]. destruct H as [H|[H|H]].
    + right. left. now apply site_inherited_iff in H.
    + right. right. now apply client_inherited_iff in H.
    + left. apply explicit_agents_by_pk in H; auto.
      apply explicit_agents_iff in H. tauto.
  - intros [Ha H]. unfold Policy.get_related. apply filter_In.
    split; [assumption|]. apply orb_true_iff.
    destruct H as [H|[H|H]].
    + right. apply In_map_pk. apply explicit_agents_iff. tauto.
    + left. apply mem_nat_In, in_or_app. left.
      now apply site_inherited_iff.
    + left. apply mem_nat_In, in_or_app. right.
      now apply client_inherited_iff.
Qed.

Lemma get_related_iff_witness :
  In Sample.agent11
     (Policy.get_related Sample.db_blocking_agent Sample.policy_plain server).
Proof.
  apply (proj2 (get_related_iff Sample.db_blocking_agent Sample.policy_plain
                  server Sample.agent11
                  ltac:(simpl; repeat constructor; simpl; tauto))).
  simpl. auto.
Defined.

(** X2. With unique agent keys, every agent in [get_related self mt] has
    monitoring type [mt]; so no agent is in both the server and the
    workstation scope of a policy. *)
Theorem get_related_monitoring_type (db : Tables) (P : Policy.t)
  (mt : MonType) (A : Agent.t) :
  NoDup (map Agent.pk (agents db)) ->
  In A (Policy.get_related db P mt) ->
  Agent.monitoring_type A = mt
  /\ forall mt', mt' <> mt -> ~ In A (Policy.get_related db P mt').
Proof.
  intros Hnd H.
  assert (Hmt : forall m, In A (Policy.get_related db P m) ->
                          Agent.monitoring_type A = m).
  { intros m Hm. apply get_related_iff in Hm; [|assumption].
    destruct Hm as [_ [Hm|[Hm|Hm]]]; tauto. }
  split; [now apply Hmt|].
  intros mt' Hne H'. apply Hmt in H, H'. congruence.
Qed.

Lemma get_related_monitoring_type_witness :
  Agent.monitoring_type Sample.agent11 = server
  /\ forall mt', mt' <> server ->
       ~ In Sample.agent11
           (Policy.get_related Sample.db_blocking_agent Sample.policy_plain
              mt').
Proof.
  apply (get_related_monitoring_type Sample.db_blocking_agent
           Sample.policy_plain server Sample.agent11).
  - simpl. repeat constructor. simpl. tauto.
  - simpl. auto.
Defined.

Lemma excluded_client_out_of_scope_witness :
  ~ In Sample.agent10
      (Policy.get_related Sample.db_client_assigned
         Sample.policy_excluding_client server).
Proof.
  apply (excluded_client_out_of_scope Sample.db_client_assigned
           Sample.policy_excluding_client server Sample.agent10 7).
  - unfold unique_pks; simpl.
    repeat split; repeat constructor; simpl; tauto.
  - reflexivity.
  - simpl. auto.
Defined.

(** X4. With unique agent keys, an agent the policy excludes (itself, its
    site or its client) that is in the scope is there by inheritance
    only: it does not block inheritance and its site or its client is
    assigned the policy.  An agent of an excluded site that is in the
    scope is there through its client. *)
Theorem excluded_only_inherited (db : Tables) (P : Policy.t) (mt : MonType)
  (A : Agent.t) :
  NoDup (map Agent.pk (agents db)) ->
  In A (Policy.get_related db P mt) ->
  (Policy.is_agent_excluded db P A = true ->
   Agent.block_policy_inheritance A = false
   /\ ((exists s, In s (Policy.explicit_sites db P mt)
                  /\ Site.pk s = Agent.site A)
       \/ (exists s, Policy.site_of db A = Some s
                     /\ In (Site.client s)
                          (map Client.pk
                             (Policy.explicit_clients db P mt)))))
  /\ (In (Agent.site A) (Policy.excluded_sites P) ->
      exists s, Policy.site_of db A = Some s
                /\ Site.block_policy_inheritance s = false
                /\ In (Site.client s)
                     (map Client.pk (Policy.explicit_clients db P mt))).
Proof.
  intros Hnd H. apply get_related_iff in H; [|assumption].
  destruct H as [Ha H]. split.
  - intros Hex. destruct H as [[_ [_ H]]|[H|H]]; [congruence| |].
    + destruct H as [Hnb [_ [s [Hs [Es _]]]]]. split; [assumption|].
      left. exists s. auto.
    + destruct H as [Hnb [_ [s [Hs [_ Hc]]]]]. split; [assumption|].
      right. exists s. auto.
  - intros Hex. destruct H as [[_ [_ H]]|[H|H]].
    + unfold Policy.is_agent_excluded in H.
      apply mem_nat_In in Hex. rewrite Hex, orb_true_r in H. discriminate.
    + destruct H as [_ [_ [s [Hs [Es _]]]]].
      unfold Policy.explicit_sites in Hs. apply filter_In in Hs.
      destruct Hs as [_ Hs]. apply negb_true_iff, mem_nat_false in Hs.
      rewrite Es in Hs. contradiction.
    + destruct H as [_ [_ [s H]]]. exists s. assumption.
Qed.

Lemma excluded_only_inherited_witness :
  exists s,
    Policy.site_of Sample.db_client_assigned Sample.agent10 = Some s
    /\ Site.block_policy_inheritance s = false
    /\ In (Site.client s)
         (map Client.pk
            (Policy.explicit_clients Sample.db_client_assigned
               Sample.policy_excluding_site server)).
Proof.
  apply (proj2 (excluded_only_inherited Sample.db_client_assigned
                  Sample.policy_excluding_site server Sample.agent10
                  ltac:(simpl; repeat constructor; simpl; tauto)
                  ltac:(simpl; auto))).
  simpl. auto.
Defined.

(** X5. With unique keys, when a site blocks inheritance and its client
    is assigned the policy (and not excluded), an agent of the site is in
    the scope only when the policy is assigned to the agent itself, also
    when the policy is assigned to the site as well: the site path skips
    the sites whose client is assigned the policy, and the client path
    skips the agents of a blocking site. *)
Theorem blocking_site_under_assigned_client (db : Tables) (P : Policy.t)
  (mt : MonType) (A : Agent.t) (s : Site.t) :
  unique_pks db ->
  Policy.site_of db A = Some s ->
  Site.block_policy_inheritance s = true ->
  In (Site.client s) (map Client.pk (Policy.explicit_clients db P mt)) ->
  In A (Policy.get_related db P mt) ->
  fk_eqb (Agent.policy A) (Policy.pk P) = true.
Proof.
  intros [Hna [Hns _]] Hs Hblock Hclient H.
  apply get_related_iff in H; [|assumption].
  destruct H as [Ha [H|[H|H]]]; [tauto| |].
  - destruct H as [_ [_ [s' [Hs' [Es [Hnc _]]]]]].
    assert (s' = s).
    { apply (site_of_unique db A); auto.
      unfold Policy.explicit_sites, Policy.mon_type_sites in Hs'.
      rewrite !filter_In in Hs'. tauto. }
    subst s'. contradiction.
  - destruct H as [_ [_ [s' [Hs' [Hnb _]]]]]. congruence.
Qed.

Lemma blocking_site_under_assigned_client_witness :
  fk_eqb (Agent.policy Sample.agent11) (Policy.pk Sample.policy_plain) = true
  /\ ~ In Sample.agent10
         (Policy.get_related Sample.db_site_and_client Sample.policy_plain
            server).
Proof.
  split.
  - apply (blocking_site_under_assigned_client Sample.db_site_and_client
             Sample.policy_plain server Sample.agent11
             (Site.mk 5 7 true (Some 1) None)).
    + unfold unique_pks; simpl.
      repeat split; repeat constructor; simpl; intuition discriminate.
    + reflexivity.
    + reflexivity.
    + simpl. auto.
    + simpl. auto.
  - intros H.
    assert (E : fk_eqb (Agent.policy Sample.agent10)
                  (Policy.pk Sample.policy_plain) = true).
    { apply (blocking_site_under_assigned_client Sample.db_site_and_client
               Sample.policy_plain server Sample.agent10
               (Site.mk 5 7 true (Some 1) None)); auto.
      - unfold unique_pks; simpl.
        repeat split; repeat constructor; simpl; intuition discriminate.
      - simpl. auto. }
    discriminate E.
Defined.



(** X7. A stored policy that no agent, no site and no client of the
    monitoring type is assigned has an empty scope for that type. *)
Theorem get_related_unassigned (db : Tables) (P : Policy.t) (mt : MonType) :
  Policy.pk P <> None ->
  Policy.policy_agents db P = [] ->
  Policy.mon_type_sites db P mt = [] ->
  Policy.mon_type_clients db P mt = [] ->
  Policy.get_related db P mt = [].
Proof.
  intros _ Ha Hs Hc. unfold Policy.get_related.
  assert (E1 : Policy.explicit_agents db P mt = []).
  { unfold Policy.explicit_agents. now rewrite Ha. }
  assert (E2 : Policy.site_inherited_pks db P mt = []).
  { unfold Policy.site_inherited_pks, Policy.explicit_sites.
    rewrite Hs. simpl. rewrite (filter_none _ _); [reflexivity|].
    intros r _. reflexivity. }
  assert (E3 : Policy.client_inherited_pks db P mt = []).
  { unfold Policy.client_inherited_pks, Policy.explicit_clients.
    rewrite Hc. simpl. rewrite (filter_none _ _); [reflexivity|].
    intros r _. now destruct (Policy.client_of db r). }
  rewrite E1, E2, E3. simpl. apply filter_none. intros r _. reflexivity.
Qed.

Lemma get_related_unassigned_witness :
  Policy.get_related Sample.db_client_assigned Sample.policy_unassigned
    server = [].
Proof.
  apply (get_related_unassigned Sample.db_client_assigned
           Sample.policy_unassigned server);
    [simpl; discriminate | reflexivity | reflexivity | reflexivity].
Defined.

(** ** Saving a stored policy *)

(** X8. When the save of a policy whose primary key is set and stored
    returns, the instance comes back as it is, and the queue has got
    [generate_agent_checks_task(policy=pk, create_tasks=True)] exactly
    when [active] or [enforced] differs from the stored row, then
    [cache_agents_alert_template] exactly when [alert_template] differs,
    and nothing else. *)
Theorem save_stored_policy (table table' : list Policy.t)
  (self old self' : Policy.t) (jobs : list Job) :
  Policy.pk_truthy (Policy.pk self) = true ->
  Policy.objects_get table (Policy.pk self) = Some old ->
  Policy.save table self = Ok (table', self', jobs) ->
  self' = self
  /\ jobs
     = (if Bool.eqb (Policy.active old) (Policy.active self)
           && Bool.eqb (Policy.enforced old) (Policy.enforced self)
        then []
        else [generate_agent_checks_task (Policy.pk self) None true])
       ++ (if opt_eqb (Policy.alert_template old)
                (Policy.alert_template self)
           then []
           else [cache_agents_alert_template])
  /\ (forall pol ags ct,
        In (generate_agent_checks_task pol ags ct) jobs ->
        pol = Policy.pk self /\ ags = None /\ ct = true
        /\ (Policy.active old <> Policy.active self
            \/ Policy.enforced old <> Policy.enforced self))
  /\ (In cache_agents_alert_template jobs ->
      Policy.alert_template old <> Policy.alert_template self).
Proof.
  intros Hpk Hold Hsave. unfold Policy.save in Hsave.
  rewrite Hpk, Hold in Hsave. unfold Policy.super_save in Hsave.
  destruct (Policy.pk self) as [p|] eqn:Ep; [|discriminate].
  assert (Hex : existsb (fun q => fk_eqb (Policy.pk q) (Some p)) table
                = true).
  { apply existsb_exists. exists old. unfold Policy.objects_get in Hold.
    apply find_some in Hold. assumption. }
  rewrite Hex in Hsave. injection Hsave as _ <- <-.
  split; [reflexivity|]. rewrite Ep.
  destruct (Bool.eqb_spec (Policy.active old) (Policy.active self)) as [Ea|Ea],
    (Bool.eqb_spec (Policy.enforced old) (Policy.enforced self)) as [Ee|Ee],
    (opt_eqb (Policy.alert_template old) (Policy.alert_template self))
      eqn:Et;
    simpl; (split; [reflexivity|]); split;
    try (intros pol ags ct [H|H]; [|try destruct H as [H|H]];
         try discriminate H; try contradiction;
         injection H as <- <- <-; auto);
    try (intros [H|H]; [|try destruct H as [H|H]];
         try discriminate H; try contradiction;
         intros E; rewrite E in Et;
         assert (Hrefl : opt_eqb (Policy.alert_template self)
                           (Policy.alert_template self) = true)
           by (now apply opt_eqb_eq);
         congruence);
    try (intros pol ags ct []); try (intros []).
Qed.

Lemma save_stored_policy_witness :
  Policy.save [Sample.policy_row] Sample.policy_row_activated
  = Ok ([Sample.policy_row_activated], Sample.policy_row_activated,
        [generate_agent_checks_task (Some 1) None true])
  /\ forall pol ags ct,
       In (generate_agent_checks_task pol ags ct)
          [generate_agent_checks_task (Some 1) None true] ->
       pol = Some 1 /\ ags = None /\ ct = true
       /\ (Policy.active Sample.policy_row
           <> Policy.active Sample.policy_row_activated
           \/ Policy.enforced Sample.policy_row
              <> Policy.enforced Sample.policy_row_activated).
Proof.
  split; [reflexivity|].
  exact (proj1 (proj2 (proj2
           (save_stored_policy [Sample.policy_row]
              [Sample.policy_row_activated] Sample.policy_row_activated
              Sample.policy_row Sample.policy_row_activated
              [generate_agent_checks_task (Some 1) None true]
              eq_refl eq_refl eq_refl)))).
Defined.

(** ** More on the task cascade *)

Section FurtherTasks.

Variable is_supported_script : Agent.t -> string -> bool.

Local Abbreviation add_step :=
  (fun (tasks : list AutomatedTask.t) (task : AutomatedTask.t) =>
     if negb (mem_nat (AutomatedTask.pk task) (map AutomatedTask.pk tasks))
     then tasks ++ [task]
     else tasks).

Lemma add_tasks_fold_spec l :
  forall tasks,
    (NoDup (map AutomatedTask.pk tasks) ->
     NoDup (map AutomatedTask.pk (fold_left add_step l tasks)))
    /\ (forall x, In x tasks -> In x (fold_left add_step l tasks))
    /\ (forall x, In x l ->
                  In (AutomatedTask.pk x)
                     (map AutomatedTask.pk (fold_left add_step l tasks)))
    /\ (forall x, In x (fold_left add_step l tasks) ->
                  In x tasks \/ In x l).
Proof.
  induction l as [|t l IH]; intros tasks; simpl.
  - repeat split; auto. intros x [].
  - destruct (IH (add_step tasks t)) as [H1 [H2 [H3 H4]]].
    cbv beta in *.
    destruct (mem_nat (AutomatedTask.pk t) (map AutomatedTask.pk tasks))
      eqn:Hm; simpl in *.
    + repeat split; auto.
      * intros x [<-|Hx]; [|now apply H3].
        apply mem_nat_In, in_map_iff in Hm. destruct Hm as [y [E Hy]].
        rewrite <- E. apply in_map. now apply H2.
      * intros x Hx. destruct (H4 x Hx); auto.
    + repeat split.
      * intros Hnd. apply H1. rewrite map_app. simpl.
        apply Permutation_NoDup
          with (l := AutomatedTask.pk t :: map AutomatedTask.pk tasks).
        -- apply Permutation_cons_append.
        -- constructor; [now apply mem_nat_false|assumption].
      * intros x Hx. apply H2. apply in_or_app. auto.
      * intros x [<-|Hx]; [|now apply H3].
        apply in_map. apply H2. apply in_or_app. simpl. auto.
      * intros x Hx. destruct (H4 x Hx) as [H|H]; auto.
        apply in_app_or in H. destruct H as [H|[<-|[]]]; auto.
Qed.

Lemma add_policy_tasks_spec table p tasks :
  (NoDup (map AutomatedTask.pk tasks) ->
   NoDup (map AutomatedTask.pk (Policy.add_policy_tasks table p tasks)))
  /\ (forall x, In x tasks -> In x (Policy.add_policy_tasks table p tasks))
  /\ (forall pol x,
        p = Some pol -> Policy.active pol = true ->
        In x (Policy.policy_autotasks table pol) ->
        In (AutomatedTask.pk x)
           (map AutomatedTask.pk (Policy.add_policy_tasks table p tasks)))
  /\ (forall x, In x (Policy.add_policy_tasks table p tasks) ->
                In x tasks
                \/ exists pol, p = Some pol /\ Policy.active pol = true
                               /\ In x (Policy.policy_autotasks table pol)).
Proof.
  unfold Policy.add_policy_tasks. destruct p as [pol|].
  - destruct (Policy.active pol) eqn:Hact.
    + destruct (add_tasks_fold_spec (Policy.policy_autotasks table pol) tasks)
        as [H1 [H2 [H3 H4]]].
      repeat split; auto.
      * intros pol' x [= <-] _ Hx. now apply H3.
      * intros x Hx. destruct (H4 x Hx); auto. right. exists pol. auto.
    + repeat split; auto. intros pol' x [= <-]. congruence.
  - repeat split; auto. intros pol x. discriminate.
Qed.

(** The list [tasks] before the script filter. *)
Lemma collected_tasks_spec table policies :
  let tasks :=
    Policy.add_policy_tasks table (Policy.default_policy policies)
      (Policy.add_policy_tasks table (Policy.client_policy policies)
         (Policy.add_policy_tasks table (Policy.site_policy policies)
            (Policy.add_policy_tasks table (Policy.agent_policy policies)
               []))) in
  NoDup (map AutomatedTask.pk tasks)
  /\ (forall pol x,
        In (Some pol) (Policy.policy_levels policies) ->
        Policy.active pol = true ->
        In x (Policy.policy_autotasks table pol) ->
        In (AutomatedTask.pk x) (map AutomatedTask.pk tasks))
  /\ (forall x, In x tasks ->
                exists pol, In (Some pol) (Policy.policy_levels policies)
                            /\ Policy.active pol = true
                            /\ In x (Policy.policy_autotasks table pol)).
Proof.
  intros tasks. unfold tasks, Policy.policy_levels.
  set (t1 := Policy.add_policy_tasks table (Policy.agent_policy policies) []).
  set (t2 := Policy.add_policy_tasks table (Policy.site_policy policies) t1).
  set (t3 := Policy.add_policy_tasks table (Policy.client_policy policies) t2).
  destruct (add_policy_tasks_spec table (Policy.agent_policy policies) [])
    as [A1 [A2 [A3 A4]]].
  destruct (add_policy_tasks_spec table (Policy.site_policy policies) t1)
    as [B1 [B2 [B3 B4]]].
  destruct (add_policy_tasks_spec table (Policy.client_policy policies) t2)
    as [C1 [C2 [C3 C4]]].
  destruct (add_policy_tasks_spec table (Policy.default_policy policies) t3)
    as [D1 [D2 [D3 D4]]].
  fold t1 in A1, A2, A3, A4. fold t2 in B1, B2, B3, B4.
  fold t3 in C1, C2, C3, C4.
  split; [|split].
  - apply D1, C1, B1, A1. constructor.
  - intros pol x Hlevel Hact Hx. simpl in Hlevel.
    destruct Hlevel as [E|[E|[E|[E|[]]]]].
    + specialize (A3 pol x E Hact Hx). apply in_map_iff in A3.
      destruct A3 as [y [Ey Hy]]. rewrite <- Ey. apply in_map. auto.
    + specialize (B3 pol x E Hact Hx). apply in_map_iff in B3.
      destruct B3 as [y [Ey Hy]]. rewrite <- Ey. apply in_map. auto.
    + specialize (C3 pol x E Hact Hx). apply in_map_iff in C3.
      destruct C3 as [y [Ey Hy]]. rewrite <- Ey. apply in_map. auto.
    + now apply (D3 pol x).
  - intros x Hx. simpl.
    destruct (D4 x Hx) as [H|[pol [E H]]]; [|exists pol; rewrite E; tauto].
    destruct (C4 x H) as [H'|[pol [E H']]]; [|exists pol; rewrite E; tauto].
    destruct (B4 x H') as [H''|[pol [E H'']]];
      [|exists pol; rewrite E; tauto].
    destruct (A4 x H'') as [[]|[pol [E H3]]]. exists pol. rewrite E. tauto.
Qed.

(** X10. The accepted tasks have pairwise different primary keys, and so
    have the returned tasks, also when one policy stands at several
    levels. *)
Theorem accepted_tasks_distinct (table : list AutomatedTask.t)
  (agent : Agent.t) (policies : Policy.AgentPolicies) :
  NoDup (map AutomatedTask.pk
           (Policy.accepted_tasks is_supported_script table agent policies))
  /\ NoDup (map AutomatedTask.pk
              (snd (Policy.cascade_policy_tasks is_supported_script table
                      agent policies))).
Proof.
  assert (H : NoDup (map AutomatedTask.pk
                (Policy.accepted_tasks is_supported_script table agent
                   policies))).
  { unfold Policy.accepted_tasks. apply NoDup_map_filter.
    apply (collected_tasks_spec table policies). }
  split; [assumption|].
  unfold Policy.cascade_policy_tasks. simpl. now apply NoDup_map_filter.
Qed.

(** X11. An accepted task is a task of an active policy at one of the four
    levels whose script the agent supports; and with unique primary keys
    every such task is accepted. *)
Theorem accepted_tasks_iff (table : list AutomatedTask.t) (agent : Agent.t)
  (policies : Policy.AgentPolicies) (task : AutomatedTask.t) :
  NoDup (map AutomatedTask.pk table) ->
  In task (Policy.accepted_tasks is_supported_script table agent policies)
  <->
  is_supported_script agent (Script.shell (AutomatedTask.script task)) = true
  /\ exists pol, In (Some pol) (Policy.policy_levels policies)
                 /\ Policy.active pol = true
                 /\ In task (Policy.policy_autotasks table pol).
Proof.
  intros Hnd. unfold Policy.accepted_tasks. rewrite filter_In.
  destruct (collected_tasks_spec table policies) as [_ [Hin Hout]].
  cbv zeta in Hin, Hout. split.
  - intros [H Hs]. split; [assumption|]. now apply Hout.
  - intros [Hs [pol [Hl [Hact Ht]]]]. split; [|assumption].
    specialize (Hin pol task Hl Hact Ht). apply in_map_iff in Hin.
    destruct Hin as [y [Ey Hy]].
    assert (y = task); [|now subst].
    apply (NoDup_map_inj AutomatedTask.pk table); auto.
    + apply Hout in Hy. destruct Hy as [pol' [_ [_ Hy]]].
      unfold Policy.policy_autotasks in Hy. apply filter_In in Hy. tauto.
    + unfold Policy.policy_autotasks in Ht. apply filter_In in Ht. tauto.
Qed.

(** X12. With unique primary keys [cascade_policy_tasks] leaves in place
    every row of another agent or of a policy, and every row without a
    parent task. *)
Theorem cascade_policy_tasks_frame (table : list AutomatedTask.t)
  (agent : Agent.t) (policies : Policy.AgentPolicies)
  (row : AutomatedTask.t) :
  NoDup (map AutomatedTask.pk table) ->
  In row table ->
  AutomatedTask.agent row <> Some (Agent.pk agent)
  \/ AutomatedTask.parent_task row = None ->
  In row (fst (Policy.cascade_policy_tasks is_supported_script table agent
                 policies)).
Proof.
  intros Hnd Hrow Hother.
  rewrite cascade_policy_tasks_table by assumption.
  apply in_filter_map. exists row. split; [assumption|].
  assert (Hq : Policy.in_retire_queryset
                 (Policy.agent_tasks_parent_pks table agent) agent
                 (Policy.accepted_tasks is_supported_script table agent
                    policies) row = false).
  { unfold Policy.in_retire_queryset. destruct Hother as [H|H].
    - destruct (fk_eqb _ _) eqn:E; [|reflexivity].
      apply fk_eqb_Some in E. contradiction.
    - rewrite H, fk_in_None. apply andb_false_r. }
  rewrite Hq. simpl. f_equal. unfold Policy.revive_task.
  destruct Hother as [H|H].
  - destruct (fk_eqb _ _) eqn:E; [|reflexivity].
    apply fk_eqb_Some in E. contradiction.
  - rewrite H, fk_in_None. now rewrite andb_false_r.
Qed.

(** X13. With unique primary keys every row [cascade_policy_tasks] leaves
    in the table is a row of the table before, the same or with its sync
    status set to [pendingdeletion] or to [notsynced]; no row is added
    and no other column is written. *)
Theorem cascade_policy_tasks_rows (table : list AutomatedTask.t)
  (agent : Agent.t) (policies : Policy.AgentPolicies)
  (row : AutomatedTask.t) :
  NoDup (map AutomatedTask.pk table) ->
  In row (fst (Policy.cascade_policy_tasks is_supported_script table agent
                 policies)) ->
  exists r, In r table
            /\ (row = r
                \/ row = AutomatedTask.set_sync_status r "pendingdeletion"
                \/ row = AutomatedTask.set_sync_status r "notsynced").
Proof.
  intros Hnd Hrow.
  rewrite cascade_policy_tasks_table in Hrow by assumption.
  apply in_filter_map in Hrow. destruct Hrow as [r [Hr Hf]].
  exists r. split; [assumption|].
  destruct (Policy.in_retire_queryset _ _ _ r).
  - unfold Policy.retired_task in Hf.
    destruct (String.eqb _ _); [discriminate|]. simpl in Hf.
    injection Hf as <-.
    destruct (revive_task_cases agent
                (Policy.accepted_tasks is_supported_script table agent
                   policies)
                (AutomatedTask.set_sync_status r "pendingdeletion"))
      as [E|E]; rewrite E; auto.
  - simpl in Hf. injection Hf as <-.
    destruct (revive_task_cases agent
                (Policy.accepted_tasks is_supported_script table agent
                   policies) r) as [E|E]; rewrite E; auto.
Qed.

End FurtherTasks.

(** ** More on the check cascade *)

Section FurtherChecks.

Variable is_supported_script : Agent.t -> string -> bool.

Local Abbreviation check_key := (Policy.check_key is_supported_script).
Local Abbreviation final_list := (Policy.final_list is_supported_script).
Local Abbreviation cascade_policy_checks :=
  (Policy.cascade_policy_checks is_supported_script).
Local Abbreviation overridden_checks :=
  (Policy.overridden_checks is_supported_script).
Local Abbreviation first_templates :=
  (Policy.first_templates is_supported_script).

Lemma overridden_checks_key agent l :
  forall seen c,
    In c (overridden_checks agent seen l) ->
    exists k, check_key agent c = Some k.
Proof.
  induction l as [|x l IH]; simpl; intros seen c Hin; [contradiction|].
  destruct (check_key agent x) as [k|] eqn:Ek; [|now apply (IH seen)].
  destruct (Policy.mem_key k seen); [|now apply (IH (k :: seen))].
  apply in_app_or in Hin. destruct Hin as [Hin|Hin]; [|now apply (IH seen)].
  destruct (Check.has_agent x); simpl in Hin; [|contradiction].
  destruct Hin as [<-|[]]. now exists k.
Qed.

(** The first check of a sequence with a key it contains. *)
Lemma first_with_key agent k l :
  (exists c, In c l /\ check_key agent c = Some k) ->
  exists l1 t l2,
    l = l1 ++ t :: l2 /\ check_key agent t = Some k
    /\ forall c', In c' l1 -> check_key agent c' <> Some k.
Proof.
  induction l as [|x l IH]; intros [c [Hc Hk]]; [destruct Hc|].
  destruct (check_key agent x) as [kx|] eqn:Ex.
  - destruct (Policy.Key_eqb kx k) eqn:E.
    + apply Key_eqb_eq in E. subst kx. exists [], x, l.
      repeat split; auto.
    + assert (Hne : kx <> k).
      { intros ->. assert (Policy.Key_eqb k k = true)
          by now apply Key_eqb_eq. congruence. }
      destruct Hc as [->|Hc]; [congruence|].
      destruct IH as [l1 [t [l2 [El [Ht Hl1]]]]]; [now exists c|].
      exists (x :: l1), t, l2. subst l. repeat split; auto.
      intros c' [<-|Hc']; [congruence|now apply Hl1].
  - destruct Hc as [->|Hc]; [congruence|].
    destruct IH as [l1 [t [l2 [El [Ht Hl1]]]]]; [now exists c|].
    exists (x :: l1), t, l2. subst l. repeat split; auto.
    intros c' [<-|Hc']; [congruence|now apply Hl1].
Qed.

(** Two splits of one list at different elements: one of the two comes
    before the other. *)
Lemma two_splits {A} (l1 l1' l2 l2' : list A) (c t : A) :
  l1 ++ c :: l2 = l1' ++ t :: l2' -> c <> t -> In t l1 \/ In c l1'.
Proof.
  revert l1'. induction l1 as [|x l1 IH]; intros l1' E Hne.
  - destruct l1' as [|y l1']; simpl in E.
    + injection E as E _. contradiction.
    + injection E as E _. right. simpl. auto.
  - destruct l1' as [|y l1']; simpl in E.
    + injection E as E _. left. simpl. auto.
    + injection E as _ E. destruct (IH l1' E Hne); simpl; auto.
Qed.

(** A check that stands once in the sequence, first with its key, is not
    overridden. *)
Lemma overridden_checks_not_first agent k c l2 l1 :
  forall seen,
    Policy.mem_key k seen = false ->
    check_key agent c = Some k ->
    (forall c', In c' l1 -> check_key agent c' <> Some k) ->
    ~ In c l2 ->
    ~ In c (overridden_checks agent seen (l1 ++ c :: l2)).
Proof.
  induction l1 as [|x l1 IH]; simpl; intros seen Hseen Hk Hl1 Hl2 Hin.
  - rewrite Hk, Hseen in Hin. apply overridden_checks_inv in Hin. tauto.
  - assert (Hx : x <> c) by (intros ->; apply (Hl1 c); auto).
    destruct (check_key agent x) as [kx|] eqn:Ex.
    + destruct (Policy.mem_key kx seen).
      * apply in_app_or in Hin. destruct Hin as [Hin|Hin].
        -- destruct (Check.has_agent x); simpl in Hin; [|contradiction].
           destruct Hin as [E|[]]. contradiction.
        -- apply (IH seen); auto.
      * apply (IH (kx :: seen)); auto.
        apply mem_key_cons. split; [|assumption].
        intros ->. apply (Hl1 x); auto.
    + apply (IH seen); auto.
Qed.

(** X14. With unique primary keys every row [cascade_policy_checks]
    leaves in the table is a row of the table before, the same or with
    [overriden_by_policy] set: no row is added, no other column is
    written and the flag is never cleared. *)
Theorem cascade_policy_checks_rows (table : list Check.t) (agent : Agent.t)
  (policies : Policy.AgentPolicies) (row : Check.t) :
  NoDup (map Check.pk table) ->
  In row (fst (cascade_policy_checks table agent policies)) ->
  exists r, In r table
            /\ (row = r \/ row = Check.set_overriden_by_policy r true)
            /\ (Check.overriden_by_policy r = true ->
                Check.overriden_by_policy row = true).
Proof.
  intros Hnd Hrow.
  rewrite cascade_policy_checks_table in Hrow by assumption.
  apply filter_In in Hrow. destruct Hrow as [Hrow _].
  apply in_filter_map in Hrow. destruct Hrow as [r [Hr Hf]].
  apply row_fate_overriden in Hf. exists r.
  split; [assumption|]. split; [assumption|].
  destruct Hf as [->| ->]; auto.
Qed.

(** X15. With unique primary keys a direct check of the agent is never
    deleted by [cascade_policy_checks]: it stays, as it was or saved as
    overridden. *)
Theorem direct_checks_kept (table : list Check.t) (agent : Agent.t)
  (policies : Policy.AgentPolicies) (check : Check.t) :
  NoDup (map Check.pk table) ->
  In check (Policy.agent_checks table agent) ->
  In check (fst (cascade_policy_checks table agent policies))
  \/ In (Check.set_overriden_by_policy check true)
        (fst (cascade_policy_checks table agent policies)).
Proof.
  intros Hnd Hc. apply agent_checks_inv in Hc. destruct Hc as [Hc [_ Hm]].
  rewrite cascade_policy_checks_table by assumption.
  destruct (row_fate_total
              (overridden_checks agent []
                 (Policy.candidates table agent policies)) check)
    as [row Hf].
  assert (Hin : In row
            (filter
               (fun row =>
                  negb (Policy.is_stale_check agent
                          (Policy.stale_check_pks
                             (Policy.agent_checks_parent_pks table agent)
                             (final_list table agent policies)) row))
               (filter_map
                  (row_fate Check.pk Policy.overriden_instance
                     (overridden_checks agent []
                        (Policy.candidates table agent policies)))
                  table))).
  { apply filter_In. split.
    - apply in_filter_map. now exists check.
    - apply row_fate_columns in Hf. destruct Hf as [_ [_ [_ [Em _]]]].
      unfold Policy.is_stale_check. rewrite Em, Hm.
      now rewrite andb_false_r. }
  apply row_fate_overriden in Hf. destruct Hf as [->| ->]; auto.
Qed.

(** X16. On a table with unique primary keys whose template rows have no
    agent, [cascade_policy_checks] leaves in place every row that is not
    a check of the agent (the rows of other agents and the templates),
    and every direct check of the agent that no block of the loop takes
    (a check of an unknown type, of a type that does not apply on the
    agent's platform, or with a script the agent does not support). *)
Theorem cascade_policy_checks_frame (table : list Check.t) (agent : Agent.t)
  (policies : Policy.AgentPolicies) (row : Check.t) :
  Policy.check_rows_ok table ->
  In row table ->
  Check.agent row <> Some (Agent.pk agent)
  \/ (Check.managed_by_policy row = false /\ check_key agent row = None) ->
  In row (fst (cascade_policy_checks table agent policies)).
Proof.
  intros Hok Hrow Hother. pose proof Hok as [Hnd _].
  rewrite cascade_policy_checks_table by assumption.
  assert (Hnot : mem_nat (Check.pk row)
                   (map Check.pk
                      (overridden_checks agent []
                         (Policy.candidates table agent policies)))
                 = false).
  { apply mem_nat_false. intros H. apply in_map_iff in H.
    destruct H as [c [E Hc]].
    pose proof (ov_direct is_supported_script table agent policies Hok c Hc)
      as Hd.
    apply agent_checks_inv in Hd. destruct Hd as [Hct [Ha _]].
    assert (c = row) by (apply (NoDup_map_inj Check.pk table); auto).
    subst c. destruct Hother as [H|[_ H]]; [contradiction|].
    apply overridden_checks_key in Hc. destruct Hc as [k Hk]. congruence. }
  apply filter_In. split.
  - apply in_filter_map. exists row. split; [assumption|].
    unfold row_fate. now rewrite Hnot.
  - apply negb_true_iff. unfold Policy.is_stale_check.
    destruct Hother as [H|[H _]].
    + destruct (fk_eqb _ _) eqn:E; [|reflexivity].
      apply fk_eqb_Some in E. contradiction.
    + rewrite H. now rewrite andb_false_r.
Qed.

(** X17. On such a table, a direct check of the agent that is the first
    candidate with its key is left as it is, and no template with that
    key is accepted: the agent's own check is preferred to the templates
    of the policies that are not enforced. *)
Theorem first_direct_check_wins (table : list Check.t) (agent : Agent.t)
  (policies : Policy.AgentPolicies) (l1 l2 : list Check.t) (c : Check.t)
  (k : Policy.Key) :
  Policy.check_rows_ok table ->
  Policy.candidates table agent policies = l1 ++ c :: l2 ->
  In c (Policy.agent_checks table agent) ->
  check_key agent c = Some k ->
  (forall c', In c' l1 -> check_key agent c' <> Some k) ->
  In c (fst (cascade_policy_checks table agent policies))
  /\ forall t, In t (final_list table agent policies) ->
               check_key agent t <> Some k.
Proof.
  intros Hok E Hc Hk Hfirst. pose proof Hok as [Hnd Htpl].
  pose proof Hc as Hc'. apply agent_checks_inv in Hc'.
  destruct Hc' as [Hct [Ha Hm]].
  assert (Hagent : Check.has_agent c = true)
    by (unfold Check.has_agent; now rewrite Ha).
  split.
  - (* c stands once among the candidates *)
    assert (Hl2 : ~ In c l2).
    { intros Hin.
      assert (Hcount : forall l, NoDup l -> In c l ->
                exists d1 d2, l = d1 ++ c :: d2 /\ ~ In c d1 /\ ~ In c d2).
      { intros l Hl Hinl. apply in_split in Hinl.
        destruct Hinl as [d1 [d2 ->]]. exists d1, d2.
        apply NoDup_remove_2 in Hl. split; [reflexivity|].
        split; intros H; apply Hl, in_or_app; auto. }
      assert (HD : NoDup (Policy.agent_checks table agent)).
      { unfold Policy.agent_checks, Policy.agentchecks.
        apply NoDup_filter, NoDup_filter.
        now apply NoDup_map_inv in Hnd. }
      destruct (Hcount _ HD Hc) as [d1 [d2 [Ed [Hd1 Hd2]]]].
      unfold Policy.candidates in E. rewrite collected_checks_levels in E.
      cbv iota in E. rewrite Ed in E.
      set (EE := flat_map _ _) in E at 1. set (PP := flat_map _ _) in E.
      assert (HnE : forall x, In x EE \/ In x PP -> x <> c).
      { intros x Hx ->. unfold EE, PP in Hx.
        assert (Hp : Check.policy c <> None).
        { destruct Hx as [Hx|Hx]; apply in_flat_map in Hx;
            destruct Hx as [p [_ Hx]];
            apply checks_where_in_table in Hx; tauto. }
        rewrite (Htpl c Hct Hp) in Ha. discriminate. }
      rewrite <- app_assoc in E. simpl in E.
      rewrite app_assoc in E.
      (* both splits are at the first occurrence of c *)
      assert (Hsame : forall (a a' b b' : list Check.t),
                a ++ c :: b = a' ++ c :: b' ->
                ~ In c a -> ~ In c a' -> b = b').
      { intros a. induction a as [|x a IHa]; intros a' b b' Eab Hna Hna'.
        - destruct a' as [|y a']; simpl in Eab.
          + now injection Eab.
          + injection Eab as Ey _. exfalso. apply Hna'. simpl. auto.
        - destruct a' as [|y a']; simpl in Eab.
          + injection Eab as Ex _. exfalso. apply Hna. simpl. auto.
          + injection Eab as _ Eab. apply (IHa a' b b' Eab).
            * intros H. apply Hna. simpl. auto.
            * intros H. apply Hna'. simpl. auto. }
      assert (El2 : d2 ++ PP = l2).
      { apply (Hsame (EE ++ d1) l1); auto.
        - intros H. apply in_app_or in H. destruct H as [H|H]; auto.
          apply (HnE c); auto.
        - intros H. apply (Hfirst c); auto. }
      rewrite <- El2 in Hin. apply in_app_or in Hin.
      destruct Hin as [Hin|Hin]; auto. apply (HnE c); auto. }
    rewrite cascade_policy_checks_table by assumption.
    apply filter_In. split.
    + apply in_filter_map. exists c. split; [assumption|].
      unfold row_fate.
      assert (Hnot : mem_nat (Check.pk c)
                       (map Check.pk
                          (overridden_checks agent []
                             (Policy.candidates table agent policies)))
                     = false).
      { apply mem_nat_false. intros H. apply in_map_iff in H.
        destruct H as [c0 [Epk Hc0]].
        assert (c0 = c).
        { apply (NoDup_map_inj Check.pk table); auto.
          apply overridden_checks_inv in Hc0. destruct Hc0 as [Hc0 _].
          now apply candidates_inv in Hc0. }
        subst c0. rewrite E in Hc0.
        now apply (overridden_checks_not_first agent k c l2 l1 []) in Hc0. }
      now rewrite Hnot.
    + apply negb_true_iff. unfold Policy.is_stale_check. rewrite Hm.
      now rewrite andb_false_r.
  - intros t Ht Hkt. apply final_list_In in Ht.
    pose proof (first_templates_inv _ _ _ _ _ Ht) as [_ [Hat _]].
    apply first_templates_is_first in Ht.
    destruct Ht as [l1' [l2' [k' [E' [Hk' Hfirst']]]]].
    assert (k' = k) by congruence. subst k'.
    assert (Hne : c <> t) by (intros ->; congruence).
    rewrite E in E'. destruct (two_splits _ _ _ _ _ _ E' Hne) as [H|H].
    + now apply (Hfirst t).
    + now apply (Hfirst' c).
Qed.

(** X18. When no level has an active policy, nothing is accepted and
    nothing is returned, for the checks and for the tasks. *)
Theorem no_active_policy (checks : list Check.t)
  (tasks : list AutomatedTask.t) (agent : Agent.t)
  (policies : Policy.AgentPolicies) :
  (forall pol, In (Some pol) (Policy.policy_levels policies) ->
               Policy.active pol = false) ->
  final_list checks agent policies = []
  /\ snd (cascade_policy_checks checks agent policies) = []
  /\ Policy.accepted_tasks is_supported_script tasks agent policies = []
  /\ snd (Policy.cascade_policy_tasks is_supported_script tasks agent
            policies) = [].
Proof.
  intros Hinactive.
  assert (Hfinal : final_list checks agent policies = []).
  { destruct (final_list checks agent policies) as [|t l] eqn:E;
      [reflexivity|].
    assert (Ht : In t (final_list checks agent policies))
      by (rewrite E; simpl; auto).
    apply final_list_In in Ht.
    apply first_templates_inv in Ht. destruct Ht as [Ht [Ha _]].
    apply candidates_inv in Ht. destruct Ht as [_ Ht].
    exfalso.
    assert (Hc : In t (Policy.candidates checks agent policies)).
    { assert (Ht' : In t (final_list checks agent policies))
        by (rewrite E; simpl; auto).
      apply final_list_In, first_templates_inv in Ht'. tauto. }
    unfold Policy.candidates in Hc. rewrite collected_checks_levels in Hc.
    apply in_app_or in Hc. destruct Hc as [Hc|Hc].
    - apply checks_where_inv in Hc. destruct Hc as [pol [Hl [Hs _]]].
      rewrite (Hinactive pol Hl) in Hs. discriminate.
    - apply in_app_or in Hc. destruct Hc as [Hc|Hc].
      + apply agent_checks_inv in Hc. destruct Hc as [_ [Hag _]].
        unfold Check.has_agent in Ha. rewrite Hag in Ha. discriminate.
      + apply checks_where_inv in Hc. destruct Hc as [pol [Hl [Hs _]]].
        rewrite (Hinactive pol Hl) in Hs. discriminate. }
  assert (Htasks : Policy.accepted_tasks is_supported_script tasks agent
                     policies = []).
  { destruct (Policy.accepted_tasks is_supported_script tasks agent policies)
      as [|t l] eqn:E; [reflexivity|].
    assert (Ht : In t (Policy.accepted_tasks is_supported_script tasks agent
                         policies)) by (rewrite E; simpl; auto).
    unfold Policy.accepted_tasks in Ht. apply filter_In in Ht.
    destruct Ht as [Ht _].
    apply (collected_tasks_spec tasks policies) in Ht.
    destruct Ht as [pol [Hl [Hact _]]].
    rewrite (Hinactive pol Hl) in Hact. discriminate. }
  split; [assumption|]. split; [|split; [assumption|]].
  - unfold Policy.cascade_policy_checks. simpl.
    fold (final_list checks agent policies). now rewrite Hfinal.
  - unfold Policy.cascade_policy_tasks. simpl. now rewrite Htasks.
Qed.

(** X19. On a table with unique primary keys whose template rows have no
    agent, every template of an enforced active policy has its key taken
    by an accepted template of an enforced active policy, and every
    direct check of the agent with that key is saved as overridden: its
    row stays, and the row with its primary key has
    [overriden_by_policy = true] and the agent, type, parent and sync
    status of the check. *)
Theorem enforced_template_wins (table : list Check.t) (agent : Agent.t)
  (policies : Policy.AgentPolicies) (c : Check.t) (k : Policy.Key) :
  Policy.check_rows_ok table ->
  In c (flat_map (Policy.checks_where
                    (fun pol => Policy.active pol && Policy.enforced pol)
                    table)
          (Policy.policy_levels policies)) ->
  check_key agent c = Some k ->
  (exists t,
     In t (final_list table agent policies)
     /\ check_key agent t = Some k
     /\ In t (flat_map (Policy.checks_where
                          (fun pol => Policy.active pol
                                      && Policy.enforced pol) table)
                (Policy.policy_levels policies)))
  /\ forall d,
      In d (Policy.agent_checks table agent) ->
      check_key agent d = Some k ->
      (exists row,
         In row (fst (cascade_policy_checks table agent policies))
         /\ Check.pk row = Check.pk d)
      /\ forall row,
           In row (fst (cascade_policy_checks table agent policies)) ->
           Check.pk row = Check.pk d ->
           Check.overriden_by_policy row = true
           /\ Check.agent row = Check.agent d
           /\ Check.check_type row = Check.check_type d
           /\ Check.managed_by_policy row = false
           /\ Check.parent_check row = Check.parent_check d
           /\ Check.sync_status row = Check.sync_status d.
Proof.
  intros Hok Hc Hk. pose proof Hok as [Hnd Htpl].
  set (EE := flat_map (Policy.checks_where
                         (fun pol => Policy.active pol && Policy.enforced pol)
                         table)
               (Policy.policy_levels policies)) in *.
  assert (Hcands : exists PP,
            Policy.candidates table agent policies
            = EE ++ Policy.agent_checks table agent ++ PP).
  { eexists. unfold Policy.candidates. rewrite collected_checks_levels.
    reflexivity. }
  destruct Hcands as [PP Hcands]. split.
  - destruct (first_with_key agent k EE) as [e1 [t [e2 [Ee [Ht Hfirst]]]]];
      [now exists c|].
    exists t. assert (HtE : In t EE)
      by (rewrite Ee; apply in_or_app; simpl; auto).
    split; [|split; assumption].
    apply final_list_In. rewrite Hcands, Ee, <- app_assoc. simpl.
    apply first_templates_first with (k := k); auto.
    unfold EE in HtE. apply in_flat_map in HtE.
    destruct HtE as [p [_ HtE]]. apply checks_where_in_table in HtE.
    destruct HtE as [Htt Hp]. unfold Check.has_agent.
    now rewrite (Htpl t Htt Hp).
  - intros d Hd Hkd. pose proof Hd as Hd'.
    apply agent_checks_inv in Hd'. destruct Hd' as [_ [Ha Hm]].
    assert (Hov : In d (overridden_checks agent []
                          (Policy.candidates table agent policies))).
    { apply in_split in Hd. destruct Hd as [d1 [d2 Ed]].
      rewrite Hcands, Ed, <- app_assoc. simpl. rewrite app_assoc.
      apply overridden_checks_later with (k := k); auto.
      + exists c. split; [apply in_or_app; auto | assumption].
      + unfold Check.has_agent. now rewrite Ha. }
    split.
    + exists (Check.set_overriden_by_policy d true). split; [|reflexivity].
      now apply overridden_check_saved.
    + intros row Hrow Epk.
      rewrite (overridden_check_row is_supported_script table agent policies
                 d row) by assumption.
      simpl. repeat split; auto.
Qed.

End FurtherChecks.

(** ** The tables after materialization *)

(** X20. On a check table with unique primary keys whose template rows
    have no agent, after [generate_policy_checks] the parents of the
    agent's managed checks are the accepted templates: every accepted
    template is the parent of a managed check of the agent, every parent
    of a managed check of the agent is accepted, and the cascade accepts
    the same templates on the new table. *)
Theorem generated_checks_match_accepted
  (is_supported_script : Agent.t -> string -> bool) (table : list Check.t)
  (agent : Agent.t) (policies : Policy.AgentPolicies) :
  Policy.check_rows_ok table ->
  let table' :=
    Policy.generate_policy_checks is_supported_script table agent policies in
  let final := Policy.final_list is_supported_script table agent policies in
  (forall t, In t final ->
             In (Some (Check.pk t))
                (Policy.agent_checks_parent_pks table' agent))
  /\ (forall p, In (Some p) (Policy.agent_checks_parent_pks table' agent) ->
                In p (map Check.pk final))
  /\ Policy.final_list is_supported_script table' agent policies = final.
Proof.
  intros Hok table' final. split; [|split].
  - intros t Ht. now apply final_materialized.
  - intros p Hp. now apply parents_table2_accepted.
  - now apply final_list_table2.
Qed.

(** X21. On a task table with unique primary keys whose template rows
    have no agent, after [generate_policy_tasks] every accepted template
    is the parent of a managed task of the agent, a managed task of the
    agent whose parent is not accepted is pending deletion, and the
    cascade accepts the same templates on the new table. *)
Theorem generated_tasks_match_accepted
  (is_supported_script : Agent.t -> string -> bool)
  (table : list AutomatedTask.t) (agent : Agent.t)
  (policies : Policy.AgentPolicies) :
  Policy.task_rows_ok table ->
  let table' :=
    Policy.generate_policy_tasks is_supported_script table agent policies in
  let accepted :=
    Policy.accepted_tasks is_supported_script table agent policies in
  (forall t, In t accepted ->
             In (Some (AutomatedTask.pk t))
                (Policy.agent_tasks_parent_pks table' agent))
  /\ (forall r p,
        In r table' ->
        AutomatedTask.agent r = Some (Agent.pk agent) ->
        AutomatedTask.managed_by_policy r = true ->
        AutomatedTask.parent_task r = Some p ->
        ~ In p (map AutomatedTask.pk accepted) ->
        AutomatedTask.sync_status r = "pendingdeletion"%string)
  /\ Policy.accepted_tasks is_supported_script table' agent policies
     = accepted.
Proof.
  intros Hok table' accepted. split; [|split].
  - intros t Ht. now apply accepted_materialized.
  - intros r p Hr Ha Hm Hp Hna.
    destruct (tasks_table2_rows is_supported_script table agent policies Hok)
      as [created [E [Hcreated _]]].
    unfold table' in Hr. rewrite E in Hr. apply in_app_or in Hr.
    destruct Hr as [Hr|Hr].
    + apply in_filter_map in Hr. destruct Hr as [r0 [Hr0 Hf]].
      pose proof (cascaded_task_columns _ _ _ _ _ _ Hf)
        as [_ [Ea [_ [Em Ep]]]].
      assert (Hq : Policy.in_retire_queryset
                     (Policy.agent_tasks_parent_pks table agent) agent
                     accepted r0 = true).
      { apply in_retire_queryset_true. split; [congruence|].
        exists p. split; [congruence|]. split; [|assumption].
        apply (proj2 (task_parents_In is_supported_script agent table p)).
        exists r0. repeat split; auto; congruence. }
      apply cascaded_task_inv in Hf. destruct Hf as [[Hq' _]|[_ ->]].
      * unfold accepted in Hq. congruence.
      * rewrite (revive_task_not_accepted agent _ _ p);
          [reflexivity | simpl; congruence | assumption].
    + destruct (Hcreated r Hr) as [_ [_ [_ [_ [tpl [Htpl Hpar]]]]]].
      rewrite Hp in Hpar. injection Hpar as ->.
      exfalso. apply Hna, in_map.
      now apply new_tasks_accepted in Htpl.
  - now apply accepted_tasks_table2.
Qed.

(** ** The further properties at sample data *)

Ltac sample_rows_ok :=
  split; [distinct_pks|];
  let row := fresh "row" in
  let H := fresh "H" in
  intros row H; simpl in H;
  repeat (destruct H as [<-|H]; [simpl; congruence|]); destruct H.

Lemma accepted_tasks_iff_witness :
  In Sample.task_template
     (Policy.accepted_tasks Sample.supports_all
        [Sample.task_template; Sample.pending_task] Sample.agent10
        Sample.site_level_policy).
Proof.
  apply (proj2 (accepted_tasks_iff Sample.supports_all
                  [Sample.task_template; Sample.pending_task] Sample.agent10
                  Sample.site_level_policy Sample.task_template
                  ltac:(distinct_pks))).
  split; [reflexivity|]. exists Sample.policy_plain. simpl. auto.
Defined.

Lemma cascade_policy_tasks_frame_witness :
  In Sample.task_template
     (fst (Policy.cascade_policy_tasks Sample.supports_all
             [Sample.task_template; Sample.pending_task] Sample.agent10
             Sample.site_level_policy)).
Proof.
  apply (cascade_policy_tasks_frame Sample.supports_all
           [Sample.task_template; Sample.pending_task] Sample.agent10
           Sample.site_level_policy Sample.task_template).
  - distinct_pks.
  - simpl. auto.
  - left. simpl. discriminate.
Defined.

Lemma cascade_policy_tasks_rows_witness :
  exists r,
    In r [Sample.task_template; Sample.pending_task]
    /\ (AutomatedTask.set_sync_status Sample.pending_task "notsynced" = r
        \/ AutomatedTask.set_sync_status Sample.pending_task "notsynced"
           = AutomatedTask.set_sync_status r "pendingdeletion"
        \/ AutomatedTask.set_sync_status Sample.pending_task "notsynced"
           = AutomatedTask.set_sync_status r "notsynced").
Proof.
  apply (cascade_policy_tasks_rows Sample.supports_all
           [Sample.task_template; Sample.pending_task] Sample.agent10
           Sample.site_level_policy
           (AutomatedTask.set_sync_status Sample.pending_task "notsynced")).
  - distinct_pks.
  - simpl. auto.
Defined.

Lemma cascade_policy_checks_rows_witness :
  exists r,
    In r Sample.disk_table
    /\ (Sample.direct_disk = r
        \/ Sample.direct_disk = Check.set_overriden_by_policy r true)
    /\ (Check.overriden_by_policy r = true ->
        Check.overriden_by_policy Sample.direct_disk = true).
Proof.
  apply (cascade_policy_checks_rows Sample.supports_all Sample.disk_table
           Sample.agent10 Sample.two_policies Sample.direct_disk).
  - distinct_pks.
  - simpl. auto.
Defined.

Lemma direct_checks_kept_witness :
  In Sample.direct_disk
     (fst (Policy.cascade_policy_checks Sample.supports_all Sample.disk_table
             Sample.agent10 Sample.enforced_and_plain))
  \/ In (Check.set_overriden_by_policy Sample.direct_disk true)
        (fst (Policy.cascade_policy_checks Sample.supports_all
                Sample.disk_table Sample.agent10 Sample.enforced_and_plain)).
Proof.
  apply (direct_checks_kept Sample.supports_all Sample.disk_table
           Sample.agent10 Sample.enforced_and_plain Sample.direct_disk).
  - distinct_pks.
  - simpl. auto.
Defined.

Lemma cascade_policy_checks_frame_witness :
  In Sample.disk_template_one
     (fst (Policy.cascade_policy_checks Sample.supports_all Sample.disk_table
             Sample.agent10 Sample.two_policies)).
Proof.
  apply (cascade_policy_checks_frame Sample.supports_all Sample.disk_table
           Sample.agent10 Sample.two_policies Sample.disk_template_one).
  - sample_rows_ok.
  - simpl. auto.
  - left. simpl. discriminate.
Defined.

Lemma first_direct_check_wins_witness :
  In Sample.direct_disk
     (fst (Policy.cascade_policy_checks Sample.supports_all Sample.disk_table
             Sample.agent10 Sample.two_policies))
  /\ forall t,
       In t (Policy.final_list Sample.supports_all Sample.disk_table
               Sample.agent10 Sample.two_policies) ->
       Policy.check_key Sample.supports_all Sample.agent10 t
       <> Some (Policy.diskspace_key "C:").
Proof.
  apply (first_direct_check_wins Sample.supports_all Sample.disk_table
           Sample.agent10 Sample.two_policies []
           [Sample.disk_template_one; Sample.disk_template_two]
           Sample.direct_disk (Policy.diskspace_key "C:")).
  - sample_rows_ok.
  - reflexivity.
  - simpl. auto.
  - reflexivity.
  - intros c' [].
Defined.

Lemma no_active_policy_witness :
  Policy.final_list Sample.supports_all Sample.disk_table Sample.agent10
    Sample.no_policies = []
  /\ snd (Policy.cascade_policy_checks Sample.supports_all Sample.disk_table
            Sample.agent10 Sample.no_policies) = []
  /\ Policy.accepted_tasks Sample.supports_all [Sample.task_template]
       Sample.agent10 Sample.no_policies = []
  /\ snd (Policy.cascade_policy_tasks Sample.supports_all
            [Sample.task_template] Sample.agent10 Sample.no_policies) = [].
Proof.
  apply (no_active_policy Sample.supports_all Sample.disk_table
           [Sample.task_template] Sample.agent10 Sample.no_policies).
  intros pol H. simpl in H.
  repeat (destruct H as [H|H]; [discriminate|]). destruct H.
Defined.

Lemma enforced_template_wins_witness :
  exists row,
    In row (fst (Policy.cascade_policy_checks Sample.supports_all
                   Sample.disk_table Sample.agent10
                   Sample.enforced_and_plain))
    /\ Check.pk row = 1
    /\ Check.overriden_by_policy row = true.
Proof.
  destruct (proj2 (enforced_template_wins Sample.supports_all
                     Sample.disk_table Sample.agent10
                     Sample.enforced_and_plain Sample.disk_template_one
                     (Policy.diskspace_key "C:")
                     ltac:(sample_rows_ok) ltac:(simpl; auto) eq_refl)
              Sample.direct_disk ltac:(simpl; auto) eq_refl)
    as [[row [Hrow E]] Hall].
  exists row. split; [assumption|]. split; [assumption|].
  now apply Hall.
Defined.

Lemma generated_checks_match_accepted_witness :
  In (Some (Check.pk Sample.disk_template_one))
     (Policy.agent_checks_parent_pks
        (Policy.generate_policy_checks Sample.supports_all Sample.disk_table
           Sample.agent10 Sample.enforced_and_plain)
        Sample.agent10).
Proof.
  refine (proj1 (generated_checks_match_accepted Sample.supports_all
                   Sample.disk_table Sample.agent10 Sample.enforced_and_plain
                   _) Sample.disk_template_one _).
  - sample_rows_ok.
  - simpl. auto.
Defined.

Lemma generated_tasks_match_accepted_witness :
  In (Some (AutomatedTask.pk Sample.task_template))
     (Policy.agent_tasks_parent_pks
        (Policy.generate_policy_tasks Sample.supports_all
           [Sample.task_template; Sample.pending_task] Sample.agent10
           Sample.site_level_policy)
        Sample.agent10).
Proof.
  refine (proj1 (generated_tasks_match_accepted Sample.supports_all
                   [Sample.task_template; Sample.pending_task] Sample.agent10
                   Sample.site_level_policy _) Sample.task_template _).
  - sample_rows_ok.
  - simpl. auto.
Defined.
